(** * Clipso: the processing page and the upload client

    A shallow embedding of the parts of the front end that drive one video
    through the enhancement pipeline:

    - [frontend/src/lib/api.ts]: [uploadVideo] (the renaming of the uploaded
      file) and the five adapter calls [generateCaptions], [getTranscript],
      [getBRoll], [generateFinalVideo], [getFinalVideoUrl];
    - [frontend/src/pages/Processing.tsx] (the [ProcessingPage] component,
      [src/unnamed/part_002]):
      [getShareableId], the effect body [initiateProcessing] with its two
      polling closures [checkTranscriptStatus] and [checkFinalVideoStatus],
      and the overall-progress effect.

    Strings are Stdlib strings: a character stands for one UTF-16 code unit
    below 256.  The server and the providers are an oracle ([Env]) that
    fixes, for every adapter call, whether the promise resolves (and with
    which payload) or rejects. *)

From Stdlib Require Import ZArith List Bool Ascii String Lia.
From Stdlib Require Import DecimalString DecimalZ.
From stdpp Require Import base list.

Import ListNotations.
Open Scope string_scope.
Open Scope list_scope.
Open Scope Z_scope.

(** ** JavaScript string primitives *)

Module Js.

(** [String.prototype.split] with a one-character separator: the segments
    between the separators, the empty string giving one empty segment. *)
Fixpoint split (sep : ascii) (s : string) : list string :=
  match s with
  | EmptyString => [EmptyString]
  | String c rest =>
      if Ascii.eqb c sep then EmptyString :: split sep rest
      else match split sep rest with
           | seg :: segs => String c seg :: segs
           | [] => [String c EmptyString]
           end
  end.

(** [arr[0]] of a split result. *)
Definition first (segs : list string) : string := List.hd EmptyString segs.

(** [Array.prototype.pop]: the last element. *)
Definition pop (segs : list string) : string := List.last segs EmptyString.

(** [s.slice(0, n)]. *)
Fixpoint slice0 (n : nat) (s : string) : string :=
  match n, s with
  | S n', String c rest => String c (slice0 n' rest)
  | _, _ => EmptyString
  end.

(** The character class [[^/.]]. *)
Definition notSlashDot (c : ascii) : bool :=
  negb (Ascii.eqb c "/") && negb (Ascii.eqb c ".").

Fixpoint all (p : ascii -> bool) (s : string) : bool :=
  match s with
  | EmptyString => true
  | String c rest => p c && all p rest
  end.

(** Does [/[^/.]+$/] match the whole of [s]? *)
Definition extensionTail (s : string) : bool :=
  match s with
  | EmptyString => false
  | String _ _ => all notSlashDot s
  end.

(** [s.replace(/\.[^/.]+$/, "")]: the leftmost position where a dot is
    followed, up to the end of the string, by one or more characters other
    than [/] and [.]; the string is cut there.  Without a match the string
    is returned as it is. *)
Fixpoint removeExtension (s : string) : string :=
  match s with
  | EmptyString => EmptyString
  | String c rest =>
      if Ascii.eqb c "." && extensionTail rest then EmptyString
      else String c (removeExtension rest)
  end.

(** Upper-case hexadecimal digit of a value below 16. *)
Definition hexDigit (n : N) : ascii :=
  if (n <? 10)%N then ascii_of_N (48 + n) else ascii_of_N (55 + n).

(** [%XY] for one byte. *)
Definition percent (byte : N) : string :=
  String "%" (String (hexDigit (byte / 16)) (String (hexDigit (byte mod 16)) EmptyString)).

(** The characters [encodeURIComponent] leaves alone:
    [A-Z a-z 0-9 - _ . ! ~ * ' ( )]. *)
Definition unreserved (c : ascii) : bool :=
  let n := N_of_ascii c in
  ((65 <=? n) && (n <=? 90) || (97 <=? n) && (n <=? 122) || (48 <=? n) && (n <=? 57)
   || (n =? 45) || (n =? 95) || (n =? 46) || (n =? 33) || (n =? 126)
   || (n =? 42) || (n =? 39) || (n =? 40) || (n =? 41))%N.

(** One code unit below 256 under [encodeURIComponent]: itself when
    unreserved, else the percent-escaped bytes of its UTF-8 encoding (one
    byte below 128, two bytes from 128 on). *)
Definition encodeChar (c : ascii) : string :=
  let n := N_of_ascii c in
  if unreserved c then String c EmptyString
  else if (n <? 128)%N then percent n
  else percent (192 + n / 64) ++ percent (128 + n mod 64).

Fixpoint encodeURIComponent (s : string) : string :=
  match s with
  | EmptyString => EmptyString
  | String c rest => encodeChar c ++ encodeURIComponent rest
  end.

(** Number-to-string conversion of an integral number (a template literal
    [`${n}`]): the decimal digits, with a leading minus sign below zero.
    The values met here are far below the 1e21 from which JavaScript
    switches to exponent notation. *)
Definition numberToString (n : Z) : string :=
  NilEmpty.string_of_int (Z.to_int n).

End Js.

(** ** [frontend/src/lib/api.ts]: [uploadVideo] *)

(** The name under which [uploadVideo] sends the file, for the file name
    [name] and the value [timestamp] of [Date.now()]. *)
Definition fileExtension (name : string) : string := Js.pop (Js.split "." name).

Definition fileNameWithoutExt (name : string) : string := Js.removeExtension name.

Definition newFileName (name : string) (timestamp : Z) : string :=
  fileNameWithoutExt name ++ "_" ++ Js.numberToString timestamp ++ "." ++ fileExtension name.

(** ** [ProcessingPage]: [getShareableId] *)

Definition getShareableId (filename : string) : string :=
  Js.encodeURIComponent (Js.removeExtension filename).

(** ** [ProcessingPage]: data *)

Inductive Status := waiting | processing | completed | error.

Definition Status_eqb (a b : Status) : bool :=
  match a, b with
  | waiting, waiting | processing, processing
  | completed, completed | error, error => true
  | _, _ => false
  end.

Record ProcessingStep := mkStep {
  id : string;
  name : string;
  status : Status;
  progress : Z }.

(** The values of the state variables of one render. *)
Record PageState := mkPage {
  currentStepIndex : nat;
  isProcessingStarted : bool;
  isBrollProcessing : bool;
  steps : list ProcessingStep }.

(** The initial values given to [useState]. *)
Definition initialSteps : list ProcessingStep :=
  [ mkStep "upload" "Video Upload" completed 100;
    mkStep "transcription" "Generating Transcription" processing 0;
    mkStep "captions" "Creating Captions" waiting 0;
    mkStep "broll" "Finding B-Roll Footage" waiting 0;
    mkStep "rendering" "Rendering Final Video" waiting 0 ].

Definition initialPage : PageState := mkPage 0 false false initialSteps.

(** [newSteps[i].status = st; newSteps[i].progress = pr] and
    [newSteps[i].progress = pr].  The list always holds five steps and the
    indices written are 1 to 4, so the write is always in range. *)
Definition assign (st : Status) (pr : Z) (s : ProcessingStep) : ProcessingStep :=
  mkStep (id s) (name s) st pr.

Definition assignProgress (pr : Z) (s : ProcessingStep) : ProcessingStep :=
  mkStep (id s) (name s) (status s) pr.

Definition setStep (i : nat) (st : Status) (pr : Z) (l : list ProcessingStep) :=
  alter (assign st pr) i l.

Definition setProgress (i : nat) (pr : Z) (l : list ProcessingStep) :=
  alter (assignProgress pr) i l.

(** The overall-progress effect:
    [Math.round(steps.reduce((sum, step) => sum + step.progress, 0) / steps.length)].
    [Math.round x] is [floor (x + 1/2)]. *)
Definition totalProgress (l : list ProcessingStep) : Z :=
  fold_left (fun sum step => sum + progress step) l 0.

Definition overallProgress (l : list ProcessingStep) : Z :=
  let n := Z.of_nat (length l) in
  (2 * totalProgress l + n) / (2 * n).

(** ** The adapters of [api.ts], as seen by the page *)

(** What [getTranscript] resolves with: any JSON value.  [text] is the
    [text] property of a value that is neither a string nor [null]. *)
Inductive TextField :=
| TextFalsy                    (* undefined, null, 0, false *)
| TextString (s : string)
| TextOther.                   (* a truthy value that is not a string *)

Inductive Transcript :=
| TString (s : string)
| TNull
| TValue (text : TextField) (json : string).   (* json: JSON.stringify(transcript) *)

Record FinalVideoData := mkFinal {
  share_id : option string;
  final_video_url : option string }.

(** What [getFinalVideoUrl] resolves with: [null], of which no property can
    be read, or any other JSON value, of which the page reads [share_id]
    and [final_video_url] (both missing from a value that is not an
    object). *)
Inductive FinalVideoResponse :=
| FinalNull
| FinalValue (data : FinalVideoData).

Inductive Api :=
| GenerateCaptions (filename : string)
| GetTranscript (filename : string)
| GetBRoll (prompt : string)
| GenerateFinalVideo (filename : string)
| GetFinalVideoUrl (filename : string).

(** The outcome of every adapter call: [None] and [false] are a rejected
    promise.  The polls are numbered by the attempt counter of the caller. *)
Record Env := mkEnv {
  generateCaptions : string -> bool;
  getTranscript : string -> nat -> option Transcript;
  getBRoll : string -> bool;
  generateFinalVideo : string -> bool;
  getFinalVideoUrl : string -> nat -> option FinalVideoResponse }.

Inductive Callback := CheckTranscriptStatus | CheckFinalVideoStatus.

(** What a run does, in order. *)
Inductive Event :=
| Invoke (a : Api)
| Resolved (a : Api)
| Rejected (a : Api)
| Toast (title description : string)
| SetSteps (l : list ProcessingStep)
| SetCurrentStepIndex (i : nat)
| SetIsProcessingStarted (b : bool)
| SetIsBrollProcessing (b : bool)
| Navigate (path : string) (delay : Z)
| SetTimeout (cb : Callback) (delay : Z).

(** ** Actions: state passing with a log; [None] is a run cut short by the
    recursion bound of the model. *)

Definition Act := PageState -> option (PageState * list Event).

Definition skip : Act := fun p => Some (p, []).

Definition emit (e : Event) : Act := fun p => Some (p, [e]).

Definition andThen (a b : Act) : Act := fun p =>
  match a p with
  | None => None
  | Some (p1, t1) =>
      match b p1 with
      | None => None
      | Some (p2, t2) => Some (p2, t1 ++ t2)
      end
  end.

Declare Scope act_scope.
Delimit Scope act_scope with act.
Bind Scope act_scope with Act.
Notation "a ;; b" := (andThen a b) (at level 100, b at level 200, right associativity) : act_scope.
Open Scope act_scope.

(** The state setters of [useState].  React queues an updater function and
    applies it, with the others of the same tick, to the latest state when
    the page renders next.  The state passed along here is the state with
    every updater queued so far applied: it is what the next updater is
    given, and what the page holds once it has rendered; what the page
    displays of it, and when, is [displayed] below. *)
Definition withSteps (p : PageState) (l : list ProcessingStep) : PageState :=
  mkPage (currentStepIndex p) (isProcessingStarted p) (isBrollProcessing p) l.

Definition withIndex (p : PageState) (i : nat) : PageState :=
  mkPage i (isProcessingStarted p) (isBrollProcessing p) (steps p).

Definition withStarted (p : PageState) (b : bool) : PageState :=
  mkPage (currentStepIndex p) b (isBrollProcessing p) (steps p).

Definition withBroll (p : PageState) (b : bool) : PageState :=
  mkPage (currentStepIndex p) (isProcessingStarted p) b (steps p).

Definition setSteps (f : list ProcessingStep -> list ProcessingStep) : Act := fun p =>
  Some (withSteps p (f (steps p)), [SetSteps (f (steps p))]).

Definition setCurrentStepIndex (i : nat) : Act := fun p =>
  Some (withIndex p i, [SetCurrentStepIndex i]).

Definition setIsProcessingStarted (b : bool) : Act := fun p =>
  Some (withStarted p b, [SetIsProcessingStarted b]).

Definition setIsBrollProcessing (b : bool) : Act := fun p =>
  Some (withBroll p b, [SetIsBrollProcessing b]).

(** ** [ProcessingPage]: the effect *)

Definition maxAttempts : nat := 20.
Definition maxFinalVideoAttempts : nat := 30.

(** [typeof transcript === 'string' ? transcript
      : transcript.text || JSON.stringify(transcript).slice(0, 100)],
    followed by the use of [transcriptText.split]: [None] is the TypeError
    of reading [text] off [null] or of calling [split] on a non-string. *)
Definition transcriptText (transcript : Transcript) : option string :=
  match transcript with
  | TString s => Some s
  | TNull => None
  | TValue (TextString EmptyString) json => Some (Js.slice0 100 json)
  | TValue (TextString s) _ => Some s
  | TValue TextFalsy json => Some (Js.slice0 100 json)
  | TValue TextOther _ => None
  end.

Definition brollTemplate : string := "High quality visual scene representing: ".

Definition brollExcerpt (transcriptText : string) : string :=
  Js.first (Js.split "." transcriptText).

Definition brollPrompt (transcriptText : string) : string :=
  brollTemplate ++ brollExcerpt transcriptText.

(** [Math.min(10 + (attempts * 5), 95)] *)
Definition transcriptProgress (attempts : nat) : Z :=
  Z.min (10 + Z.of_nat attempts * 5) 95.

(** [Math.min(10 + Math.floor((finalVideoAttempts / maxFinalVideoAttempts) * 85), 95)].
    For the attempts 0 to 30 the double-precision quotient and product give
    the same floor as the exact quotient used here. *)
Definition renderingProgress (finalVideoAttempts : nat) : Z :=
  Z.min (10 + (Z.of_nat finalVideoAttempts * 85) / Z.of_nat maxFinalVideoAttempts) 95.

(** [shareId || getShareableId(filename)] *)
Definition videoIdOf (filename : string) (finalVideoData : FinalVideoData) : string :=
  match share_id finalVideoData with
  | None | Some EmptyString => getShareableId filename
  | Some shareId => shareId
  end.

Definition previewPath (videoId : string) : string := "/preview/" ++ videoId.

(** The toasts of the page (all of the destructive variant). *)
Definition toastNoFilename : Event :=
  Toast "Processing error" "No video filename provided. Please upload a video first.".

Definition toastTranscriptWarning : Event :=
  Toast "Transcript Processing Warning"
    "Taking longer than expected to process the transcript. Continuing with limited functionality.".

Definition toastRenderingWarning : Event :=
  Toast "Rendering Warning"
    "Taking longer than expected to render the video. You can still preview the result.".

Definition toastRenderingError (withBRoll : bool) : Event :=
  Toast "Rendering Error"
    (if withBRoll
     then "Failed to start final video generation. You can still preview the original video."
     else "Failed to generate final video. You can still preview the original.").

Definition toastProcessingError : Event :=
  Toast "Processing error" "Failed to start caption generation. Please try again.".

Section Effect.

(** The oracle, and what the closure of the effect captured at its render. *)
Variable env : Env.
Variable filename : string.
Variable render : PageState.

(** A timer callback is run as what follows the setting of the timer.
    [fuel] bounds the rounds of a polling closure in the model; a closure is
    started with one round more than its budget, which is always enough
    ([run_outcome] below). *)

(** The page has two textually equal copies of this closure, one in each
    branch of the B-roll step. *)
Fixpoint checkFinalVideoStatus (fuel finalVideoAttempts : nat) : Act :=
  match fuel with
  | O => fun _ => None
  | S fuel' =>
      if (maxFinalVideoAttempts <=? finalVideoAttempts)%nat then
        emit toastRenderingWarning ;;
        setSteps (setStep 4 completed 100) ;;
        emit (Navigate (previewPath (getShareableId filename)) 0)
      else
        let finalVideoAttempts := S finalVideoAttempts in
        (* catch (e): "Final video not ready yet, will retry..." *)
        let retry :=
          setSteps (setProgress 4 (renderingProgress finalVideoAttempts)) ;;
          emit (SetTimeout CheckFinalVideoStatus 3000) ;;
          checkFinalVideoStatus fuel' finalVideoAttempts in
        emit (Invoke (GetFinalVideoUrl filename)) ;;
        match getFinalVideoUrl env filename finalVideoAttempts with
        | Some response =>
            emit (Resolved (GetFinalVideoUrl filename)) ;;
            setSteps (setStep 4 completed 100) ;;
            match response with
            | FinalValue finalVideoData =>
                emit (Navigate (previewPath (videoIdOf filename finalVideoData)) 1000)
            | FinalNull =>
                (* [finalVideoData.share_id] throws a TypeError *)
                retry
            end
        | None => emit (Rejected (GetFinalVideoUrl filename)) ;; retry
        end
  end.

(** The call of [generateFinalVideo] and what follows it; [withBRoll] tells
    the two copies apart (they differ in the text of one toast). *)
Definition startFinalVideo (withBRoll : bool) : Act :=
  emit (Invoke (GenerateFinalVideo filename)) ;;
  if generateFinalVideo env filename then
    emit (Resolved (GenerateFinalVideo filename)) ;;
    checkFinalVideoStatus (S maxFinalVideoAttempts) 0
  else
    emit (Rejected (GenerateFinalVideo filename)) ;;
    emit (toastRenderingError withBRoll) ;;
    setSteps (setStep 4 error 100) ;;
    emit (Navigate (previewPath (getShareableId filename)) 1500).

Fixpoint checkTranscriptStatus (fuel attempts : nat) : Act :=
  match fuel with
  | O => fun _ => None
  | S fuel' =>
      if (maxAttempts <=? attempts)%nat then
        emit toastTranscriptWarning ;;
        setSteps (fun prevSteps =>
                    setStep 4 processing 0
                      (setStep 3 completed 100
                         (setStep 2 completed 100
                            (setStep 1 completed 100 prevSteps)))) ;;
        setCurrentStepIndex 4
      else
        let attempts := S attempts in
        (* catch (e): "Transcript not ready yet, will retry..." *)
        let retry :=
          setSteps (setProgress 1 (transcriptProgress attempts)) ;;
          emit (SetTimeout CheckTranscriptStatus 3000) ;;
          checkTranscriptStatus fuel' attempts in
        emit (Invoke (GetTranscript filename)) ;;
        match getTranscript env filename attempts with
        | None => emit (Rejected (GetTranscript filename)) ;; retry
        | Some transcript =>
            emit (Resolved (GetTranscript filename)) ;;
            setSteps (fun prevSteps =>
                        setStep 3 processing 0
                          (setStep 2 completed 100
                             (setStep 1 completed 100 prevSteps))) ;;
            setCurrentStepIndex 3 ;;
            if isBrollProcessing render then skip
            else
              setIsBrollProcessing true ;;
              match transcriptText transcript with
              | None => retry
              | Some text =>
                  emit (Invoke (GetBRoll (brollPrompt text))) ;;
                  if getBRoll env (brollPrompt text) then
                    emit (Resolved (GetBRoll (brollPrompt text))) ;;
                    setSteps (fun prevSteps =>
                                setStep 4 processing 10 (setStep 3 completed 100 prevSteps)) ;;
                    setCurrentStepIndex 4 ;;
                    startFinalVideo true
                  else
                    emit (Rejected (GetBRoll (brollPrompt text))) ;;
                    setSteps (fun prevSteps =>
                                setStep 4 processing 10 (setStep 3 error 100 prevSteps)) ;;
                    setCurrentStepIndex 4 ;;
                    startFinalVideo false
              end
        end
  end.

Definition initiateProcessing : Act :=
  if isProcessingStarted render then skip
  else
    setIsProcessingStarted true ;;
    emit (Invoke (GenerateCaptions filename)) ;;
    if generateCaptions env filename then
      emit (Resolved (GenerateCaptions filename)) ;;
      checkTranscriptStatus (S maxAttempts) 0
    else
      emit (Rejected (GenerateCaptions filename)) ;;
      emit toastProcessingError.

End Effect.

(** The body of the effect for the [filename] of the route state ([None]
    for [null]); [!filename] also holds of the empty string. *)
Definition processEffect (env : Env) (filename : option string) (render : PageState) : Act :=
  match filename with
  | None | Some EmptyString =>
      emit toastNoFilename ;;
      emit (Navigate "/create" 0)
  | Some f => initiateProcessing env f render
  end.

(** One run of the effect from a render: the closure captures the state of
    that render, and its setters act on that state. *)
Definition runEffect (env : Env) (filename : option string) (render : PageState) :=
  processEffect env filename render render.

(** ** Vocabulary of the properties *)

(** *** Strings *)

(** [c] does not occur in [s]. *)
Definition freeOf (c : ascii) (s : string) : bool :=
  Js.all (fun a => negb (Ascii.eqb a c)) s.

(** The segments joined with the separator between them ([Array.prototype.join]). *)
Fixpoint join (sep : ascii) (l : list string) : string :=
  match l with
  | [] => EmptyString
  | [x] => x
  | x :: rest => (x ++ String sep (join sep rest))%string
  end.

(** [n] copies of a character ([String.prototype.repeat]). *)
Fixpoint repeatChar (c : ascii) (n : nat) : string :=
  match n with
  | O => EmptyString
  | S n' => String c (repeatChar c n')
  end.

(** Reading one encoded code unit back from the front of a string: the
    inverse of [Js.encodeChar], used to show that [encodeURIComponent]
    loses nothing. *)
Definition hexValue (c : ascii) : N :=
  let n := N_of_ascii c in
  if (n <? 58)%N then (n - 48)%N else (n - 55)%N.

Definition decodeHead (s : string) : option (ascii * string) :=
  match s with
  | EmptyString => None
  | String "%" (String h1 (String h2 rest)) =>
      let b := (16 * hexValue h1 + hexValue h2)%N in
      if (b <? 128)%N then Some (ascii_of_N b, rest)
      else match rest with
           | String "%" (String h3 (String h4 rest')) =>
               let b' := (16 * hexValue h3 + hexValue h4)%N in
               Some (ascii_of_N ((b - 192) * 64 + (b' - 128)), rest')
           | _ => None
           end
  | String c rest => Some (c, rest)
  end.

(** *** Step lists *)

(** The page's step list read in the vocabulary of the pipeline: the job
    has failed when a step without which there is no deliverable
    (transcription, captions, rendering) shows an error; an error of the
    B-roll step alone is the degraded mode. *)
Inductive Stage :=
| Uploaded | Transcribing | Captioning | GeneratingBRoll | Compositing | Completed | Failed.

Definition hasStatus (i : nat) (st : Status) (l : list ProcessingStep) : bool :=
  match l !! i with
  | Some s => Status_eqb (status s) st
  | None => false
  end.

Definition stageOf (l : list ProcessingStep) : Stage :=
  if hasStatus 1 error l || hasStatus 2 error l || hasStatus 4 error l then Failed
  else if hasStatus 4 completed l then Completed
  else if hasStatus 4 processing l then Compositing
  else if hasStatus 3 processing l then GeneratingBRoll
  else if hasStatus 2 processing l then Captioning
  else if hasStatus 1 processing l then Transcribing
  else Uploaded.

Definition degraded (l : list ProcessingStep) : bool := hasStatus 3 error l.

(** The progress of step [i], when the list has one. *)
Definition progressAt (i : nat) (l : list ProcessingStep) : option Z :=
  progress <$> l !! i.

(** Some step shows an error. *)
Definition anyError (l : list ProcessingStep) : bool :=
  existsb (fun s => Status_eqb (status s) error) l.

(** A step list has a step, and every progress value in it lies between 0
    and 100. *)
Definition stepsInRange (l : list ProcessingStep) : bool :=
  negb (length l =? 0)%nat
  && forallb (fun s => (0 <=? progress s) && (progress s <=? 100)) l.

(** *** Logs *)

(** Events of a log by kind. *)
Definition isGenerateCaptions (a : Api) : bool :=
  match a with GenerateCaptions _ => true | _ => false end.
Definition isGetTranscript (a : Api) : bool :=
  match a with GetTranscript _ => true | _ => false end.
Definition isGetBRoll (a : Api) : bool :=
  match a with GetBRoll _ => true | _ => false end.
Definition isGenerateFinalVideo (a : Api) : bool :=
  match a with GenerateFinalVideo _ => true | _ => false end.
Definition isGetFinalVideoUrl (a : Api) : bool :=
  match a with GetFinalVideoUrl _ => true | _ => false end.

(** Adapter calls of the stages after transcription. *)
Definition laterStage (a : Api) : bool :=
  isGetBRoll a || isGenerateFinalVideo a || isGetFinalVideoUrl a.

Definition invokes (f : Api -> bool) (e : Event) : bool :=
  match e with Invoke a => f a | _ => false end.

Definition resolves (f : Api -> bool) (e : Event) : bool :=
  match e with Resolved a => f a | _ => false end.

Definition settles (f : Api -> bool) (e : Event) : bool :=
  match e with Resolved a | Rejected a => f a | _ => false end.

Definition isNavigate (e : Event) : bool :=
  match e with Navigate _ _ => true | _ => false end.

(** How many adapter calls of a kind a log holds. *)
Definition invocations (f : Api -> bool) (t : list Event) : nat :=
  length (filter (fun e => invokes f e = true) t).

(** The delays of the timers set, in order. *)
Fixpoint timerDelays (t : list Event) : list Z :=
  match t with
  | [] => []
  | SetTimeout _ d :: t' => d :: timerDelays t'
  | _ :: t' => timerDelays t'
  end.

(** The step lists the updaters handed to [setSteps] return, in order. *)
Fixpoint shownSteps (t : list Event) : list (list ProcessingStep) :=
  match t with
  | [] => []
  | SetSteps l :: t' => l :: shownSteps t'
  | _ :: t' => shownSteps t'
  end.

(** The targets of the navigations of a log, in order. *)
Fixpoint navigations (t : list Event) : list string :=
  match t with
  | [] => []
  | Navigate path _ :: t' => path :: navigations t'
  | _ :: t' => navigations t'
  end.

(** What the page displays.  React applies the updaters queued in one tick
    together, when the tick is over: at an [await] (the call is made, and
    the page renders before the call settles), after a timer is set (its
    callback runs in a later tick) and when the function returns.  Of the
    step lists of one tick the page shows the last one only.  A [navigate]
    made in the tick itself ([Navigate] with the delay 0) unmounts the page
    before it renders: what the tick queued is never shown, and nothing
    after it. *)
Definition flush (pending : option (list ProcessingStep)) : list (list ProcessingStep) :=
  match pending with
  | Some l => [l]
  | None => []
  end.

Fixpoint displayedFrom (pending : option (list ProcessingStep)) (t : list Event)
    : list (list ProcessingStep) :=
  match t with
  | [] => flush pending
  | SetSteps l :: t' => displayedFrom (Some l) t'
  | Invoke _ :: t' | SetTimeout _ _ :: t' => flush pending ++ displayedFrom None t'
  | Navigate _ d :: t' =>
      if d =? 0 then [] else flush pending ++ displayedFrom None t'
  | _ :: t' => displayedFrom pending t'
  end.

Definition displayed (t : list Event) : list (list ProcessingStep) :=
  displayedFrom None t.

(** In a log, no event of kind [later] comes before the first event of
    kind [earlier]; [seen] tells whether one has come already. *)
Fixpoint guarded (earlier later : Event -> bool) (seen : bool) (t : list Event) : bool :=
  match t with
  | [] => true
  | e :: t' =>
      (if later e then seen else true)
      && guarded earlier later (seen || earlier e) t'
  end.

(** A result with more events in front. *)
Definition prefixed (es : list Event) (r : option (PageState * list Event)) :=
  match r with
  | Some (p, t) => Some (p, es ++ t)
  | None => None
  end.

(** *** The rounds of the two pollings *)

(** The step lists written by [checkTranscriptStatus]. *)
Definition stepsRetry (a : nat) (l : list ProcessingStep) :=
  setProgress 1 (transcriptProgress (S a)) l.

Definition stepsReady (l : list ProcessingStep) :=
  setStep 3 processing 0 (setStep 2 completed 100 (setStep 1 completed 100 l)).

Definition stepsSkipped (l : list ProcessingStep) :=
  setStep 4 processing 0
    (setStep 3 completed 100 (setStep 2 completed 100 (setStep 1 completed 100 l))).

Definition stepsAfterBRoll (ok : bool) (l : list ProcessingStep) :=
  setStep 4 processing 10 (setStep 3 (if ok then completed else error) 100 l).

(** The events of the polling rounds of [checkFinalVideoStatus] before its
    last write, and those of [checkTranscriptStatus] before the B-roll call. *)
Definition finalPollEvent (e : Event) : bool :=
  match e with
  | Invoke a | Resolved a | Rejected a => isGetFinalVideoUrl a
  | Toast _ _ | SetSteps _ => true
  | SetTimeout CheckFinalVideoStatus d => d =? 3000
  | _ => false
  end.

Definition transcriptPollEvent (e : Event) : bool :=
  match e with
  | Invoke a | Resolved a | Rejected a => isGetTranscript a
  | SetSteps _ | SetCurrentStepIndex _ | SetIsBrollProcessing _ => true
  | SetTimeout CheckTranscriptStatus d => d =? 3000
  | _ => false
  end.

(** A poll of the transcript that does not lead to the B-roll call: the
    promise is rejected, or the value has no text to derive a prompt from. *)
Definition unusable (r : option Transcript) : Prop :=
  match r with
  | None => True
  | Some transcript => transcriptText transcript = None
  end.

(** A poll of the final video that does not end the polling: the promise
    is rejected, or it resolves with [null]. *)
Definition notReady (r : option FinalVideoResponse) : Prop :=
  match r with
  | None | Some FinalNull => True
  | Some (FinalValue _) => False
  end.

(** ** The outcomes of a run

    Every run of [initiateProcessing] that passes the first guard has one
    of five forms.  [flag] is the value of [isBrollProcessing] captured by
    the closure and [l0] the step list the run starts from. *)
Section Outcomes.

Variable env : Env.
Variable filename : string.
Variable flag : bool.
Variable l0 : list ProcessingStep.

(** The rounds of the transcript polling, before what ends them. *)
Definition transcriptRounds (pre : list Event) : Prop :=
  forallb transcriptPollEvent pre = true
  /\ (stepsInRange l0 = true -> forallb stepsInRange (shownSteps pre) = true).

(** [k] is the first poll whose transcript has a usable text. *)
Definition firstUsable (k : nat) (transcript : Transcript) (text : string) : Prop :=
  (1 <= k <= maxAttempts)%nat
  /\ (forall j, (1 <= j < k)%nat -> unusable (getTranscript env filename j))
  /\ getTranscript env filename k = Some transcript
  /\ transcriptText transcript = Some text.

(** [k] is the first poll of the final video that resolves with a value. *)
Definition firstReady (k : nat) (data : FinalVideoData) : Prop :=
  (1 <= k <= maxFinalVideoAttempts)%nat
  /\ (forall j, (1 <= j < k)%nat -> notReady (getFinalVideoUrl env filename j))
  /\ getFinalVideoUrl env filename k = Some (FinalValue data).

(** The events of the B-roll step for the transcript text [text]. *)
Definition brollEvents (text : string) : list Event :=
  [Invoke (GetBRoll (brollPrompt text));
   (if getBRoll env (brollPrompt text)
    then Resolved (GetBRoll (brollPrompt text))
    else Rejected (GetBRoll (brollPrompt text)));
   SetSteps (stepsAfterBRoll (getBRoll env (brollPrompt text)) (stepsReady l0));
   SetCurrentStepIndex 4].

(** The rounds of the final-video polling, and how they end. *)
Definition finalRounds (l : list ProcessingStep) (pre : list Event) (path : string) (d : Z) : Prop :=
  forallb finalPollEvent pre = true
  /\ (stepsInRange l = true -> forallb stepsInRange (shownSteps pre) = true)
  /\ ((exists k data,
         (1 <= k <= maxFinalVideoAttempts)%nat
         /\ (forall j, (1 <= j < k)%nat -> notReady (getFinalVideoUrl env filename j))
         /\ getFinalVideoUrl env filename k = Some (FinalValue data)
         /\ path = previewPath (videoIdOf filename data) /\ d = 1000
         /\ invocations isGetFinalVideoUrl pre = k
         /\ ~ In toastRenderingWarning pre)
      \/ ((forall j, (1 <= j <= maxFinalVideoAttempts)%nat ->
             notReady (getFinalVideoUrl env filename j))
          /\ path = previewPath (getShareableId filename) /\ d = 0
          /\ invocations isGetFinalVideoUrl pre = maxFinalVideoAttempts
          /\ In toastRenderingWarning pre)).

Inductive RunOutcome : PageState -> list Event -> Prop :=
| CaptionsRejected p' :
    generateCaptions env filename = false ->
    steps p' = l0 ->
    RunOutcome p'
      [SetIsProcessingStarted true; Invoke (GenerateCaptions filename);
       Rejected (GenerateCaptions filename); toastProcessingError]
| TranscriptExhausted p' pre :
    generateCaptions env filename = true ->
    transcriptRounds pre ->
    (forall j, (1 <= j <= maxAttempts)%nat ->
       if flag then getTranscript env filename j = None
       else unusable (getTranscript env filename j)) ->
    invocations isGetTranscript pre = maxAttempts ->
    steps p' = stepsSkipped l0 ->
    currentStepIndex p' = 4%nat ->
    RunOutcome p'
      ([SetIsProcessingStarted true; Invoke (GenerateCaptions filename);
        Resolved (GenerateCaptions filename)]
       ++ pre
       ++ [toastTranscriptWarning; SetSteps (stepsSkipped l0); SetCurrentStepIndex 4])
| StoppedByFlag p' pre :
    generateCaptions env filename = true ->
    flag = true ->
    transcriptRounds pre ->
    existsb (resolves isGetTranscript) pre = true ->
    steps p' = stepsReady l0 ->
    RunOutcome p'
      ([SetIsProcessingStarted true; Invoke (GenerateCaptions filename);
        Resolved (GenerateCaptions filename)]
       ++ pre)
| RenderRejected p' pre k transcript text :
    generateCaptions env filename = true ->
    flag = false ->
    transcriptRounds pre ->
    existsb (resolves isGetTranscript) pre = true ->
    invocations isGetTranscript pre = k ->
    firstUsable k transcript text ->
    generateFinalVideo env filename = false ->
    steps p' = setStep 4 error 100
                 (stepsAfterBRoll (getBRoll env (brollPrompt text)) (stepsReady l0)) ->
    RunOutcome p'
      ([SetIsProcessingStarted true; Invoke (GenerateCaptions filename);
        Resolved (GenerateCaptions filename)]
       ++ pre ++ brollEvents text
       ++ [Invoke (GenerateFinalVideo filename); Rejected (GenerateFinalVideo filename);
           toastRenderingError (getBRoll env (brollPrompt text));
           SetSteps (setStep 4 error 100
                       (stepsAfterBRoll (getBRoll env (brollPrompt text)) (stepsReady l0)));
           Navigate (previewPath (getShareableId filename)) 1500])
| RenderPolled p' pre k transcript text pre' path d :
    generateCaptions env filename = true ->
    flag = false ->
    transcriptRounds pre ->
    existsb (resolves isGetTranscript) pre = true ->
    invocations isGetTranscript pre = k ->
    firstUsable k transcript text ->
    generateFinalVideo env filename = true ->
    finalRounds (stepsAfterBRoll (getBRoll env (brollPrompt text)) (stepsReady l0))
      pre' path d ->
    steps p' = setStep 4 completed 100
                 (stepsAfterBRoll (getBRoll env (brollPrompt text)) (stepsReady l0)) ->
    RunOutcome p'
      ([SetIsProcessingStarted true; Invoke (GenerateCaptions filename);
        Resolved (GenerateCaptions filename)]
       ++ pre ++ brollEvents text
       ++ [Invoke (GenerateFinalVideo filename); Resolved (GenerateFinalVideo filename)]
       ++ pre'
       ++ [SetSteps (setStep 4 completed 100
                       (stepsAfterBRoll (getBRoll env (brollPrompt text)) (stepsReady l0)));
           Navigate path d]).

End Outcomes.

(** ** Sample oracles *)

(** An oracle under which captions start and the transcript never comes. *)
Definition envTranscriptNever : Env :=
  mkEnv (fun _ => true) (fun _ _ => None) (fun _ => true) (fun _ => true) (fun _ _ => None).

(** An oracle under which everything succeeds at once, except that the
    final video never comes. *)
Definition envFinalNever : Env :=
  mkEnv (fun _ => true) (fun _ _ => Some (TString "A day at the beach. We swim."))
    (fun _ => true) (fun _ => true) (fun _ _ => None).

(** An oracle under which every call succeeds at once. *)
Definition envAllReady : Env :=
  mkEnv (fun _ => true) (fun _ _ => Some (TString "A day at the beach. We swim."))
    (fun _ => true) (fun _ => true)
    (fun _ _ => Some (FinalValue (mkFinal (Some "b7c1f0") (Some "/api/final/clip_final.mp4")))).

(** An oracle under which the B-roll call alone is rejected, and the final
    video comes without a [share_id]. *)
Definition envBRollRejected : Env :=
  mkEnv (fun _ => true) (fun _ _ => Some (TString "A day at the beach. We swim."))
    (fun _ => false) (fun _ => true)
    (fun _ _ => Some (FinalValue (mkFinal None (Some "/api/final/clip_final.mp4")))).

(** An oracle under which the B-roll call and the start of the rendering
    are both rejected. *)
Definition envBRollAndRenderRejected : Env :=
  mkEnv (fun _ => true) (fun _ _ => Some (TString "A day at the beach. We swim."))
    (fun _ => false) (fun _ => false) (fun _ _ => None).

(** An oracle under which every poll of the final video resolves with
    [null]. *)
Definition envFinalNull : Env :=
  mkEnv (fun _ => true) (fun _ _ => Some (TString "A day at the beach. We swim."))
    (fun _ => true) (fun _ => true) (fun _ _ => Some FinalNull).


(** ** The claims, as they are stated *)

(** C1 as stated: when no poll of the transcript succeeds within the
    budget, the job is failed with an error on record, and no later stage
    runs. *)
Definition exhaustionFails (env : Env) (filename : string) : Prop :=
  generateCaptions env filename = true ->
  (forall k, (1 <= k <= maxAttempts)%nat -> getTranscript env filename k = None) ->
  exists p t,
    initiateProcessing env filename initialPage initialPage = Some (p, t)
    /\ stageOf (steps p) = Failed
    /\ anyError (steps p) = true
    /\ invocations laterStage t = 0%nat.

(** C2 as stated: when the B-roll call made for the first usable transcript
    is rejected, the job goes on to the rendering and ends completed, not
    failed: the page calls [generateFinalVideo], some step list it is given
    is completed and none is failed. *)
Definition brollFailureCompletes (env : Env) (filename : string) : Prop :=
  generateCaptions env filename = true ->
  forall k transcript text,
    firstUsable env filename k transcript text ->
    getBRoll env (brollPrompt text) = false ->
    exists p t,
      initiateProcessing env filename initialPage initialPage = Some (p, t)
      /\ In (Invoke (GenerateFinalVideo filename)) t
      /\ (exists l, In l (shownSteps t) /\ stageOf l = Completed)
      /\ (forall l, In l (shownSteps t) -> stageOf l <> Failed).

(** C3 as stated: when the rendering has started and none of the 30 polls
    of the final video succeeds, the job ends failed: some step list the
    page is given is failed. *)
Definition renderExhaustionFails (env : Env) (filename : string) : Prop :=
  (forall k, (1 <= k <= maxFinalVideoAttempts)%nat ->
     notReady (getFinalVideoUrl env filename k)) ->
  forall p t,
    initiateProcessing env filename initialPage initialPage = Some (p, t) ->
    In (Resolved (GenerateFinalVideo filename)) t ->
    exists l, In l (shownSteps t) /\ stageOf l = Failed.

(** C4 as stated: the effect of one render run twice in a row (the second
    closure captured the same state as the first, the updates of the first
    not being committed) makes each of the one-off adapter calls once.  The
    two runs share no variable, so the calls they make do not depend on how
    their rounds interleave; they are put one after the other. *)
Definition advanceIdempotent (env : Env) (filename : string) (render : PageState) : Prop :=
  forall p t,
    (initiateProcessing env filename render ;; initiateProcessing env filename render) render
    = Some (p, t) ->
    invocations isGenerateCaptions t = 1%nat
    /\ (invocations isGetBRoll t <= 1)%nat
    /\ (invocations isGenerateFinalVideo t <= 1)%nat.

(** The reading of C5's bound: some number limits the length of every
    excerpt the page can derive. *)
Definition excerptBounded : Prop :=
  exists N : nat, forall transcript text,
    transcriptText transcript = Some text ->
    (String.length (brollExcerpt text) <= N)%nat.




(** * More of the front end *)

(** ** More JavaScript string primitives *)

Module Js2.

(** [s.startsWith(prefix)] *)
Fixpoint startsWith (prefix s : string) : bool :=
  match prefix, s with
  | EmptyString, _ => true
  | String a prefix', String b s' => Ascii.eqb a b && startsWith prefix' s'
  | String _ _, EmptyString => false
  end.

(** [s.includes(needle)]: [needle] starts at some position of [s]. *)
Fixpoint includes (needle s : string) : bool :=
  startsWith needle s
  || match s with
     | EmptyString => false
     | String _ s' => includes needle s'
     end.

(** [s.padStart(n, fill)] for a one-character [fill]. *)
Definition padStart (n : nat) (fill : ascii) (s : string) : string :=
  (repeatChar fill (n - String.length s) ++ s)%string.

(** The value of a hexadecimal digit, in either case. *)
Definition hexDigitValue (c : ascii) : option N :=
  let n := N_of_ascii c in
  if (48 <=? n)%N && (n <=? 57)%N then Some (n - 48)%N
  else if (65 <=? n)%N && (n <=? 70)%N then Some (n - 55)%N
  else if (97 <=? n)%N && (n <=? 102)%N then Some (n - 87)%N
  else None.

(** What [decodeURIComponent] gives: a string, a URIError, or a result that
    has a code unit from 256 on (or a longer escape sequence), about which
    this model of strings says nothing. *)
Inductive Decoded :=
| DecodedTo (s : string)
| URIError
| BeyondLatin1.

Definition decodedCons (c : ascii) (r : Decoded) : Decoded :=
  match r with
  | DecodedTo s => DecodedTo (String c s)
  | _ => r
  end.

(** [decodeURIComponent]: a character other than [%] stands for itself; a
    [%] needs two hexadecimal digits after it; a byte below 128 is its
    character; the bytes C2 and C3 start the two-byte UTF-8 form of a code
    unit from 128 to 255 and need an escaped continuation byte (80 to BF)
    after them; the bytes 80 to C1 cannot start a character. *)
Fixpoint decodeURIComponent (s : string) : Decoded :=
  match s with
  | EmptyString => DecodedTo EmptyString
  | String c rest =>
      if Ascii.eqb c "%" then
        match rest with
        | String h1 (String h2 rest1) =>
            match hexDigitValue h1, hexDigitValue h2 with
            | Some a, Some b =>
                let byte := (16 * a + b)%N in
                if (byte <? 128)%N then decodedCons (ascii_of_N byte) (decodeURIComponent rest1)
                else if (byte <? 194)%N then URIError
                else if (byte <? 196)%N then
                  match rest1 with
                  | String p (String h3 (String h4 rest2)) =>
                      if Ascii.eqb p "%" then
                        match hexDigitValue h3, hexDigitValue h4 with
                        | Some a', Some b' =>
                            let byte' := (16 * a' + b')%N in
                            if (128 <=? byte')%N && (byte' <? 192)%N then
                              decodedCons (ascii_of_N ((byte - 192) * 64 + (byte' - 128)))
                                (decodeURIComponent rest2)
                            else URIError
                        | _, _ => URIError
                        end
                      else URIError
                  | _ => URIError
                  end
                else BeyondLatin1
            | _, _ => URIError
            end
        | _ => URIError
        end
      else decodedCons c (decodeURIComponent rest)
  end.

End Js2.

(** ** [frontend/src/lib/api.ts]: the request URLs and [uploadRecordedVideo] *)

Definition videoByShareIdUrl (shareId : string) : string :=
  "/api/video/" ++ Js.encodeURIComponent shareId.

Definition finalVideoByShareIdUrl (shareId : string) : string :=
  "/api/final_video_by_share/" ++ Js.encodeURIComponent shareId.

Definition generateCaptionsUrl (filename : string) : string :=
  "/api/generate_captions?filename=" ++ Js.encodeURIComponent filename.

Definition transcriptUrl (filename : string) : string :=
  "/api/transcript/" ++ Js.encodeURIComponent filename.

Definition generateFinalVideoUrl (filename : string) : string :=
  "/api/generate_final_video?filename=" ++ Js.encodeURIComponent filename.

Definition finalVideoUrl (filename : string) : string :=
  "/api/final_video/" ++ Js.encodeURIComponent filename.

(** [filename || `recording_${Date.now()}.webm`], the name of the [File]
    that [uploadRecordedVideo] hands to [uploadVideo]; [now] is the clock
    at that moment. *)
Definition recordedFileName (filename : option string) (now : Z) : string :=
  match filename with
  | None | Some EmptyString => "recording_" ++ Js.numberToString now ++ ".webm"
  | Some f => f
  end.

(** The name under which a recording is stored: [uploadVideo] reads the
    clock again, at [later]. *)
Definition uploadRecordedName (filename : option string) (now later : Z) : string :=
  newFileName (recordedFileName filename now) later.

(** [Record.tsx], [handleUpload]: the name it passes to
    [uploadRecordedVideo], from [new Date().getTime()]. *)
Definition recordingName (timestamp : Z) : string :=
  "recording_" ++ Js.numberToString timestamp ++ ".webm".

(** ** [frontend/src/pages/Preview.tsx]: the legacy file name *)

(** [useParams().videoId]: react-router hands the page the path segment of
    the location decoded.  [None] is a segment that does not decode to a
    string of this model. *)
Definition routeParam (segment : string) : option string :=
  match Js2.decodeURIComponent segment with
  | Js2.DecodedTo videoId => Some videoId
  | _ => None
  end.

(** [`${decodeURIComponent(videoIdFromURL)}.webm`], the file name the first
    effect falls back to when the video is not found by its share id. *)
Definition legacyFilename (videoIdFromURL : string) : Js2.Decoded :=
  match Js2.decodeURIComponent videoIdFromURL with
  | Js2.DecodedTo decodedVideoId => Js2.DecodedTo (decodedVideoId ++ ".webm")
  | other => other
  end.

(** ** Vocabulary of the further properties *)

(** Every character of [s] satisfies [Js.unreserved]. *)
Definition allUnreserved (s : string) : bool := Js.all Js.unreserved s.

(** The characters an encoded component is made of: the unreserved ones,
    the percent sign and the upper-case hexadecimal digits. *)
Definition encodedChar (c : ascii) : bool :=
  Js.unreserved c || Ascii.eqb c "%".

(** How often [c] occurs in [s]. *)
Fixpoint countChar (c : ascii) (s : string) : nat :=
  match s with
  | EmptyString => 0
  | String a s' => (if Ascii.eqb a c then 1 else 0) + countChar c s'
  end.

(** The same adapter call. *)
Definition Api_eqb (a b : Api) : bool :=
  match a, b with
  | GenerateCaptions x, GenerateCaptions y
  | GetTranscript x, GetTranscript y
  | GetBRoll x, GetBRoll y
  | GenerateFinalVideo x, GenerateFinalVideo y
  | GetFinalVideoUrl x, GetFinalVideoUrl y => String.eqb x y
  | _, _ => false
  end.

(** A log in which the calls are made one at a time: the event after a
    call is the settling of that call, and nothing settles that was not
    just called.  [pending] is the call that has not settled yet. *)
Fixpoint sequentialCalls (pending : option Api) (t : list Event) : bool :=
  match t with
  | [] => match pending with None => true | Some _ => false end
  | e :: t' =>
      match pending, e with
      | Some a, (Resolved b | Rejected b) => Api_eqb a b && sequentialCalls None t'
      | Some _, _ => false
      | None, Invoke a => sequentialCalls (Some a) t'
      | None, (Resolved _ | Rejected _) => false
      | None, _ => sequentialCalls None t'
      end
  end.

(** The time spent waiting on timers: the sum of their delays. *)
Definition waited (t : list Event) : Z := fold_right Z.add 0 (timerDelays t).

(** All the adapter calls of a log. *)
Definition calls (t : list Event) : nat := invocations (fun _ => true) t.

(** ** The pages that upload: [Upload.tsx], [CreateVideo], [Record.tsx] *)

(** JavaScript truthiness of a value that is a string, [null] or
    [undefined]. *)
Definition truthy (s : option string) : bool :=
  match s with
  | Some (String _ _) => true
  | _ => false
  end.

(** A [File]: its name and its MIME type. *)
Record File := mkFile {
  fileName : string;
  fileType : string }.

(** What the pages read of the body [uploadVideo] resolves with: whether
    [success] is truthy, and the [filename] field, taken to be a string
    when it is there. *)
Record UploadResponse := mkUploadResponse {
  response_success : bool;
  response_filename : option string }.

(** How the call of [uploadVideo] settles: rejected, resolved with [null],
    or resolved with a body. *)
Inductive UploadOutcome :=
| UploadRejected
| UploadResolvedNull
| UploadResolved (response : UploadResponse).

(** [location.state] as handed to [navigate("/processing", { state })]. *)
Record RouteState := mkRouteState {
  videoName : string;
  stateFilename : option string;
  aspectRatio : option string }.

Inductive UploadEvent :=
| SetIsDragging (b : bool)
| SetSelectedFile (f : option File)
| SetIsUploading (b : bool)
| UploadVideo (f : File)
| UploadRecordedVideo (blobType filename : string)
| UploadToast (title description : string)
| NavigateProcessing (state : RouteState).

Definition toastInvalidFileType : UploadEvent :=
  UploadToast "Invalid file type" "Please upload a video file".

Definition toastUploadSuccessful : UploadEvent :=
  UploadToast "Upload successful!" "Your video has been uploaded. Processing will begin now.".

Definition toastUploadFailed : UploadEvent :=
  UploadToast "Upload failed" "There was an error uploading your video. Please try again.".

(** [files.length > 0 && files[0].type.startsWith('video/')] *)
Definition videoFile (f : File) : bool := Js2.startsWith "video/" (fileType f).

Definition acceptedFile (files : list File) : option File :=
  match files with
  | f :: _ => if videoFile f then Some f else None
  | [] => None
  end.

(** The handlers that [Upload.tsx] and [CreateVideo] have word for word. *)
Definition handleDragOver : list UploadEvent := [SetIsDragging true].

Definition handleDragLeave : list UploadEvent := [SetIsDragging false].

Definition handleDrop (files : list File) : list UploadEvent :=
  SetIsDragging false ::
  match acceptedFile files with
  | Some f => [SetSelectedFile (Some f)]
  | None => [toastInvalidFileType]
  end.

(** [e.target.files] may be [null]. *)
Definition handleFileChange (files : option (list File)) : list UploadEvent :=
  match files with
  | Some l =>
      match acceptedFile l with
      | Some f => [SetSelectedFile (Some f)]
      | None => [toastInvalidFileType]
      end
  | None => [toastInvalidFileType]
  end.

(** [handleUpload] up to its [await], and from there: the [try] block
    after the call has settled, the [catch] and the [finally].  The pages
    differ in the test [accepts] they make of the response. *)
Definition startUpload (selectedFile : option File) : list UploadEvent :=
  match selectedFile with
  | None => []
  | Some f => [SetIsUploading true; UploadVideo f]
  end.

Definition settleUpload (accepts : UploadResponse -> bool)
    (file : File) (outcome : UploadOutcome) : list UploadEvent :=
  match outcome with
  | UploadResolved response =>
      if accepts response
      then [toastUploadSuccessful;
            NavigateProcessing
              (mkRouteState (fileName file) (response_filename response) None)]
      else [toastUploadFailed]
  | UploadRejected | UploadResolvedNull => [toastUploadFailed]
  end ++ [SetIsUploading false].

Definition handleUploadWith (accepts : UploadResponse -> bool)
    (selectedFile : option File) (outcome : UploadOutcome) : list UploadEvent :=
  match selectedFile with
  | None => []
  | Some f => startUpload selectedFile ++ settleUpload accepts f outcome
  end.

Module UploadPage.

(** [response && response.filename] *)
Definition accepts (response : UploadResponse) : bool :=
  truthy (response_filename response).

Definition handleUpload := handleUploadWith accepts.

End UploadPage.

Module CreateVideo.

(** [response.success]; of [null] the property read throws, which the
    [catch] treats as any other failure. *)
Definition accepts (response : UploadResponse) : bool := response_success response.

Definition handleUpload := handleUploadWith accepts.

End CreateVideo.

Module RecordPage.

(** [handleUpload] of the recorder: [recordedBlob] is the type of the
    recorded blob ([None] for [null]), [timestamp] is
    [new Date().getTime()] and [selectedAspectRatio] the name of the
    chosen preset.  [isUploading] is reset in the [catch] only. *)
Definition handleUpload (recordedBlob : option string) (timestamp : Z)
    (selectedAspectRatio : string) (outcome : UploadOutcome) : list UploadEvent :=
  match recordedBlob with
  | None => []
  | Some blobType =>
      [SetIsUploading true; UploadRecordedVideo blobType (recordingName timestamp)]
      ++ match outcome with
         | UploadResolved response =>
             if truthy (response_filename response)
             then [NavigateProcessing
                     (mkRouteState "Webcam Recording" (response_filename response)
                        (Some selectedAspectRatio))]
             else [toastUploadFailed; SetIsUploading false]
         | UploadRejected | UploadResolvedNull => [toastUploadFailed; SetIsUploading false]
         end
  end.

(** [formatTime]: [Math.floor(seconds / 60)] and [seconds % 60], each
    padded to two digits.  [seconds] is the whole number of seconds the
    timer has counted; [%] takes the sign of the dividend. *)
Definition formatTime (seconds : Z) : string :=
  let mins := seconds / 60 in
  let secs := Z.rem seconds 60 in
  (Js2.padStart 2 "0" (Js.numberToString mins) ++ ":"
   ++ Js2.padStart 2 "0" (Js.numberToString secs))%string.

End RecordPage.

(** *** The upload page as the user drives it *)

(** The state of [Upload.tsx] and of the upload tab of [CreateVideo];
    [inFlight] is the file captured by the call of [handleUpload] that is
    waiting for [uploadVideo]. *)
Record UploadPageState := mkUploadPageState {
  isDragging : bool;
  selectedFile : option File;
  isUploading : bool;
  inFlight : option File }.

Definition initialUploadPage : UploadPageState :=
  mkUploadPageState false None false None.

(** What the user and the network can do to the page.  The page is
    rendered again between two of them. *)
Inductive UploadAction :=
| DragOver
| DragLeave
| Drop (files : list File)
| FileChange (files : option (list File))
| ChangeFile
| ClickUpload
| UploadSettles (outcome : UploadOutcome).

Definition applyUploadEvent (s : UploadPageState) (e : UploadEvent) : UploadPageState :=
  match e with
  | SetIsDragging b => mkUploadPageState b (selectedFile s) (isUploading s) (inFlight s)
  | SetSelectedFile f => mkUploadPageState (isDragging s) f (isUploading s) (inFlight s)
  | SetIsUploading b => mkUploadPageState (isDragging s) (selectedFile s) b (inFlight s)
  | _ => s
  end.

Definition withInFlight (f : option File) (s : UploadPageState) : UploadPageState :=
  mkUploadPageState (isDragging s) (selectedFile s) (isUploading s) f.

(** The events of one action.  The file input is rendered only while no
    file is selected and the [Change File] button only while one is; the
    upload button is [disabled={!selectedFile || isUploading}]. *)
Definition uploadActionEvents (accepts : UploadResponse -> bool)
    (s : UploadPageState) (a : UploadAction) : list UploadEvent :=
  match a with
  | DragOver => handleDragOver
  | DragLeave => handleDragLeave
  | Drop files => handleDrop files
  | FileChange files =>
      match selectedFile s with
      | None => handleFileChange files
      | Some _ => []
      end
  | ChangeFile =>
      match selectedFile s with
      | None => []
      | Some _ => [SetSelectedFile None]
      end
  | ClickUpload =>
      if isUploading s then [] else startUpload (selectedFile s)
  | UploadSettles outcome =>
      match inFlight s with
      | None => []
      | Some f => settleUpload accepts f outcome
      end
  end.

Definition uploadStep (accepts : UploadResponse -> bool)
    (s : UploadPageState) (a : UploadAction) : UploadPageState * list UploadEvent :=
  let t := uploadActionEvents accepts s a in
  let s' := fold_left applyUploadEvent t s in
  let s'' :=
    match a with
    | ClickUpload => if isUploading s then s' else withInFlight (selectedFile s) s'
    | UploadSettles _ => withInFlight None s'
    | _ => s'
    end in
  (s'', t).

Definition isNavigateProcessing (e : UploadEvent) : bool :=
  match e with NavigateProcessing _ => true | _ => false end.

(** A visit of the page: it ends with the navigation. *)
Fixpoint uploadSession (accepts : UploadResponse -> bool)
    (s : UploadPageState) (actions : list UploadAction) : list UploadEvent :=
  match actions with
  | [] => []
  | a :: rest =>
      let '(s', t) := uploadStep accepts s a in
      if existsb isNavigateProcessing t then t
      else t ++ uploadSession accepts s' rest
  end.

(** In a log, no upload starts while another has not settled yet (every
    settling ends with [setIsUploading(false)]), and every file uploaded
    has a video type. *)
Fixpoint videoUploadsInTurn (busy : bool) (t : list UploadEvent) : bool :=
  match t with
  | [] => true
  | UploadVideo f :: t' => negb busy && videoFile f && videoUploadsInTurn true t'
  | SetIsUploading false :: t' => videoUploadsInTurn false t'
  | _ :: t' => videoUploadsInTurn busy t'
  end.

Definition navigationsToProcessing (t : list UploadEvent) : list RouteState :=
  flat_map (fun e => match e with NavigateProcessing st => [st] | _ => [] end) t.

(** ** [frontend/src/pages/Preview.tsx] *)

(** A value that is a string, [null] or [undefined]. *)
Inductive JsString :=
| JsNull
| JsUndefined
| JsStr (s : string).

Definition truthyJs (v : JsString) : bool :=
  match v with
  | JsStr (String _ _) => true
  | _ => false
  end.

(** [String(v)], as [encodeURIComponent] and template literals apply it. *)
Definition toStringJs (v : JsString) : string :=
  match v with
  | JsNull => "null"
  | JsUndefined => "undefined"
  | JsStr s => s
  end.

Module PreviewPage.

(** The state variables the logic of the page reads. *)
Record State := mkState {
  filename : JsString;
  finalVideoUrl : option string;
  videoUrl : option string;
  isProcessedVideo : bool;
  isLoading : bool;
  shareId : option string }.

(** [useState] at the first render, from the route state and the URL
    parameter: [shareId] starts as [videoIdFromURL || null]. *)
Definition initialState (videoIdFromURL : option string)
    (stateFilename : JsString) (stateFinalVideoUrl : option string) : State :=
  mkState stateFilename stateFinalVideoUrl None false false
    (if truthy videoIdFromURL then videoIdFromURL else None).

Inductive PreviewEvent :=
| SetFilename (v : JsString)
| SetFinalVideoUrl (url : string)
| SetVideoUrl (url : string)
| SetIsProcessedVideo (b : bool)
| SetIsLoading (b : bool)
| SetShareId (id : string)
| PreviewToast (title description : string)
| Fetch (url : string)
| Download (href download : string)
| WriteClipboard (text : string)
| WindowOpen (url : string).

Definition applyEvent (st : State) (e : PreviewEvent) : State :=
  match e with
  | SetFilename v =>
      mkState v (finalVideoUrl st) (videoUrl st) (isProcessedVideo st) (isLoading st) (shareId st)
  | SetFinalVideoUrl url =>
      mkState (filename st) (Some url) (videoUrl st) (isProcessedVideo st) (isLoading st)
        (shareId st)
  | SetVideoUrl url =>
      mkState (filename st) (finalVideoUrl st) (Some url) (isProcessedVideo st) (isLoading st)
        (shareId st)
  | SetIsProcessedVideo b =>
      mkState (filename st) (finalVideoUrl st) (videoUrl st) b (isLoading st) (shareId st)
  | SetIsLoading b =>
      mkState (filename st) (finalVideoUrl st) (videoUrl st) (isProcessedVideo st) b (shareId st)
  | SetShareId id =>
      mkState (filename st) (finalVideoUrl st) (videoUrl st) (isProcessedVideo st)
        (isLoading st) (Some id)
  | _ => st
  end.

Definition applyEvents (st : State) (t : list PreviewEvent) : State :=
  fold_left applyEvent t st.

Definition toastProcessingInProgress : PreviewEvent :=
  PreviewToast "Processing in progress"
    "This video is still being processed. Please check back later.".

Definition toastVideoNotFound : PreviewEvent :=
  PreviewToast "Video not found"
    "The requested video could not be found or is still processing.".

Definition toastUsingOriginal : PreviewEvent :=
  PreviewToast "Using original video"
    "The enhanced video is not available yet. Showing original video instead.".

Definition toastNoFilename : PreviewEvent :=
  PreviewToast "Error" "No video filename provided. Please upload a video first.".

Definition toastNoVideoToDownload : PreviewEvent :=
  PreviewToast "Error" "No video available to download.".

Definition toastDownloadStarted : PreviewEvent :=
  PreviewToast "Download started" "Your video will be downloaded shortly.".

Definition toastNoVideoToShare : PreviewEvent :=
  PreviewToast "Error" "No video available to share.".

Definition toastLinkCopied : PreviewEvent :=
  PreviewToast "Link copied" "Shareable link copied to clipboard".

(** *** The first effect *)

(** What [getVideoByShareId] resolves with, as far as the effect reads it. *)
Record VideoData := mkVideoData {
  data_filename : JsString;
  has_final_video : bool;
  final_video_url : option string;
  status : option string }.

(** The legacy request: rejected (also for a response that is not [ok]),
    or the [status] and [final_video_url] of its body. *)
Inductive LegacyOutcome :=
| LegacyRejected
| LegacyResolved (status final_video_url : option string).

Definition statusIs (expected : string) (status : option string) : bool :=
  match status with
  | Some s => String.eqb s expected
  | None => false
  end.

(** [fetch(`/api/final_video/${encodeURIComponent(filenameWithExt)}`)] *)
Definition legacyUrl (filenameWithExt : string) : string :=
  ("/api/final_video/" ++ Js.encodeURIComponent filenameWithExt)%string.

(** The promise chain of the effect.  The [catch] handler starts the
    legacy request without returning its promise, so [finally] runs
    before that request settles; a [decodeURIComponent] that throws ends
    the handler there.  [None]: the decoded identifier has a character
    outside the strings of this model. *)
Definition firstEffect (videoIdFromURL : option string) (st : State)
    (byShareId : option VideoData) (legacy : LegacyOutcome) : option (list PreviewEvent) :=
  match videoIdFromURL with
  | Some (String _ _ as id) =>
      if truthyJs (filename st) then Some []
      else
        let start := [SetIsLoading true; Fetch (videoByShareIdUrl id)] in
        match byShareId with
        | Some videoData =>
            Some (start
                  ++ [SetFilename (data_filename videoData)]
                  ++ (if has_final_video videoData && truthy (final_video_url videoData)
                      then match final_video_url videoData with
                           | Some url => [SetFinalVideoUrl url]
                           | None => []
                           end
                      else if statusIs "rendering" (status videoData)
                           then [toastProcessingInProgress]
                           else [])
                  ++ [SetIsLoading false])
        | None =>
            match legacyFilename id with
            | Js2.DecodedTo filenameWithExt =>
                Some (start
                      ++ [SetFilename (JsStr filenameWithExt);
                          Fetch (legacyUrl filenameWithExt);
                          SetIsLoading false]
                      ++ match legacy with
                         | LegacyResolved status (Some (String _ _ as url)) =>
                             if statusIs "completed" status
                             then [SetFinalVideoUrl url]
                             else [toastProcessingInProgress]
                         | LegacyResolved _ _ => [toastProcessingInProgress]
                         | LegacyRejected => [toastVideoNotFound]
                         end)
            | Js2.URIError => Some (start ++ [SetIsLoading false])
            | Js2.BeyondLatin1 => None
            end
        end
  | _ => Some []
  end.

(** *** The second effect *)

Definition uploadsUrl (filename : string) : string :=
  ("/api/uploads/" ++ Js.encodeURIComponent filename)%string.

Definition secondEffect (videoIdFromURL : option string) (st : State) : list PreviewEvent :=
  match finalVideoUrl st with
  | Some (String _ _ as url) => [SetVideoUrl url; SetIsProcessedVideo true]
  | _ =>
      match filename st with
      | JsStr (String _ _ as f) => [SetVideoUrl (uploadsUrl f); toastUsingOriginal]
      | _ =>
          if negb (isLoading st) && negb (truthy videoIdFromURL)
          then [toastNoFilename]
          else []
      end
  end.

(** *** [getShareIdFromFilename] *)

(** [info] is the [share_id] of the body when the request resolved with
    an [ok] response whose body could be read; in every other case the
    function falls back to the identifier made from the file name. *)
Definition getShareIdFromFilename (videoFilename : string) (info : option string)
    : list PreviewEvent * string :=
  let request := Fetch (uploadsUrl videoFilename ++ "/info")%string in
  match info with
  | Some (String _ _ as share_id) => ([request; SetShareId share_id], share_id)
  | _ => ([request], Js.encodeURIComponent (Js.removeExtension videoFilename))
  end.

(** [let idForSharing = shareId; if (!idForSharing) idForSharing = await
    getShareIdFromFilename(filename)], for a truthy [filename]. *)
Definition idForSharing (st : State) (f : string) (info : option string)
    : list PreviewEvent * string :=
  match shareId st with
  | Some (String _ _ as id) => ([], id)
  | _ => getShareIdFromFilename f info
  end.

(** *** [handleDownload] *)

Definition cloudflareHost : string := "pub-f7fdd9a323df414ba0d52f4474f6f12f.r2.dev".

(** [a.download] *)
Definition downloadName (st : State) : string :=
  if negb (isProcessedVideo st)
  then (if truthyJs (filename st) then toStringJs (filename st) else "clipso-video.webm")
  else ("clipso_enhanced_"
        ++ match filename st with
           | JsStr f =>
               match Js.removeExtension f with
               | EmptyString => "video"
               | stem => stem
               end
           | _ => "video"
           end
        ++ ".mp4")%string.

(** The requests made on the way, and [downloadUrl]. *)
Definition downloadUrl (st : State) (url : string) (info : option string)
    : list PreviewEvent * string :=
  let isCloudflareUrl := Js2.includes cloudflareHost url in
  if isProcessedVideo st && isCloudflareUrl then
    let '(t, idForDownload) :=
      match shareId st, filename st with
      | Some (String _ _ as id), _ => ([], Some id)
      | _, JsStr (String _ _ as f) =>
          let '(t, id) := getShareIdFromFilename f info in (t, Some id)
      | _, _ => ([], None)
      end in
    (t,
     match idForDownload with
     | Some (String _ _ as id) =>
         ("/api/stream_by_share/" ++ Js.encodeURIComponent id ++ "?download=true")%string
     | _ =>
         ("/api/stream_final_video/" ++ Js.encodeURIComponent (toStringJs (filename st))
          ++ "?download=true")%string
     end)
  else if Js2.startsWith "/api/" url then
    ([], if Js2.includes "?" url
         then (url ++ "&download=true")%string
         else (url ++ "?download=true")%string)
  else ([], url).

Definition handleDownload (st : State) (info : option string) : list PreviewEvent :=
  match videoUrl st with
  | Some (String _ _ as url) =>
      let '(t, href) := downloadUrl st url info in
      t ++ [Download href (downloadName st); toastDownloadStarted]
  | _ => [toastNoVideoToDownload]
  end.

(** *** Sharing *)

(** [`${window.location.origin}/preview/${idForSharing}`] *)
Definition shareableLink (origin id : string) : string :=
  (origin ++ "/preview/" ++ id)%string.

Definition handleCopyLink (origin : string) (st : State) (info : option string)
    : list PreviewEvent :=
  match filename st with
  | JsStr (String _ _ as f) =>
      let '(t, id) := idForSharing st f info in
      t ++ [WriteClipboard (shareableLink origin id); toastLinkCopied]
  | _ => [toastNoVideoToShare]
  end.

Definition newline : string := String (ascii_of_nat 10) EmptyString.

Definition whatsappUrl (link : string) : string :=
  ("https://wa.me/?text="
   ++ Js.encodeURIComponent ("Check this video made on Clipso" ++ newline ++ link))%string.

Definition twitterUrl (link : string) : string :=
  ("https://twitter.com/intent/tweet?text="
   ++ Js.encodeURIComponent "Check this video made on Clipso"
   ++ "&url=" ++ Js.encodeURIComponent link)%string.

(** The two share buttons; they do nothing without a file name. *)
Definition shareWith (target : string -> string) (origin : string) (st : State)
    (info : option string) : list PreviewEvent :=
  match filename st with
  | JsStr (String _ _ as f) =>
      let '(t, id) := idForSharing st f info in
      t ++ [WindowOpen (target (shareableLink origin id))]
  | _ => []
  end.

Definition shareOnWhatsApp := shareWith whatsappUrl.

Definition shareOnTwitter := shareWith twitterUrl.

End PreviewPage.

(** The links a log of the preview page has given out, and what it has
    downloaded. *)
Definition downloads (t : list PreviewPage.PreviewEvent) : list (string * string) :=
  flat_map (fun e => match e with
                     | PreviewPage.Download href name => [(href, name)]
                     | _ => []
                     end) t.

(** Reading a decimal numeral, leading zeros allowed, and reading the text
    of the recording timer back: the minutes and the seconds around the
    colon. *)
Definition readNumber (s : string) : option Z :=
  option_map Z.of_int (NilEmpty.int_of_string s).

Definition readTime (text : string) : option Z :=
  match Js.split ":" text with
  | [mins; secs] =>
      match readNumber mins, readNumber secs with
      | Some m, Some s => Some (60 * m + s)
      | _, _ => None
      end
  | _ => None
  end.

(** The identifiers and names of a step list, in order. *)
Definition labels (l : list ProcessingStep) : list (string * string) :=
  map (fun s => (id s, name s)) l.

(** Where a shown step list may have an error, given the log of the run:
    never at the upload, transcription and captions steps; at the B-roll
    step only after a rejected B-roll call, at the rendering step only
    after a rejected start of the rendering. *)
Definition errorsExplained (filename : string) (t : list Event)
    (l : list ProcessingStep) : Prop :=
  hasStatus 0 error l = false
  /\ hasStatus 1 error l = false
  /\ hasStatus 2 error l = false
  /\ (hasStatus 3 error l = true -> exists prompt, In (Rejected (GetBRoll prompt)) t)
  /\ (hasStatus 4 error l = true -> In (Rejected (GenerateFinalVideo filename)) t).

(** No step of [l2] has less progress than the same step of [l1]; and the
    step lists shown one after the other, from [l] on, never take a step
    back. *)
Fixpoint noStepBack (l1 l2 : list ProcessingStep) : bool :=
  match l1, l2 with
  | [], [] => true
  | s1 :: r1, s2 :: r2 => (progress s1 <=? progress s2) && noStepBack r1 r2
  | _, _ => false
  end.

Fixpoint advancing (l : list ProcessingStep) (shown : list (list ProcessingStep)) : bool :=
  match shown with
  | [] => true
  | l' :: rest => noStepBack l l' && advancing l' rest
  end.

(** The five steps of the page, with bounds on the progress of the last
    four. *)
Definition fiveSteps (b1 b2 b3 b4 : Z) (l : list ProcessingStep) : Prop :=
  exists s0 s1 s2 s3 s4,
    l = [s0; s1; s2; s3; s4]
    /\ progress s1 <= b1 /\ progress s2 <= b2 /\ progress s3 <= b3 /\ progress s4 <= b4.

(** ** [Record.tsx]: the countdown before a recording *)

Module RecordCountdown.

Inductive RecorderEvent :=
| SetCountdown (n : Z)
| SetIsRecording (b : bool)
| CountdownTimeout (delay : Z)
| StartRecording.

Definition prepareRecording : list RecorderEvent :=
  [SetCountdown 3; SetIsRecording true].

(** What the effect on [[countdown, isRecording]] does for one render:
    it sets a timer that will write [countdown - 1], or calls
    [startRecording], or does nothing. *)
Inductive CountdownStep :=
| Tick (next : Z)
| Start
| Idle.

Definition countdownEffect (countdown : Z) (isRecording : bool) : CountdownStep :=
  if 0 <? countdown then Tick (countdown - 1)
  else if (countdown =? 0) && isRecording then Start
  else Idle.

(** The effect run again after each write of [countdown], as long as
    nothing else touches its dependencies; [fuel] bounds the renders. *)
Fixpoint countdownRun (fuel : nat) (countdown : Z) (isRecording : bool)
    : option (list RecorderEvent) :=
  match fuel with
  | O => None
  | S fuel' =>
      match countdownEffect countdown isRecording with
      | Tick next =>
          option_map (fun t => CountdownTimeout 1000 :: SetCountdown next :: t)
            (countdownRun fuel' next isRecording)
      | Start => Some [StartRecording]
      | Idle => Some []
      end
  end.

(** The timers of a log and the calls of [startRecording] in it. *)
Definition countdownDelays (t : list RecorderEvent) : list Z :=
  flat_map (fun e => match e with CountdownTimeout d => [d] | _ => [] end) t.

Definition recordingsStarted (t : list RecorderEvent) : nat :=
  length (List.filter (fun e => match e with StartRecording => true | _ => false end) t).

End RecordCountdown.

(** * Properties *)

(** ** Evaluation on sample inputs *)

Example newFileName_ex : newFileName "clip.mp4" 1700000000123 = "clip_1700000000123.mp4".
Proof. reflexivity. Qed.

Example newFileName_nodot : newFileName "clip" 5 = "clip_5.clip".
Proof. reflexivity. Qed.

Example getShareableId_ex : getShareableId "my clip_17.mp4" = "my%20clip_17".
Proof. reflexivity. Qed.

Example getShareableId_latin1 :
  getShareableId (String (ascii_of_N 233) ".mp4") = "%C3%A9".
Proof. reflexivity. Qed.


(** ** Strings *)

Section StringFacts.

Local Open Scope string_scope.

Lemma append_assoc (a b c : string) : (a ++ b) ++ c = a ++ (b ++ c).
Proof. induction a as [|x a IH]; simpl; [reflexivity | now rewrite IH]. Qed.

Lemma append_empty_r (a : string) : a ++ "" = a.
Proof. induction a as [|x a IH]; simpl; [reflexivity | now rewrite IH]. Qed.

Lemma length_append (a b : string) :
  String.length (a ++ b) = (String.length a + String.length b)%nat.
Proof. induction a as [|x a IH]; simpl; [reflexivity | now rewrite IH]. Qed.

Lemma freeOf_append c a b : freeOf c (a ++ b) = freeOf c a && freeOf c b.
Proof.
  unfold freeOf. induction a as [|x a IH]; simpl; [reflexivity|].
  now rewrite IH, andb_assoc.
Qed.

Lemma freeOf_cons_same c a : freeOf c (String c a) = false.
Proof. unfold freeOf. simpl. now rewrite Ascii.eqb_refl. Qed.

Lemma freeOf_inside c a b : freeOf c (a ++ String c b) = false.
Proof. rewrite freeOf_append, freeOf_cons_same. apply andb_false_r. Qed.

(** A string is cut at its last occurrence of [c] in one way only. *)
Lemma cut_last_unique c x1 : forall x2 e1 e2,
  freeOf c e1 = true -> freeOf c e2 = true ->
  x1 ++ String c e1 = x2 ++ String c e2 -> x1 = x2 /\ e1 = e2.
Proof.
  induction x1 as [|a x1 IH]; intros [|b x2] e1 e2 F1 F2 E; simpl in E.
  - injection E as E. now split.
  - injection E as Ea E. subst e1. now rewrite freeOf_inside in F1.
  - injection E as Ea E. subst e2. now rewrite freeOf_inside in F2.
  - injection E as Ea E. destruct (IH _ _ _ F1 F2 E) as [-> ->]. now subst.
Qed.

Lemma all_notSlashDot_free s :
  Js.all Js.notSlashDot s = freeOf "/" s && freeOf "." s.
Proof.
  unfold freeOf. induction s as [|a s IH]; simpl; [reflexivity|].
  rewrite IH. unfold Js.notSlashDot.
  destruct (Ascii.eqb a "/"), (Ascii.eqb a "."); simpl;
    rewrite ?andb_false_r; reflexivity.
Qed.

Lemma extensionTail_spec e :
  Js.extensionTail e = negb (String.eqb e "") && freeOf "/" e && freeOf "." e.
Proof.
  destruct e as [|a e]; [reflexivity|].
  unfold Js.extensionTail. rewrite all_notSlashDot_free.
  now rewrite <- andb_assoc.
Qed.

Lemma extensionTail_inside x e : Js.extensionTail (x ++ String "." e) = false.
Proof.
  rewrite extensionTail_spec, freeOf_inside. apply andb_false_r.
Qed.

(** The regular expression finds nothing in a string without a dot. *)
Lemma removeExtension_nodot s : freeOf "." s = true -> Js.removeExtension s = s.
Proof.
  unfold freeOf. induction s as [|a s IH]; simpl; [reflexivity|].
  intros H. apply andb_prop in H as [Ha Hs].
  destruct (Ascii.eqb a "."); [discriminate|]. simpl. now rewrite IH.
Qed.

(** A last segment made of one or more characters other than [/] and [.]
    is cut off together with its dot. *)
Lemma removeExtension_cut x e :
  Js.extensionTail e = true -> Js.removeExtension (x ++ String "." e) = x.
Proof.
  intros He. induction x as [|a x IH]; simpl.
  - now rewrite He.
  - rewrite extensionTail_inside, andb_false_r. now rewrite IH.
Qed.

(** Any other last segment stays. *)
Lemma removeExtension_keep x e :
  freeOf "." e = true -> Js.extensionTail e = false ->
  Js.removeExtension (x ++ String "." e) = x ++ String "." e.
Proof.
  intros Hf He. induction x as [|a x IH]; simpl.
  - rewrite He. simpl. now rewrite removeExtension_nodot.
  - rewrite extensionTail_inside, andb_false_r. now rewrite IH.
Qed.

(** [split]: the segments have no separator in them, and joining them
    with the separator gives the string back. *)
Lemma split_nonempty sep s : Js.split sep s <> [].
Proof.
  destruct s as [|a s]; simpl; [discriminate|].
  destruct (Ascii.eqb a sep); [discriminate|].
  destruct (Js.split sep s); discriminate.
Qed.

Lemma split_first_free sep s : freeOf sep (Js.first (Js.split sep s)) = true.
Proof.
  unfold freeOf, Js.first. induction s as [|a s IH]; simpl; [reflexivity|].
  destruct (Ascii.eqb a sep) eqn:E; simpl; [reflexivity|].
  destruct (Js.split sep s) as [|seg segs] eqn:Es; simpl in *.
  - now rewrite E.
  - now rewrite E, IH.
Qed.

Lemma split_first_prefix sep s :
  s = Js.first (Js.split sep s)
  \/ exists rest, s = Js.first (Js.split sep s) ++ String sep rest.
Proof.
  unfold Js.first. induction s as [|a s IH]; simpl; [now left|].
  destruct (Ascii.eqb_spec a sep) as [->|Hne]; simpl.
  - right. now exists s.
  - destruct (Js.split sep s) as [|seg segs] eqn:Es; simpl in *.
    + now destruct (split_nonempty sep s).
    + destruct IH as [IH | [rest IH]]; [left | right; exists rest]; now rewrite IH at 1.
Qed.

Lemma join_split sep s : join sep (Js.split sep s) = s.
Proof.
  induction s as [|a s IH]; simpl; [reflexivity|].
  destruct (Ascii.eqb_spec a sep) as [->|Hne].
  - destruct (Js.split sep s) eqn:Es; [now destruct (split_nonempty sep s)|].
    simpl in *. now rewrite IH.
  - destruct (Js.split sep s) as [|seg [|seg' segs]] eqn:Es; simpl in *; now rewrite <- IH.
Qed.

Lemma split_free sep s : List.Forall (fun x => freeOf sep x = true) (Js.split sep s).
Proof.
  induction s as [|a s IH]; simpl; [now repeat constructor|].
  destruct (Ascii.eqb a sep) eqn:E; [now constructor|].
  destruct (Js.split sep s) as [|seg segs]; inversion IH; subst; repeat constructor; auto.
  - unfold freeOf. simpl. now rewrite E.
  - unfold freeOf in *. simpl. now rewrite E.
Qed.

Lemma join_last sep l :
  join sep l = List.last l "" \/ exists front, join sep l = front ++ String sep (List.last l "").
Proof.
  induction l as [|x [|y l] IH]; [now left | now left | right].
  change (List.last (x :: y :: l) "") with (List.last (y :: l) "").
  change (join sep (x :: y :: l)) with (x ++ String sep (join sep (y :: l))).
  destruct IH as [-> | [front ->]]; [now exists x|].
  exists (x ++ String sep front). now rewrite append_assoc.
Qed.

Lemma split_pop_suffix sep s :
  freeOf sep (Js.pop (Js.split sep s)) = true
  /\ (s = Js.pop (Js.split sep s)
      \/ exists front, s = front ++ String sep (Js.pop (Js.split sep s))).
Proof.
  unfold Js.pop. split.
  - pose proof (split_free sep s) as F. pose proof (split_nonempty sep s) as N.
    induction F as [|x [|y l] Hx F IH]; [easy | exact Hx |].
    change (List.last (x :: y :: l) "") with (List.last (y :: l) ""). now apply IH.
  - pose proof (join_last sep (Js.split sep s)) as H. rewrite join_split in H.
    destruct H as [H | [front H]]; [left | right; exists front]; exact H.
Qed.

(** [encodeURIComponent] is one-to-one. *)
Lemma decodeHead_encodeChar c r :
  decodeHead (Js.encodeChar c ++ r) = Some (c, r).
Proof.
  destruct c as [b0 b1 b2 b3 b4 b5 b6 b7].
  destruct b0, b1, b2, b3, b4, b5, b6, b7; reflexivity.
Qed.

Lemma encodeURIComponent_inj s1 : forall s2,
  Js.encodeURIComponent s1 = Js.encodeURIComponent s2 -> s1 = s2.
Proof.
  induction s1 as [|a s1 IH]; intros [|b s2] E; simpl in E.
  - reflexivity.
  - apply (f_equal decodeHead) in E. rewrite decodeHead_encodeChar in E. discriminate.
  - apply (f_equal decodeHead) in E. rewrite decodeHead_encodeChar in E. discriminate.
  - apply (f_equal decodeHead) in E. rewrite !decodeHead_encodeChar in E.
    injection E as -> E. f_equal. now apply IH.
Qed.

(** The decimal form of a number has no underscore and no dot in it, and
    different numbers have different forms. *)
Lemma string_of_uint_free c d :
  (N_of_ascii c <? 48)%N || (57 <? N_of_ascii c)%N = true ->
  freeOf c (NilEmpty.string_of_uint d) = true.
Proof.
  intros Hc. unfold freeOf.
  assert (D : forall k, (48 <=? k)%N && (k <=? 57)%N = true ->
              negb (Ascii.eqb (ascii_of_N k) c) = true).
  { intros k Hk. apply negb_true_iff, Ascii.eqb_neq. intros <-.
    apply andb_prop in Hk as [H1 H2]. apply N.leb_le in H1, H2.
    rewrite N_ascii_embedding in Hc by lia.
    apply orb_prop in Hc as [H | H]; [apply N.ltb_lt in H | apply N.ltb_lt in H]; lia. }
  induction d; simpl; try reflexivity; rewrite IHd, andb_true_r.
  - exact (D 48%N eq_refl).
  - exact (D 49%N eq_refl).
  - exact (D 50%N eq_refl).
  - exact (D 51%N eq_refl).
  - exact (D 52%N eq_refl).
  - exact (D 53%N eq_refl).
  - exact (D 54%N eq_refl).
  - exact (D 55%N eq_refl).
  - exact (D 56%N eq_refl).
  - exact (D 57%N eq_refl).
Qed.



End StringFacts.

(** ** [uploadVideo]: the stored name *)

Section Upload.

Local Open Scope string_scope.

Lemma fileExtension_nodot name : freeOf "." (fileExtension name) = true.
Proof. apply split_pop_suffix. Qed.


(** The stored name, split at its last dot and at its last underscore. *)
Lemma newFileName_at_dot name t :
  newFileName name t
  = (fileNameWithoutExt name ++ String "_" (Js.numberToString t))
      ++ String "." (fileExtension name).
Proof. unfold newFileName. now rewrite append_assoc. Qed.


(** A name with a proper extension: base name, underscore, timestamp, dot,
    extension. *)
Lemma newFileName_with_extension base ext t :
  Js.extensionTail ext = true ->
  newFileName (base ++ "." ++ ext) t = base ++ "_" ++ Js.numberToString t ++ "." ++ ext.
Proof.
  intros He. unfold newFileName, fileNameWithoutExt, fileExtension.
  change (base ++ "." ++ ext) with (base ++ String "." ext).
  rewrite removeExtension_cut by exact He.
  destruct (split_pop_suffix "." (base ++ String "." ext)) as [F [E | [front E]]].
  - rewrite <- E in F. now rewrite freeOf_inside in F.
  - rewrite extensionTail_spec in He. apply andb_prop in He as [_ Hd].
    apply cut_last_unique in E as [_ <-]; auto.
Qed.

(** The identifier derived from a stored name. *)
Lemma getShareableId_newFileName name t :
  getShareableId (newFileName name t)
  = Js.encodeURIComponent
      (if Js.extensionTail (fileExtension name)
       then fileNameWithoutExt name ++ String "_" (Js.numberToString t)
       else newFileName name t).
Proof.
  unfold getShareableId. f_equal.
  destruct (Js.extensionTail (fileExtension name)) eqn:He.
  - rewrite newFileName_at_dot. now apply removeExtension_cut.
  - rewrite newFileName_at_dot.
    apply removeExtension_keep; [apply fileExtension_nodot | exact He].
Qed.




End Upload.

(** ** The B-roll prompt *)

Section Prompt.

Local Open Scope string_scope.

Lemma split_nodot sep s : freeOf sep s = true -> Js.split sep s = [s].
Proof.
  unfold freeOf. induction s as [|a s IH]; simpl; [reflexivity|].
  intros H. apply andb_prop in H as [Ha Hs]. apply negb_true_iff in Ha.
  now rewrite Ha, IH.
Qed.

Lemma repeatChar_free c d n : c <> d -> freeOf d (repeatChar c n) = true.
Proof.
  intros Hne. unfold freeOf. induction n as [|n IH]; simpl; [reflexivity|].
  rewrite IH, andb_true_r. now apply negb_true_iff, Ascii.eqb_neq.
Qed.

Lemma repeatChar_length c n : String.length (repeatChar c n) = n.
Proof. induction n as [|n IH]; simpl; [reflexivity | now rewrite IH]. Qed.

Lemma slice0_length n s : (String.length (Js.slice0 n s) <= n)%nat.
Proof.
  revert s. induction n as [|n IH]; intros [|a s]; simpl; try lia.
  specialize (IH s). lia.
Qed.

Lemma brollExcerpt_prefix text :
  text = brollExcerpt text \/ exists rest, text = brollExcerpt text ++ "." ++ rest.
Proof. apply split_first_prefix. Qed.

Lemma brollExcerpt_length text :
  (String.length (brollExcerpt text) <= String.length text)%nat.
Proof.
  destruct (brollExcerpt_prefix text) as [E | [rest E]]; rewrite E at 2; [lia|].
  rewrite length_append. lia.
Qed.

(** C5, as stated, fails: no number bounds the excerpt, since a transcript
    without a dot is taken whole. *)
Lemma C5_counterexample : ~ excerptBounded.
Proof.
  intros [N H].
  specialize (H (TString (repeatChar "a" (S N))) _ eq_refl).
  unfold brollExcerpt in H.
  rewrite split_nodot in H by (apply repeatChar_free; discriminate).
  unfold Js.first, List.hd in H. rewrite repeatChar_length in H. lia.
Qed.

End Prompt.

(** ** Logs *)

Section Logs.

Lemma shownSteps_app t1 t2 : shownSteps (t1 ++ t2) = shownSteps t1 ++ shownSteps t2.
Proof.
  induction t1 as [|e t1 IH]; [reflexivity|].
  destruct e; simpl; now rewrite IH.
Qed.

Lemma timerDelays_app t1 t2 : timerDelays (t1 ++ t2) = timerDelays t1 ++ timerDelays t2.
Proof.
  induction t1 as [|e t1 IH]; [reflexivity|].
  destruct e; simpl; now rewrite IH.
Qed.

Lemma navigations_app t1 t2 : navigations (t1 ++ t2) = navigations t1 ++ navigations t2.
Proof.
  induction t1 as [|e t1 IH]; [reflexivity|].
  destruct e; simpl; now rewrite IH.
Qed.

Lemma invocations_app f t1 t2 :
  invocations f (t1 ++ t2) = (invocations f t1 + invocations f t2)%nat.
Proof. unfold invocations. now rewrite filter_app, length_app. Qed.

Lemma invocations_cons f e t :
  invocations f (e :: t) = ((if invokes f e then 1 else 0) + invocations f t)%nat.
Proof.
  unfold invocations. simpl. unfold filter at 1. simpl.
  destruct (decide (invokes f e = true)) as [H|H].
  - now rewrite H.
  - apply not_true_is_false in H. now rewrite H.
Qed.

Lemma invocations_nil f : invocations f [] = 0%nat.
Proof. reflexivity. Qed.

Lemma invocations_quiet f t :
  (forall e, In e t -> invokes f e = false) -> invocations f t = 0%nat.
Proof.
  induction t as [|e t IH]; intros H; [reflexivity|].
  rewrite invocations_cons, (H e) by now left.
  apply IH. intros e' He'. apply H. now right.
Qed.

Lemma navigations_quiet t :
  (forall e, In e t -> isNavigate e = false) -> navigations t = [].
Proof.
  induction t as [|e t IH]; intros H; [reflexivity|].
  pose proof (H e (or_introl eq_refl)) as He.
  destruct e; try discriminate; simpl; apply IH; intros e' He'; apply H; now right.
Qed.


Lemma guarded_app E L s t1 t2 :
  guarded E L s (t1 ++ t2)
  = guarded E L s t1 && guarded E L (s || existsb E t1) t2.
Proof.
  revert s. induction t1 as [|e t1 IH]; intros s; simpl.
  - now rewrite orb_false_r.
  - rewrite IH, orb_assoc. now rewrite andb_assoc.
Qed.

Lemma guarded_quiet E L s t :
  (forall e, In e t -> L e = false) -> guarded E L s t = true.
Proof.
  revert s. induction t as [|e t IH]; intros s H; [reflexivity|].
  simpl. rewrite (H e) by now left. simpl. apply IH. intros e' He'. apply H. now right.
Qed.

Lemma guarded_seen E L t : guarded E L true t = true.
Proof.
  induction t as [|e t IH]; [reflexivity|].
  simpl. rewrite IH. now destruct (L e).
Qed.

(** What [guarded] says: an event of the later kind has one of the earlier
    kind before it. *)
Lemma guarded_spec E L t :
  guarded E L false t = true ->
  forall pre e post, t = pre ++ e :: post -> L e = true ->
    exists e', In e' pre /\ E e' = true.
Proof.
  intros H pre e post -> He.
  rewrite guarded_app in H. apply andb_prop in H as [_ H].
  simpl in H. rewrite He in H. simpl in H. apply andb_prop in H as [H _].
  apply existsb_exists in H. exact H.
Qed.

Lemma transcriptPoll_events pre e :
  forallb transcriptPollEvent pre = true -> In e pre -> transcriptPollEvent e = true.
Proof. intros H. now apply forallb_forall. Qed.

Lemma finalPoll_events pre e :
  forallb finalPollEvent pre = true -> In e pre -> finalPollEvent e = true.
Proof. intros H. now apply forallb_forall. Qed.

End Logs.

(** ** The effect, one step at a time *)

Arguments maxAttempts : simpl never.
Arguments maxFinalVideoAttempts : simpl never.

Section Run.

Variable env : Env.
Variable filename : string.
Variable render : PageState.

Local Abbreviation checkFinal := (checkFinalVideoStatus env filename).
Local Abbreviation checkTranscript := (checkTranscriptStatus env filename render).
Local Abbreviation startFinal := (startFinalVideo env filename).

Lemma prefixed_Some es r p t :
  prefixed es r = Some (p, t) <-> exists t', r = Some (p, t') /\ t = es ++ t'.
Proof.
  destruct r as [[p' t']|]; simpl; split.
  - intros [= -> <-]. now exists t'.
  - intros (t'' & [= -> ->] & ->). reflexivity.
  - discriminate.
  - now intros (t'' & [=] & _).
Qed.

(** One round of [checkFinalVideoStatus]. *)
Lemma checkFinal_unroll fuel a p :
  checkFinal (S fuel) a p =
  if (maxFinalVideoAttempts <=? a)%nat then
    Some (withSteps p (setStep 4 completed 100 (steps p)),
          [toastRenderingWarning;
           SetSteps (setStep 4 completed 100 (steps p));
           Navigate (previewPath (getShareableId filename)) 0])
  else
    match getFinalVideoUrl env filename (S a) with
    | Some (FinalValue finalVideoData) =>
        Some (withSteps p (setStep 4 completed 100 (steps p)),
              [Invoke (GetFinalVideoUrl filename);
               Resolved (GetFinalVideoUrl filename);
               SetSteps (setStep 4 completed 100 (steps p));
               Navigate (previewPath (videoIdOf filename finalVideoData)) 1000])
    | Some FinalNull =>
        prefixed
          [Invoke (GetFinalVideoUrl filename);
           Resolved (GetFinalVideoUrl filename);
           SetSteps (setStep 4 completed 100 (steps p));
           SetSteps (setProgress 4 (renderingProgress (S a))
                       (setStep 4 completed 100 (steps p)));
           SetTimeout CheckFinalVideoStatus 3000]
          (checkFinal fuel (S a)
             (withSteps p (setProgress 4 (renderingProgress (S a))
                             (setStep 4 completed 100 (steps p)))))
    | None =>
        prefixed
          [Invoke (GetFinalVideoUrl filename);
           Rejected (GetFinalVideoUrl filename);
           SetSteps (setProgress 4 (renderingProgress (S a)) (steps p));
           SetTimeout CheckFinalVideoStatus 3000]
          (checkFinal fuel (S a)
             (withSteps p (setProgress 4 (renderingProgress (S a)) (steps p))))
    end.
Proof.
  change (checkFinal (S fuel) a p) with
    ((if (maxFinalVideoAttempts <=? a)%nat then
        emit toastRenderingWarning ;;
        setSteps (setStep 4 completed 100) ;;
        emit (Navigate (previewPath (getShareableId filename)) 0)
      else
        emit (Invoke (GetFinalVideoUrl filename)) ;;
        match getFinalVideoUrl env filename (S a) with
        | Some response =>
            emit (Resolved (GetFinalVideoUrl filename)) ;;
            setSteps (setStep 4 completed 100) ;;
            match response with
            | FinalValue finalVideoData =>
                emit (Navigate (previewPath (videoIdOf filename finalVideoData)) 1000)
            | FinalNull =>
                setSteps (setProgress 4 (renderingProgress (S a))) ;;
                emit (SetTimeout CheckFinalVideoStatus 3000) ;;
                checkFinal fuel (S a)
            end
        | None =>
            emit (Rejected (GetFinalVideoUrl filename)) ;;
            setSteps (setProgress 4 (renderingProgress (S a))) ;;
            emit (SetTimeout CheckFinalVideoStatus 3000) ;;
            checkFinal fuel (S a)
        end) p).
  destruct (maxFinalVideoAttempts <=? a)%nat; [reflexivity|].
  destruct (getFinalVideoUrl env filename (S a)) as [[|data]|]; [|reflexivity|].
  - unfold andThen, emit, setSteps, prefixed. cbn [steps withSteps].
    destruct (checkFinal fuel (S a) _) as [[p' t']|]; reflexivity.
  - unfold andThen, emit, setSteps, prefixed.
    destruct (checkFinal fuel (S a) _) as [[p' t']|]; reflexivity.
Qed.

(** [generateFinalVideo] and the start of its polling. *)
Lemma startFinal_unroll withBRoll p :
  startFinal withBRoll p =
  if generateFinalVideo env filename then
    prefixed [Invoke (GenerateFinalVideo filename); Resolved (GenerateFinalVideo filename)]
      (checkFinal (S maxFinalVideoAttempts) 0 p)
  else
    Some (withSteps p (setStep 4 error 100 (steps p)),
          [Invoke (GenerateFinalVideo filename);
           Rejected (GenerateFinalVideo filename);
           toastRenderingError withBRoll;
           SetSteps (setStep 4 error 100 (steps p));
           Navigate (previewPath (getShareableId filename)) 1500]).
Proof.
  unfold startFinalVideo.
  destruct (generateFinalVideo env filename); [|reflexivity].
  unfold andThen, emit, prefixed.
  destruct (checkFinal (S maxFinalVideoAttempts) 0 p) as [[p' t']|]; reflexivity.
Qed.

(** One round of [checkTranscriptStatus]. *)
Lemma checkTranscript_unroll fuel a p :
  checkTranscript (S fuel) a p =
  if (maxAttempts <=? a)%nat then
    Some (withIndex (withSteps p (stepsSkipped (steps p))) 4,
          [toastTranscriptWarning; SetSteps (stepsSkipped (steps p)); SetCurrentStepIndex 4])
  else
    match getTranscript env filename (S a) with
    | None =>
        prefixed
          [Invoke (GetTranscript filename); Rejected (GetTranscript filename);
           SetSteps (stepsRetry a (steps p)); SetTimeout CheckTranscriptStatus 3000]
          (checkTranscript fuel (S a) (withSteps p (stepsRetry a (steps p))))
    | Some transcript =>
        if isBrollProcessing render then
          Some (withIndex (withSteps p (stepsReady (steps p))) 3,
                [Invoke (GetTranscript filename); Resolved (GetTranscript filename);
                 SetSteps (stepsReady (steps p)); SetCurrentStepIndex 3])
        else
          match transcriptText transcript with
          | None =>
              prefixed
                [Invoke (GetTranscript filename); Resolved (GetTranscript filename);
                 SetSteps (stepsReady (steps p)); SetCurrentStepIndex 3;
                 SetIsBrollProcessing true;
                 SetSteps (stepsRetry a (stepsReady (steps p)));
                 SetTimeout CheckTranscriptStatus 3000]
                (checkTranscript fuel (S a)
                   (withSteps
                      (withBroll (withIndex (withSteps p (stepsReady (steps p))) 3) true)
                      (stepsRetry a (stepsReady (steps p)))))
          | Some text =>
              let ok := getBRoll env (brollPrompt text) in
              prefixed
                [Invoke (GetTranscript filename); Resolved (GetTranscript filename);
                 SetSteps (stepsReady (steps p)); SetCurrentStepIndex 3;
                 SetIsBrollProcessing true;
                 Invoke (GetBRoll (brollPrompt text));
                 (if ok then Resolved (GetBRoll (brollPrompt text))
                  else Rejected (GetBRoll (brollPrompt text)));
                 SetSteps (stepsAfterBRoll ok (stepsReady (steps p)));
                 SetCurrentStepIndex 4]
                (startFinal ok
                   (withIndex
                      (withSteps
                         (withBroll (withIndex (withSteps p (stepsReady (steps p))) 3) true)
                         (stepsAfterBRoll ok (stepsReady (steps p))))
                      4))
          end
    end.
Proof.
  change (checkTranscript (S fuel) a p) with
    ((if (maxAttempts <=? a)%nat then
        emit toastTranscriptWarning ;;
        setSteps stepsSkipped ;;
        setCurrentStepIndex 4
      else
        emit (Invoke (GetTranscript filename)) ;;
        match getTranscript env filename (S a) with
        | None =>
            emit (Rejected (GetTranscript filename)) ;;
            setSteps (stepsRetry a) ;;
            emit (SetTimeout CheckTranscriptStatus 3000) ;;
            checkTranscript fuel (S a)
        | Some transcript =>
            emit (Resolved (GetTranscript filename)) ;;
            setSteps stepsReady ;;
            setCurrentStepIndex 3 ;;
            if isBrollProcessing render then skip
            else
              setIsBrollProcessing true ;;
              match transcriptText transcript with
              | None =>
                  setSteps (stepsRetry a) ;;
                  emit (SetTimeout CheckTranscriptStatus 3000) ;;
                  checkTranscript fuel (S a)
              | Some text =>
                  emit (Invoke (GetBRoll (brollPrompt text))) ;;
                  if getBRoll env (brollPrompt text) then
                    emit (Resolved (GetBRoll (brollPrompt text))) ;;
                    setSteps (stepsAfterBRoll true) ;;
                    setCurrentStepIndex 4 ;;
                    startFinal true
                  else
                    emit (Rejected (GetBRoll (brollPrompt text))) ;;
                    setSteps (stepsAfterBRoll false) ;;
                    setCurrentStepIndex 4 ;;
                    startFinal false
              end
        end) p).
  destruct (maxAttempts <=? a)%nat; [reflexivity|].
  destruct (getTranscript env filename (S a)) as [transcript|].
  - destruct (isBrollProcessing render); [reflexivity|].
    destruct (transcriptText transcript) as [text|].
    + cbv zeta.
      destruct (getBRoll env (brollPrompt text));
        unfold andThen, emit, setSteps, setCurrentStepIndex, setIsBrollProcessing, prefixed,
          withSteps, withIndex, withBroll;
        cbn [steps currentStepIndex isProcessingStarted isBrollProcessing];
        match goal with |- context [startFinal ?b ?q] =>
          destruct (startFinal b q) as [[p' t']|] end; reflexivity.
    + unfold andThen, emit, setSteps, setCurrentStepIndex, setIsBrollProcessing, prefixed,
        withSteps, withIndex, withBroll.
      cbn [steps currentStepIndex isProcessingStarted isBrollProcessing].
      match goal with |- context [checkTranscript fuel (S a) ?q] =>
        destruct (checkTranscript fuel (S a) q) as [[p' t']|] end; reflexivity.
  - unfold andThen, emit, setSteps, prefixed, withSteps.
    cbn [steps currentStepIndex isProcessingStarted isBrollProcessing].
    match goal with |- context [checkTranscript fuel (S a) ?q] =>
      destruct (checkTranscript fuel (S a) q) as [[p' t']|] end; reflexivity.
Qed.

(** *** Step lists: later writes to a step hide earlier ones *)

Lemma setStep_setProgress i st pr x l :
  setStep i st pr (setProgress i x l) = setStep i st pr l.
Proof. unfold setStep, setProgress. rewrite list_alter_alter_eq. reflexivity. Qed.

Lemma setStep_setStep i st pr st' pr' l :
  setStep i st pr (setStep i st' pr' l) = setStep i st pr l.
Proof. unfold setStep. rewrite list_alter_alter_eq. reflexivity. Qed.

Lemma stepsReady_retry a l : stepsReady (stepsRetry a l) = stepsReady l.
Proof. unfold stepsReady, stepsRetry. now rewrite setStep_setProgress. Qed.

Lemma stepsSkipped_retry a l : stepsSkipped (stepsRetry a l) = stepsSkipped l.
Proof. unfold stepsSkipped, stepsRetry. now rewrite setStep_setProgress. Qed.

Lemma stepsReady_ready l : stepsReady (stepsReady l) = stepsReady l.
Proof. destruct l as [|s0 [|s1 [|s2 [|s3 l]]]]; reflexivity. Qed.

Lemma stepsSkipped_ready l : stepsSkipped (stepsReady l) = stepsSkipped l.
Proof. destruct l as [|s0 [|s1 [|s2 [|s3 [|s4 l]]]]]; reflexivity. Qed.

Lemma stepsInRange_alter f i l :
  (forall s, (0 <=? progress (f s)) && (progress (f s) <=? 100) = true) ->
  stepsInRange l = true -> stepsInRange (alter f i l) = true.
Proof.
  intros Hf. unfold stepsInRange. rewrite length_alter.
  intros H. apply andb_prop in H as [Hn H]. rewrite Hn. simpl. clear Hn.
  revert i H. induction l as [|s l IH]; intros i H; [reflexivity|].
  simpl in H. apply andb_prop in H as [Hs Hl].
  destruct i as [|i].
  - change (alter f 0%nat (s :: l)) with (f s :: l). simpl. now rewrite Hf, Hl.
  - change (alter f (S i) (s :: l)) with (s :: alter f i l). simpl.
    rewrite Hs. now apply IH.
Qed.

Lemma stepsInRange_setStep i st pr l :
  0 <= pr <= 100 -> stepsInRange l = true -> stepsInRange (setStep i st pr l) = true.
Proof.
  intros Hpr. apply stepsInRange_alter. intros s. simpl.
  apply andb_true_intro. split; [apply Z.leb_le | apply Z.leb_le]; lia.
Qed.

Lemma stepsInRange_setProgress i pr l :
  0 <= pr <= 100 -> stepsInRange l = true -> stepsInRange (setProgress i pr l) = true.
Proof.
  intros Hpr. apply stepsInRange_alter. intros s. simpl.
  apply andb_true_intro. split; [apply Z.leb_le | apply Z.leb_le]; lia.
Qed.

Lemma transcriptProgress_range n : 10 <= transcriptProgress n <= 95.
Proof. unfold transcriptProgress. lia. Qed.

Lemma renderingProgress_range n : 10 <= renderingProgress n <= 95.
Proof.
  unfold renderingProgress.
  assert (0 <= Z.of_nat n * 85 / Z.of_nat maxFinalVideoAttempts).
  { apply Z.div_pos; unfold maxFinalVideoAttempts; lia. }
  lia.
Qed.

(** *** [checkFinalVideoStatus] *)

(** From any page and any number of attempts made, the polling ends: the
    rendering step is written as completed and the page navigates once,
    at the very end; the target comes from the first poll that resolves,
    or from the file name when the budget runs out before. *)
Lemma checkFinal_shape fuel : forall a p,
  (maxFinalVideoAttempts - a < fuel)%nat ->
  exists pre path d,
    checkFinal fuel a p
    = Some (withSteps p (setStep 4 completed 100 (steps p)),
            pre ++ [SetSteps (setStep 4 completed 100 (steps p)); Navigate path d])
    /\ forallb finalPollEvent pre = true
    /\ (stepsInRange (steps p) = true -> forallb stepsInRange (shownSteps pre) = true)
    /\ ((exists k data,
           (a < k <= maxFinalVideoAttempts)%nat
           /\ (forall j, (a < j < k)%nat -> notReady (getFinalVideoUrl env filename j))
           /\ getFinalVideoUrl env filename k = Some (FinalValue data)
           /\ path = previewPath (videoIdOf filename data) /\ d = 1000
           /\ invocations isGetFinalVideoUrl pre = (k - a)%nat
           /\ ~ In toastRenderingWarning pre)
        \/ ((forall j, (a < j <= maxFinalVideoAttempts)%nat ->
               notReady (getFinalVideoUrl env filename j))
            /\ path = previewPath (getShareableId filename) /\ d = 0
            /\ invocations isGetFinalVideoUrl pre = (maxFinalVideoAttempts - a)%nat
            /\ In toastRenderingWarning pre)).
Proof.
  induction fuel as [|fuel IH]; intros a p Hfuel; [lia|].
  rewrite checkFinal_unroll.
  destruct (Nat.leb_spec maxFinalVideoAttempts a) as [Hge | Hlt].
  { exists [toastRenderingWarning], (previewPath (getShareableId filename)), 0.
    repeat split; try reflexivity. right. repeat split.
    + intros j Hj. lia.
    + replace (maxFinalVideoAttempts - a)%nat with 0%nat by lia. reflexivity.
    + now left. }
  assert (Hround : forall front l',
            forallb finalPollEvent front = true ->
            invocations isGetFinalVideoUrl front = 1%nat ->
            ~ In toastRenderingWarning front ->
            notReady (getFinalVideoUrl env filename (S a)) ->
            setStep 4 completed 100 l' = setStep 4 completed 100 (steps p) ->
            (stepsInRange (steps p) = true ->
             forallb stepsInRange (shownSteps front) = true /\ stepsInRange l' = true) ->
            exists pre path d,
              prefixed front (checkFinal fuel (S a) (withSteps p l'))
              = Some (withSteps p (setStep 4 completed 100 (steps p)),
                      pre ++ [SetSteps (setStep 4 completed 100 (steps p)); Navigate path d])
              /\ forallb finalPollEvent pre = true
              /\ (stepsInRange (steps p) = true ->
                  forallb stepsInRange (shownSteps pre) = true)
              /\ ((exists k data,
                     (a < k <= maxFinalVideoAttempts)%nat
                     /\ (forall j, (a < j < k)%nat ->
                           notReady (getFinalVideoUrl env filename j))
                     /\ getFinalVideoUrl env filename k = Some (FinalValue data)
                     /\ path = previewPath (videoIdOf filename data) /\ d = 1000
                     /\ invocations isGetFinalVideoUrl pre = (k - a)%nat
                     /\ ~ In toastRenderingWarning pre)
                  \/ ((forall j, (a < j <= maxFinalVideoAttempts)%nat ->
                         notReady (getFinalVideoUrl env filename j))
                      /\ path = previewPath (getShareableId filename) /\ d = 0
                      /\ invocations isGetFinalVideoUrl pre
                         = (maxFinalVideoAttempts - a)%nat
                      /\ In toastRenderingWarning pre))).
  { intros front l' Hfront Hone Hquiet Hpoll Hlast Hkeep.
    destruct (IH (S a) (withSteps p l')) as (pre & path & d & Hrun & Hev & Hrange & Hcase);
      [lia|].
    rewrite Hrun. cbn [steps withSteps] in *. rewrite Hlast in *.
    exists (front ++ pre), path, d.
    split; [cbn [prefixed]; now rewrite <- app_assoc|].
    split; [rewrite forallb_app, Hfront, Hev; reflexivity|].
    split.
    { intros Hp. destruct (Hkeep Hp) as [Hshown Hl'].
      rewrite shownSteps_app, forallb_app, Hshown, Hrange by exact Hl'. reflexivity. }
    destruct Hcase as [(k & data & Hk & Hnone & Hsome & Hpath & Hd & Hcount & Hno)
                      | (Hnone & Hpath & Hd & Hcount & Hin)]; [left | right].
    - exists k, data. repeat split; try lia; auto.
      + intros j Hj. destruct (Nat.eq_dec j (S a)) as [-> | Hne]; [exact Hpoll|].
        apply Hnone. lia.
      + rewrite invocations_app, Hcount, Hone. lia.
      + intros Hin. apply in_app_or in Hin as [Hin | Hin]; contradiction.
    - repeat split; auto.
      + intros j Hj. destruct (Nat.eq_dec j (S a)) as [-> | Hne]; [exact Hpoll|].
        apply Hnone. lia.
      + rewrite invocations_app, Hcount, Hone. lia.
      + apply in_or_app. now right. }
  pose proof (renderingProgress_range (S a)) as Hbound.
  destruct (getFinalVideoUrl env filename (S a)) as [[|data]|] eqn:Hpoll.
  - apply Hround; try reflexivity.
    + intros [H | [H | [H | [H | [H | []]]]]]; discriminate.
    + now rewrite setStep_setProgress, setStep_setStep.
    + intros Hp. cbn [shownSteps forallb]. rewrite !andb_true_r.
      assert (stepsInRange (setStep 4 completed 100 (steps p)) = true)
        by (apply stepsInRange_setStep; [lia | exact Hp]).
      assert (stepsInRange (setProgress 4 (renderingProgress (S a))
                              (setStep 4 completed 100 (steps p))) = true)
        by (apply stepsInRange_setProgress; [lia | assumption]).
      split; [apply andb_true_intro|]; auto.
  - exists [Invoke (GetFinalVideoUrl filename); Resolved (GetFinalVideoUrl filename)],
      (previewPath (videoIdOf filename data)), 1000.
    repeat split; try reflexivity. left. exists (S a), data. repeat split; try lia; auto.
    + replace (S a - a)%nat with 1%nat by lia. reflexivity.
    + intros [H | [H | []]]; discriminate.
  - apply Hround; try reflexivity.
    + intros [H | [H | [H | [H | []]]]]; discriminate.
    + now rewrite setStep_setProgress.
    + intros Hp. cbn [shownSteps forallb]. rewrite !andb_true_r.
      assert (stepsInRange (setProgress 4 (renderingProgress (S a)) (steps p)) = true)
        by (apply stepsInRange_setProgress; [lia | exact Hp]).
      auto.
Qed.

(** *** [checkTranscriptStatus] *)

Lemma stepsInRange_retry a l : stepsInRange l = true -> stepsInRange (stepsRetry a l) = true.
Proof.
  apply stepsInRange_setProgress. pose proof (transcriptProgress_range (S a)). lia.
Qed.

Lemma stepsInRange_ready l : stepsInRange l = true -> stepsInRange (stepsReady l) = true.
Proof. intros H. unfold stepsReady. repeat apply stepsInRange_setStep; auto; lia. Qed.

Lemma stepsInRange_skipped l : stepsInRange l = true -> stepsInRange (stepsSkipped l) = true.
Proof. intros H. unfold stepsSkipped. repeat apply stepsInRange_setStep; auto; lia. Qed.

Lemma stepsInRange_afterBRoll ok l :
  stepsInRange l = true -> stepsInRange (stepsAfterBRoll ok l) = true.
Proof. intros H. unfold stepsAfterBRoll. repeat apply stepsInRange_setStep; auto; lia. Qed.

(** The polling of the transcript ends in one of three ways: the budget
    runs out; a transcript arrives in a closure that captured
    [isBrollProcessing] as set; or a transcript with a usable text arrives
    and the B-roll call follows. *)
Lemma checkTranscript_shape fuel : forall a p,
  (maxAttempts - a < fuel)%nat ->
  exists p' pre post,
    checkTranscript fuel a p = Some (p', pre ++ post)
    /\ forallb transcriptPollEvent pre = true
    /\ (stepsInRange (steps p) = true -> forallb stepsInRange (shownSteps pre) = true)
    /\ ((* the budget runs out *)
        ((forall j, (a < j <= maxAttempts)%nat ->
            if isBrollProcessing render then getTranscript env filename j = None
            else unusable (getTranscript env filename j))
         /\ post = [toastTranscriptWarning; SetSteps (stepsSkipped (steps p));
                    SetCurrentStepIndex 4]
         /\ steps p' = stepsSkipped (steps p)
         /\ currentStepIndex p' = 4%nat
         /\ invocations isGetTranscript pre = (maxAttempts - a)%nat)
        \/ (* the captured flag stops the closure *)
        (isBrollProcessing render = true
         /\ post = []
         /\ steps p' = stepsReady (steps p)
         /\ existsb (resolves isGetTranscript) pre = true)
        \/ (* the B-roll call *)
        (isBrollProcessing render = false
         /\ exists k transcript text q tl,
              (a < k <= maxAttempts)%nat
              /\ (forall j, (a < j < k)%nat -> unusable (getTranscript env filename j))
              /\ getTranscript env filename k = Some transcript
              /\ transcriptText transcript = Some text
              /\ post = [Invoke (GetBRoll (brollPrompt text));
                         (if getBRoll env (brollPrompt text)
                          then Resolved (GetBRoll (brollPrompt text))
                          else Rejected (GetBRoll (brollPrompt text)));
                         SetSteps (stepsAfterBRoll (getBRoll env (brollPrompt text))
                                     (stepsReady (steps p)));
                         SetCurrentStepIndex 4] ++ tl
              /\ startFinal (getBRoll env (brollPrompt text)) q = Some (p', tl)
              /\ steps q = stepsAfterBRoll (getBRoll env (brollPrompt text))
                             (stepsReady (steps p))
              /\ existsb (resolves isGetTranscript) pre = true
              /\ invocations isGetTranscript pre = (k - a)%nat)).
Proof.
  induction fuel as [|fuel IH]; intros a p Hfuel; [lia|].
  rewrite checkTranscript_unroll.
  destruct (Nat.leb_spec maxAttempts a) as [Hge | Hlt].
  { (* budget spent *)
    exists (withIndex (withSteps p (stepsSkipped (steps p))) 4), [],
      [toastTranscriptWarning; SetSteps (stepsSkipped (steps p)); SetCurrentStepIndex 4].
    repeat split; try reflexivity. left. repeat split; try reflexivity.
    - intros j Hj. lia.
    - replace (maxAttempts - a)%nat with 0%nat by lia. reflexivity. }
  destruct (getTranscript env filename (S a)) as [transcript|] eqn:Hpoll.
  - destruct (isBrollProcessing render) eqn:Hflag.
    { (* the captured flag *)
      exists (withIndex (withSteps p (stepsReady (steps p))) 3),
        [Invoke (GetTranscript filename); Resolved (GetTranscript filename);
         SetSteps (stepsReady (steps p)); SetCurrentStepIndex 3], [].
      split; [reflexivity|]. split; [reflexivity|]. split.
      - intros Hp. simpl. now rewrite stepsInRange_ready.
      - right. left. now repeat split. }
    destruct (transcriptText transcript) as [text|] eqn:Htext.
    + (* a usable transcript: the B-roll call *)
      cbv zeta.
      set (ok := getBRoll env (brollPrompt text)).
      set (q := withIndex _ 4).
      destruct (startFinal ok q) as [[p' tl]|] eqn:Hstart.
      * exists p',
          [Invoke (GetTranscript filename); Resolved (GetTranscript filename);
           SetSteps (stepsReady (steps p)); SetCurrentStepIndex 3;
           SetIsBrollProcessing true],
          ([Invoke (GetBRoll (brollPrompt text));
            (if ok then Resolved (GetBRoll (brollPrompt text))
             else Rejected (GetBRoll (brollPrompt text)));
            SetSteps (stepsAfterBRoll ok (stepsReady (steps p)));
            SetCurrentStepIndex 4] ++ tl).
        split; [reflexivity|]. split; [reflexivity|]. split.
        -- intros Hp. simpl. now rewrite stepsInRange_ready.
        -- right. right. split; [reflexivity|].
           exists (S a), transcript, text, q, tl. repeat split; auto; try lia.
           replace (S a - a)%nat with 1%nat by lia. reflexivity.
      * exfalso. revert Hstart. unfold q. rewrite startFinal_unroll.
        destruct (generateFinalVideo env filename); [|discriminate].
        match goal with |- context [checkFinal _ 0%nat ?r] =>
          destruct (checkFinal_shape (S maxFinalVideoAttempts) 0 r) as (? & ? & ? & -> & _)
        end; [lia | discriminate].
    + (* a transcript without usable text: TypeError, caught, retried *)
      match goal with |- context [checkTranscript fuel (S a) ?r] =>
        destruct (IH (S a) r) as (p' & pre & post & Hrun & Hev & Hrange & Hcase); [lia|]
      end.
      rewrite Hrun. simpl steps in *.
      rewrite ?stepsSkipped_retry, ?stepsReady_retry, ?stepsSkipped_ready, ?stepsReady_ready in Hcase.
      exists p',
        ([Invoke (GetTranscript filename); Resolved (GetTranscript filename);
          SetSteps (stepsReady (steps p)); SetCurrentStepIndex 3;
          SetIsBrollProcessing true;
          SetSteps (stepsRetry a (stepsReady (steps p)));
          SetTimeout CheckTranscriptStatus 3000] ++ pre), post.
      split; [reflexivity|]. split; [exact Hev|]. split.
      * intros Hp. simpl.
        rewrite stepsInRange_ready, stepsInRange_retry, Hrange; auto using stepsInRange_ready, stepsInRange_retry.
      * destruct Hcase as [(Hnone & Hpost & Hsteps & Hidx & Hcount)
                          | [(Hg & _) | (_ & k & tr & text & q & tl & Hk & Hnone & Hsome & Htext'
                                         & Hpost & Hstart & Hq & Hres & Hcount)]].
        -- left. repeat split; auto.
           ++ intros j Hj. destruct (Nat.eq_dec j (S a)) as [-> | Hne].
              ** rewrite Hpoll. exact Htext.
              ** apply Hnone. lia.
           ++ rewrite invocations_app, Hcount.
              match goal with |- (?x + _)%nat = _ => change x with 1%nat end. lia.
        -- discriminate.
        -- right. right. split; [reflexivity|].
           exists k, tr, text, q, tl. repeat split; auto; try lia.
           ++ intros j Hj. destruct (Nat.eq_dec j (S a)) as [-> | Hne].
              ** rewrite Hpoll. exact Htext.
              ** apply Hnone. lia.
           ++ rewrite invocations_app, Hcount.
              match goal with |- (?x + _)%nat = _ => change x with 1%nat end. lia.
  - (* the promise is rejected: retried *)
    match goal with |- context [checkTranscript fuel (S a) ?r] =>
      destruct (IH (S a) r) as (p' & pre & post & Hrun & Hev & Hrange & Hcase); [lia|]
    end.
    rewrite Hrun. simpl steps in *.
    rewrite ?stepsSkipped_retry, ?stepsReady_retry in Hcase.
    exists p',
      ([Invoke (GetTranscript filename); Rejected (GetTranscript filename);
        SetSteps (stepsRetry a (steps p)); SetTimeout CheckTranscriptStatus 3000] ++ pre),
      post.
    split; [reflexivity|]. split; [exact Hev|]. split.
    + intros Hp. simpl. rewrite stepsInRange_retry, Hrange; auto using stepsInRange_retry.
    + destruct Hcase as [(Hnone & Hpost & Hsteps & Hidx & Hcount)
                        | [(Hg & Hpost & Hsteps & Hres)
                          | (Hg & k & tr & text & q & tl & Hk & Hnone & Hsome & Htext'
                             & Hpost & Hstart & Hq & Hres & Hcount)]].
      * left. repeat split; auto.
        -- intros j Hj. destruct (Nat.eq_dec j (S a)) as [-> | Hne].
           ++ rewrite Hpoll. now destruct (isBrollProcessing render).
           ++ apply Hnone. lia.
        -- rewrite invocations_app, Hcount.
           match goal with |- (?x + _)%nat = _ => change x with 1%nat end. lia.
      * right. left. now repeat split.
      * right. right. split; [exact Hg|].
        exists k, tr, text, q, tl. repeat split; auto; try lia.
        -- intros j Hj. destruct (Nat.eq_dec j (S a)) as [-> | Hne].
           ++ now rewrite Hpoll.
           ++ apply Hnone. lia.
        -- rewrite invocations_app, Hcount.
           match goal with |- (?x + _)%nat = _ => change x with 1%nat end. lia.
Qed.

(** *** [initiateProcessing] *)

Lemma initiate_unroll p :
  initiateProcessing env filename render p =
  if isProcessingStarted render then Some (p, [])
  else if generateCaptions env filename then
    prefixed [SetIsProcessingStarted true; Invoke (GenerateCaptions filename);
              Resolved (GenerateCaptions filename)]
      (checkTranscript (S maxAttempts) 0 (withStarted p true))
  else
    Some (withStarted p true,
          [SetIsProcessingStarted true; Invoke (GenerateCaptions filename);
           Rejected (GenerateCaptions filename); toastProcessingError]).
Proof.
  unfold initiateProcessing.
  destruct (isProcessingStarted render); [reflexivity|].
  destruct (generateCaptions env filename); [|reflexivity].
  unfold andThen, setIsProcessingStarted, emit, prefixed.
  destruct (checkTranscript (S maxAttempts) 0 (withStarted p true)) as [[p' t']|];
    reflexivity.
Qed.

(** Every run that passes the first guard ends, in one of the five forms. *)
Theorem run_outcome p :
  isProcessingStarted render = false ->
  exists p' t,
    initiateProcessing env filename render p = Some (p', t)
    /\ RunOutcome env filename (isBrollProcessing render) (steps p) p' t.
Proof.
  intros Hstart. rewrite initiate_unroll, Hstart.
  destruct (generateCaptions env filename) eqn:Hcap.
  2:{ eexists _, _. split; [reflexivity|]. now apply CaptionsRejected. }
  destruct (checkTranscript_shape (S maxAttempts) 0 (withStarted p true))
    as (p' & pre & post & Hrun & Hev & Hrange & Hcase); [lia|].
  rewrite Hrun. simpl prefixed. simpl steps in *.
  exists p'. eexists. split; [reflexivity|].
  assert (Hrounds : transcriptRounds (steps p) pre) by (split; assumption).
  destruct Hcase as [(Hnone & -> & Hsteps & Hidx & Hcount)
                    | [(Hg & -> & Hsteps & Hres)
                      | (Hg & k & tr & text & q & tl & Hk & Hnone & Hsome & Htext
                         & -> & Hfinal & Hq & Hres & Hcount)]].
  - apply TranscriptExhausted; auto; try (rewrite Hcount; lia);
      try (intros j Hj; apply Hnone; lia).
  - rewrite app_nil_r. now apply StoppedByFlag.
  - assert (Hfirst : firstUsable env filename k tr text).
    { repeat split; auto; try lia; intros j Hj; apply Hnone; lia. }
    rewrite startFinal_unroll in Hfinal.
    destruct (generateFinalVideo env filename) eqn:Hgen.
    + destruct (checkFinal_shape (S maxFinalVideoAttempts) 0 q)
        as (pre' & path & d & Hpoll & Hev' & Hrange' & Hcase'); [lia|].
      rewrite Hpoll in Hfinal. simpl in Hfinal. injection Hfinal as <- <-.
      rewrite Hg. simpl steps. rewrite Hq.
      apply (RenderPolled env filename false (steps p) _ pre k tr text pre' path d); auto;
        try (rewrite Hcount; lia).
      split; [exact Hev'|]. split; [now rewrite <- Hq|].
      destruct Hcase' as [(m & data & Hm & Hnone' & Hsome' & Hpath & Hd & Hcount' & Hno)
                         | (Hnone' & Hpath & Hd & Hcount' & Hin)]; [left | right].
      * exists m, data. repeat split; auto; try lia; try (rewrite Hcount'; lia);
          intros j Hj; apply Hnone'; lia.
      * repeat split; auto; try (rewrite Hcount'; lia);
          intros j Hj; apply Hnone'; lia.
    + injection Hfinal as <- <-. rewrite Hg. simpl steps. rewrite Hq.
      apply (RenderRejected env filename false (steps p) _ pre k tr text); auto;
        try (rewrite Hcount; lia).
Qed.

End Run.

(** ** Induction on the rounds of a run *)

(** A property of the step list a closure starts from and of the log it
    writes holds of every run as soon as it holds of each way a round can
    go, given that it holds of the rounds that follow. *)
Section RoundInduction.

Variable env : Env.
Variable filename : string.
Variable render : PageState.

(** [PF], [PS] and [PT] speak of [checkFinalVideoStatus],
    [startFinalVideo] and [checkTranscriptStatus]: of the attempts made
    before, of the step list at the start and of the log written. *)
Variable PF : nat -> list ProcessingStep -> list Event -> Prop.
Variable PS : bool -> list ProcessingStep -> list Event -> Prop.
Variable PT : nat -> list ProcessingStep -> list Event -> Prop.

Hypothesis final_exhausted : forall a l,
  (maxFinalVideoAttempts <= a)%nat ->
  PF a l [toastRenderingWarning; SetSteps (setStep 4 completed 100 l);
          Navigate (previewPath (getShareableId filename)) 0].

Hypothesis final_ready : forall a l data,
  (a < maxFinalVideoAttempts)%nat ->
  getFinalVideoUrl env filename (S a) = Some (FinalValue data) ->
  PF a l [Invoke (GetFinalVideoUrl filename); Resolved (GetFinalVideoUrl filename);
          SetSteps (setStep 4 completed 100 l);
          Navigate (previewPath (videoIdOf filename data)) 1000].

Hypothesis final_null : forall a l t,
  (a < maxFinalVideoAttempts)%nat ->
  getFinalVideoUrl env filename (S a) = Some FinalNull ->
  PF (S a) (setProgress 4 (renderingProgress (S a)) (setStep 4 completed 100 l)) t ->
  PF a l ([Invoke (GetFinalVideoUrl filename); Resolved (GetFinalVideoUrl filename);
           SetSteps (setStep 4 completed 100 l);
           SetSteps (setProgress 4 (renderingProgress (S a)) (setStep 4 completed 100 l));
           SetTimeout CheckFinalVideoStatus 3000] ++ t).

Hypothesis final_retry : forall a l t,
  (a < maxFinalVideoAttempts)%nat ->
  getFinalVideoUrl env filename (S a) = None ->
  PF (S a) (setProgress 4 (renderingProgress (S a)) l) t ->
  PF a l ([Invoke (GetFinalVideoUrl filename); Rejected (GetFinalVideoUrl filename);
           SetSteps (setProgress 4 (renderingProgress (S a)) l);
           SetTimeout CheckFinalVideoStatus 3000] ++ t).

Hypothesis start_rejected : forall withBRoll l,
  generateFinalVideo env filename = false ->
  PS withBRoll l
    [Invoke (GenerateFinalVideo filename); Rejected (GenerateFinalVideo filename);
     toastRenderingError withBRoll; SetSteps (setStep 4 error 100 l);
     Navigate (previewPath (getShareableId filename)) 1500].

Hypothesis start_resolved : forall withBRoll l t,
  generateFinalVideo env filename = true ->
  PF 0%nat l t ->
  PS withBRoll l
    ([Invoke (GenerateFinalVideo filename); Resolved (GenerateFinalVideo filename)] ++ t).

Hypothesis transcript_exhausted : forall a l,
  (maxAttempts <= a)%nat ->
  PT a l [toastTranscriptWarning; SetSteps (stepsSkipped l); SetCurrentStepIndex 4].

Hypothesis transcript_rejected : forall a l t,
  (a < maxAttempts)%nat ->
  getTranscript env filename (S a) = None ->
  PT (S a) (stepsRetry a l) t ->
  PT a l ([Invoke (GetTranscript filename); Rejected (GetTranscript filename);
           SetSteps (stepsRetry a l); SetTimeout CheckTranscriptStatus 3000] ++ t).

Hypothesis transcript_flagged : forall a l transcript,
  (a < maxAttempts)%nat ->
  getTranscript env filename (S a) = Some transcript ->
  isBrollProcessing render = true ->
  PT a l [Invoke (GetTranscript filename); Resolved (GetTranscript filename);
          SetSteps (stepsReady l); SetCurrentStepIndex 3].

Hypothesis transcript_unusable : forall a l transcript t,
  (a < maxAttempts)%nat ->
  getTranscript env filename (S a) = Some transcript ->
  isBrollProcessing render = false ->
  transcriptText transcript = None ->
  PT (S a) (stepsRetry a (stepsReady l)) t ->
  PT a l ([Invoke (GetTranscript filename); Resolved (GetTranscript filename);
           SetSteps (stepsReady l); SetCurrentStepIndex 3;
           SetIsBrollProcessing true;
           SetSteps (stepsRetry a (stepsReady l));
           SetTimeout CheckTranscriptStatus 3000] ++ t).

Hypothesis transcript_usable : forall a l transcript text t,
  (a < maxAttempts)%nat ->
  getTranscript env filename (S a) = Some transcript ->
  isBrollProcessing render = false ->
  transcriptText transcript = Some text ->
  PS (getBRoll env (brollPrompt text))
    (stepsAfterBRoll (getBRoll env (brollPrompt text)) (stepsReady l)) t ->
  PT a l ([Invoke (GetTranscript filename); Resolved (GetTranscript filename);
           SetSteps (stepsReady l); SetCurrentStepIndex 3;
           SetIsBrollProcessing true;
           Invoke (GetBRoll (brollPrompt text));
           (if getBRoll env (brollPrompt text)
            then Resolved (GetBRoll (brollPrompt text))
            else Rejected (GetBRoll (brollPrompt text)));
           SetSteps (stepsAfterBRoll (getBRoll env (brollPrompt text)) (stepsReady l));
           SetCurrentStepIndex 4] ++ t).

Lemma checkFinal_rounds fuel : forall a p p' t,
  checkFinalVideoStatus env filename fuel a p = Some (p', t) -> PF a (steps p) t.
Proof.
  induction fuel as [|fuel IH]; intros a p p' t H; [discriminate|].
  rewrite checkFinal_unroll in H.
  destruct (Nat.leb_spec maxFinalVideoAttempts a) as [Hge | Hlt].
  - injection H as _ <-. now apply final_exhausted.
  - destruct (getFinalVideoUrl env filename (S a)) as [[|data]|] eqn:Hpoll.
    + apply prefixed_Some in H as (t' & H & ->).
      apply final_null; auto. exact (IH _ _ _ _ H).
    + injection H as _ <-. now apply final_ready.
    + apply prefixed_Some in H as (t' & H & ->).
      apply final_retry; auto. exact (IH _ _ _ _ H).
Qed.

Lemma startFinal_rounds withBRoll p p' t :
  startFinalVideo env filename withBRoll p = Some (p', t) -> PS withBRoll (steps p) t.
Proof.
  intros H. rewrite startFinal_unroll in H.
  destruct (generateFinalVideo env filename) eqn:Hgen.
  - apply prefixed_Some in H as (t' & H & ->).
    apply start_resolved; auto. exact (checkFinal_rounds _ _ _ _ _ H).
  - injection H as _ <-. now apply start_rejected.
Qed.

Lemma checkTranscript_rounds fuel : forall a p p' t,
  checkTranscriptStatus env filename render fuel a p = Some (p', t) -> PT a (steps p) t.
Proof.
  induction fuel as [|fuel IH]; intros a p p' t H; [discriminate|].
  rewrite checkTranscript_unroll in H.
  destruct (Nat.leb_spec maxAttempts a) as [Hge | Hlt].
  { injection H as _ <-. now apply transcript_exhausted. }
  destruct (getTranscript env filename (S a)) as [transcript|] eqn:Hpoll.
  - destruct (isBrollProcessing render) eqn:Hflag.
    { injection H as _ <-. now apply (transcript_flagged a _ transcript). }
    destruct (transcriptText transcript) as [text|] eqn:Htext.
    + cbv zeta in H. apply prefixed_Some in H as (t' & H & ->).
      apply (transcript_usable a _ transcript text); auto.
      exact (startFinal_rounds _ _ _ _ H).
    + apply prefixed_Some in H as (t' & H & ->).
      apply (transcript_unusable a _ transcript); auto.
      exact (IH _ _ _ _ H).
  - apply prefixed_Some in H as (t' & H & ->).
    apply transcript_rejected; auto. exact (IH _ _ _ _ H).
Qed.

(** The log of a run that passes the first guard, and the log of one that
    does not. *)
Lemma initiate_rounds p p' t :
  initiateProcessing env filename render p = Some (p', t) ->
  t = []
  \/ t = [SetIsProcessingStarted true; Invoke (GenerateCaptions filename);
          Rejected (GenerateCaptions filename); toastProcessingError]
  \/ exists t', t = [SetIsProcessingStarted true; Invoke (GenerateCaptions filename);
                     Resolved (GenerateCaptions filename)] ++ t'
                /\ PT 0%nat (steps p) t'.
Proof.
  intros H. rewrite initiate_unroll in H.
  destruct (isProcessingStarted render); [injection H as _ <-; now left|].
  destruct (generateCaptions env filename).
  - apply prefixed_Some in H as (t' & H & ->). right. right. exists t'.
    split; [reflexivity|]. exact (checkTranscript_rounds _ _ _ _ _ H).
  - injection H as _ <-. right. now left.
Qed.

End RoundInduction.

(** ** The rounds of the two pollings *)

Section Rounds.

Lemma transcriptRounds_invocations f pre :
  forallb transcriptPollEvent pre = true ->
  (forall a, isGetTranscript a = true -> f a = false) ->
  invocations f pre = 0%nat.
Proof.
  intros Hpre Hf. apply invocations_quiet. intros e He.
  apply (transcriptPoll_events pre e Hpre) in He.
  destruct e; try reflexivity. simpl in *. now apply Hf.
Qed.

Lemma finalRounds_invocations f pre :
  forallb finalPollEvent pre = true ->
  (forall a, isGetFinalVideoUrl a = true -> f a = false) ->
  invocations f pre = 0%nat.
Proof.
  intros Hpre Hf. apply invocations_quiet. intros e He.
  apply (finalPoll_events pre e Hpre) in He.
  destruct e; try reflexivity. simpl in *. now apply Hf.
Qed.

Lemma transcriptRounds_navigations pre :
  forallb transcriptPollEvent pre = true -> navigations pre = [].
Proof.
  intros Hpre. apply navigations_quiet. intros e He.
  apply (transcriptPoll_events pre e Hpre) in He. now destruct e.
Qed.

Lemma finalRounds_navigations pre :
  forallb finalPollEvent pre = true -> navigations pre = [].
Proof.
  intros Hpre. apply navigations_quiet. intros e He.
  apply (finalPoll_events pre e Hpre) in He. now destruct e.
Qed.



Lemma transcriptRounds_guarded E L s pre :
  forallb transcriptPollEvent pre = true ->
  (forall e, transcriptPollEvent e = true -> L e = false) ->
  guarded E L s pre = true.
Proof.
  intros Hpre HL. apply guarded_quiet. intros e He.
  apply HL, (transcriptPoll_events pre e Hpre He).
Qed.

Lemma finalRounds_guarded E L s pre :
  forallb finalPollEvent pre = true ->
  (forall e, finalPollEvent e = true -> L e = false) ->
  guarded E L s pre = true.
Proof.
  intros Hpre HL. apply guarded_quiet. intros e He.
  apply HL, (finalPoll_events pre e Hpre He).
Qed.

Lemma existsb_quiet (P Q : Event -> bool) t :
  forallb P t = true -> (forall e, P e = true -> Q e = false) -> existsb Q t = false.
Proof.
  intros HP HQ. induction t as [|e t IH]; [reflexivity|].
  simpl in *. apply andb_prop in HP as [He Ht]. now rewrite (HQ e He), IH.
Qed.

Lemma firstUsable_unique env filename k1 k2 tr1 tr2 text1 text2 :
  firstUsable env filename k1 tr1 text1 -> firstUsable env filename k2 tr2 text2 ->
  k1 = k2 /\ tr1 = tr2 /\ text1 = text2.
Proof.
  intros (Hk1 & Hno1 & Hs1 & Ht1) (Hk2 & Hno2 & Hs2 & Ht2).
  assert (k1 = k2) as <-.
  { destruct (Nat.lt_trichotomy k1 k2) as [Hlt | [Heq | Hgt]]; [|exact Heq|].
    - specialize (Hno2 k1 ltac:(lia)). rewrite Hs1 in Hno2. simpl in Hno2. congruence.
    - specialize (Hno1 k2 ltac:(lia)). rewrite Hs2 in Hno1. simpl in Hno1. congruence. }
  split; [reflexivity|]. assert (tr1 = tr2) as <- by congruence.
  split; [reflexivity | congruence].
Qed.

End Rounds.

(** ** Progress values *)

Section Progress.

Lemma totalProgress_from acc l :
  fold_left (fun sum step => sum + progress step) l acc = acc + totalProgress l.
Proof.
  unfold totalProgress. revert acc.
  induction l as [|s l IH]; intros acc; cbn [fold_left]; [lia|].
  rewrite (IH (acc + progress s)), (IH (0 + progress s)). lia.
Qed.

Lemma totalProgress_range l :
  forallb (fun s => (0 <=? progress s) && (progress s <=? 100)) l = true ->
  0 <= totalProgress l <= 100 * Z.of_nat (length l).
Proof.
  induction l as [|s l IH]; intros H; [unfold totalProgress; simpl; lia|].
  simpl in H. apply andb_prop in H as [Hs Hl]. apply andb_prop in Hs as [H0 H100].
  apply Z.leb_le in H0, H100. specialize (IH Hl).
  unfold totalProgress in *. cbn [fold_left]. rewrite totalProgress_from.
  unfold totalProgress. rewrite length_cons. lia.
Qed.

(** The rounded mean of values between 0 and 100 lies between 0 and 100. *)
Lemma overallProgress_range l :
  stepsInRange l = true -> 0 <= overallProgress l <= 100.
Proof.
  unfold stepsInRange, overallProgress. intros H. apply andb_prop in H as [Hn H].
  apply negb_true_iff, Nat.eqb_neq in Hn.
  pose proof (totalProgress_range l H) as Ht.
  set (n := Z.of_nat (length l)) in *. assert (0 < n) by lia.
  split.
  - apply Z.div_pos; lia.
  - assert ((2 * totalProgress l + n) / (2 * n) < 101); [|lia].
    apply Z.div_lt_upper_bound; lia.
Qed.

Lemma shownSteps_range_app t1 t2 :
  forallb stepsInRange (shownSteps (t1 ++ t2))
  = forallb stepsInRange (shownSteps t1) && forallb stepsInRange (shownSteps t2).
Proof. now rewrite shownSteps_app, forallb_app. Qed.

End Progress.

(** ** The claims about the pipeline *)

Section Pipeline.

Variable env : Env.
Variable filename : string.

(** C1, as stated, fails: with captions started and a transcript that
    never comes, the run ends with the rendering step shown as in progress
    and no step in error. *)
Lemma C1_counterexample : ~ exhaustionFails envTranscriptNever "clip.mp4".
Proof.
  intros H. destruct H as (p & t & Hrun & Hstage & _); [reflexivity | reflexivity |].
  vm_compute in Hrun. injection Hrun as <- <-.
  vm_compute in Hstage. discriminate Hstage.
Qed.

(** C1, as amended: when captions start and none of the 20 polls of the
    transcript succeeds, the run ends after the twentieth poll with a
    warning toast; the transcription, captions and B-roll steps are written
    as completed and the rendering step as in progress at 0, so the job is
    not failed and no step shows an error; no call of a later stage is made
    and the page does not navigate. *)
Theorem C1_transcript_exhaustion :
  generateCaptions env filename = true ->
  (forall k, (1 <= k <= maxAttempts)%nat -> getTranscript env filename k = None) ->
  exists p t,
    initiateProcessing env filename initialPage initialPage = Some (p, t)
    /\ steps p = stepsSkipped initialSteps
    /\ stageOf (steps p) = Compositing
    /\ anyError (steps p) = false
    /\ currentStepIndex p = 4%nat
    /\ In toastTranscriptWarning t
    /\ invocations isGetTranscript t = maxAttempts
    /\ invocations laterStage t = 0%nat
    /\ navigations t = [].
Proof.
  intros Hcap Hnever.
  destruct (run_outcome env filename initialPage initialPage eq_refl)
    as (p & t & Hrun & Hout).
  exists p, t. split; [exact Hrun|].
  assert (Hk : forall k tr text, ~ firstUsable env filename k tr text).
  { intros k tr text (Hk & _ & Hsome & _). rewrite Hnever in Hsome by exact Hk. discriminate. }
  destruct Hout as [ p Hc Hs | p pre Hc [Hpre _] Hnone Hcount Hsteps Hidx
                   | p pre Hc Hflag Hr He Hs
                   | p pre k tr text Hc Hflag Hr He Hi Hfirst Hgen Hs
                   | p pre k tr text pre' path d Hc Hflag Hr He Hi Hfirst Hgen Hfr Hs ].
  - congruence.
  - simpl steps in *. rewrite Hsteps. repeat split; try reflexivity; try assumption.
    + apply in_or_app. right. apply in_or_app. right. now left.
    + rewrite !invocations_app, Hcount. reflexivity.
    + rewrite !invocations_app, (transcriptRounds_invocations laterStage pre Hpre).
      * reflexivity.
      * now intros [].
    + rewrite !navigations_app, (transcriptRounds_navigations pre Hpre). reflexivity.
  - discriminate.
  - now destruct (Hk k tr text).
  - now destruct (Hk k tr text).
Qed.

(** One run makes each of the one-off calls at most once. *)
Lemma run_counts (render p : PageState) :
  exists p' t,
    initiateProcessing env filename render p = Some (p', t)
    /\ (invocations isGenerateCaptions t <= 1)%nat
    /\ (invocations isGetBRoll t <= 1)%nat
    /\ (invocations isGenerateFinalVideo t <= 1)%nat
    /\ (isBrollProcessing render = true ->
        invocations isGetBRoll t = 0%nat /\ invocations isGenerateFinalVideo t = 0%nat)
    /\ (isProcessingStarted render = false ->
        In (SetIsProcessingStarted true) t /\ invocations isGenerateCaptions t = 1%nat).
Proof.
  destruct (isProcessingStarted render) eqn:Hstart.
  { exists p, []. rewrite initiate_unroll, Hstart.
    split; [reflexivity|]. change (invocations _ []) with 0%nat.
    repeat split; try lia; try reflexivity; discriminate. }
  destruct (run_outcome env filename render p Hstart) as (p' & t & Hrun & Hout).
  exists p', t. split; [exact Hrun|].
  assert (forall f pre, forallb transcriptPollEvent pre = true ->
            (forall a, isGetTranscript a = true -> f a = false) ->
            invocations f pre = 0%nat) as HT by apply transcriptRounds_invocations.
  assert (forall f pre, forallb finalPollEvent pre = true ->
            (forall a, isGetFinalVideoUrl a = true -> f a = false) ->
            invocations f pre = 0%nat) as HF by apply finalRounds_invocations.
  destruct Hout as [ p' Hc Hs | p' pre Hc [Hpre _] Hnone Hcount Hsteps Hidx
                   | p' pre Hc Hflag [Hpre _] He Hs
                   | p' pre k' tr text' Hc Hflag [Hpre _] He Hi Hfirst' Hgen Hs
                   | p' pre k' tr text' pre' path d Hc Hflag [Hpre _] He Hi Hfirst' Hgen
                       (Hpre' & _ & _) Hs ];
    unfold brollEvents;
    rewrite ?invocations_app;
    rewrite ?(HT isGenerateCaptions pre Hpre), ?(HT isGetBRoll pre Hpre),
      ?(HT isGenerateFinalVideo pre Hpre) by (now intros []);
    try rewrite ?(HF isGenerateCaptions pre' Hpre'), ?(HF isGetBRoll pre' Hpre'),
      ?(HF isGenerateFinalVideo pre' Hpre') by (now intros []);
    try destruct (getBRoll env (brollPrompt text'));
    cbn [invocations filter list_filter invokes isGenerateCaptions isGetBRoll
           isGenerateFinalVideo Datatypes.length Nat.add];
    repeat split; try (simpl; lia); try congruence; try (intros _; simpl; tauto);
    try (now left).
Qed.

(** Without a file name the effect only toasts and goes back to the
    upload page; with one it is [initiateProcessing]. *)
Lemma processEffect_filename (render p : PageState) :
  processEffect env None render p
  = Some (p, [toastNoFilename; Navigate "/create" 0])
  /\ (filename <> EmptyString ->
      processEffect env (Some filename) render p
      = initiateProcessing env filename render p).
Proof.
  split; [reflexivity|]. intros Hne. now destruct filename.
Qed.

(** C4: the effect of the first render run twice, the second closure
    having captured the same unset flags as the first (as it does when
    React runs the effect of one render twice), calls [generateCaptions],
    [getBRoll] and [generateFinalVideo] twice each: the flags, added to
    prevent duplicate calls, are read from the render and not from what
    the first run has set. *)
Theorem C4_double_run :
  (exists p t,
     (initiateProcessing envAllReady "clip.mp4" initialPage ;;
      initiateProcessing envAllReady "clip.mp4" initialPage) initialPage = Some (p, t)
     /\ invocations isGenerateCaptions t = 2%nat
     /\ invocations isGetBRoll t = 2%nat
     /\ invocations isGenerateFinalVideo t = 2%nat)
  /\ ~ advanceIdempotent envAllReady "clip.mp4" initialPage.
Proof.
  destruct ((initiateProcessing envAllReady "clip.mp4" initialPage ;;
             initiateProcessing envAllReady "clip.mp4" initialPage) initialPage)
    as [[p t]|] eqn:Hrun; [|vm_compute in Hrun; discriminate].
  assert (Hcount : invocations isGenerateCaptions t = 2%nat
                   /\ invocations isGetBRoll t = 2%nat
                   /\ invocations isGenerateFinalVideo t = 2%nat).
  { vm_compute in Hrun. injection Hrun as _ <-. repeat split; vm_compute; reflexivity. }
  split.
  - exists p, t. split; [reflexivity | exact Hcount].
  - intros H. destruct (H p t Hrun) as [Hone _].
    destruct Hcount as [Htwo _]. rewrite Htwo in Hone. discriminate Hone.
Qed.

(** X28: a run of the effect whose closure captured
    [isProcessingStarted] as set (the update of the first run is
    committed) makes no call and writes nothing, so a first run followed
    by it does what the first run alone does; and one run calls
    [generateCaptions] once, [getBRoll] at most once and
    [generateFinalVideo] at most once, neither of the last two when its
    closure captured [isBrollProcessing] as set. *)
Theorem guards_once_committed (render render' p : PageState) :
  isProcessingStarted render' = true ->
  initiateProcessing env filename render' p = Some (p, [])
  /\ (initiateProcessing env filename render ;; initiateProcessing env filename render') p
     = initiateProcessing env filename render p
  /\ exists p' t,
       initiateProcessing env filename render p = Some (p', t)
       /\ (invocations isGenerateCaptions t <= 1)%nat
       /\ (invocations isGetBRoll t <= 1)%nat
       /\ (invocations isGenerateFinalVideo t <= 1)%nat
       /\ (isBrollProcessing render = true ->
           invocations isGetBRoll t = 0%nat /\ invocations isGenerateFinalVideo t = 0%nat)
       /\ (isProcessingStarted render = false ->
           In (SetIsProcessingStarted true) t /\ invocations isGenerateCaptions t = 1%nat).
Proof.
  intros Hset.
  assert (Hskip : forall q, initiateProcessing env filename render' q = Some (q, [])).
  { intros q. now rewrite initiate_unroll, Hset. }
  split; [apply Hskip|]. split; [|apply run_counts].
  unfold andThen.
  destruct (initiateProcessing env filename render p) as [[p1 t1]|]; [|reflexivity].
  now rewrite Hskip, app_nil_r.
Qed.



(** C7: the two progress formulas stay between 10 and 95 for every number
    of attempts, the overall progress of a step list with values between 0
    and 100 lies between 0 and 100, and from a page with such values every
    step list a run writes, and the one it ends with, has its values and
    its overall progress between 0 and 100. *)
Theorem C7_progress_range (render p : PageState) :
  stepsInRange (steps p) = true ->
  (forall attempts, 0 <= transcriptProgress attempts <= 100)
  /\ (forall attempts, 0 <= renderingProgress attempts <= 100)
  /\ (forall l, stepsInRange l = true -> 0 <= overallProgress l <= 100)
  /\ exists p' t,
       initiateProcessing env filename render p = Some (p', t)
       /\ Forall (fun l => stepsInRange l = true /\ 0 <= overallProgress l <= 100)
            (shownSteps t)
       /\ stepsInRange (steps p') = true
       /\ 0 <= overallProgress (steps p') <= 100.
Proof.
  intros Hp.
  split; [intros n; pose proof (transcriptProgress_range n); lia|].
  split; [intros n; pose proof (renderingProgress_range n); lia|].
  split; [apply overallProgress_range|].
  assert (Hall : forall p' t, forallb stepsInRange (shownSteps t) = true ->
            stepsInRange (steps p') = true ->
            Forall (fun l => stepsInRange l = true /\ 0 <= overallProgress l <= 100)
              (shownSteps t)
            /\ stepsInRange (steps p') = true /\ 0 <= overallProgress (steps p') <= 100).
  { intros p' t Ht Hp'. split; [|split; [exact Hp' | now apply overallProgress_range]].
    apply List.Forall_forall. intros l Hl. rewrite forallb_forall in Ht.
    split; [now apply Ht | apply overallProgress_range; now apply Ht]. }
  destruct (isProcessingStarted render) eqn:Hstart.
  { exists p, []. rewrite initiate_unroll, Hstart. split; [reflexivity|]. now apply Hall. }
  destruct (run_outcome env filename render p Hstart) as (p' & t & Hrun & Hout).
  exists p', t. split; [exact Hrun|].
  pose proof (stepsInRange_ready _ Hp) as Hready.
  pose proof (stepsInRange_skipped _ Hp) as Hskipped.
  pose proof (fun ok => stepsInRange_afterBRoll ok _ Hready) as Hbroll.
  pose proof (fun ok st => stepsInRange_setStep 4 st 100 _ ltac:(lia) (Hbroll ok)) as Hend.
  destruct Hout as [ p' Hc Hs | p' pre Hc [Hpre Hr] Hnone Hcount Hsteps Hidx
                   | p' pre Hc Hflag [Hpre Hr] He Hs
                   | p' pre k' tr text' Hc Hflag [Hpre Hr] He Hi Hfirst' Hgen Hs
                   | p' pre k' tr text' pre' path d Hc Hflag [Hpre Hr] He Hi Hfirst' Hgen
                       (Hpre' & Hr' & _) Hs ];
    apply Hall; rewrite ?Hs, ?Hsteps; auto;
    unfold brollEvents; rewrite ?shownSteps_range_app, ?Hr, ?Hr' by auto;
    try destruct (getBRoll env (brollPrompt text'));
    cbn [shownSteps forallb toastTranscriptWarning toastRenderingError toastProcessingError];
    rewrite ?Hskipped, ?Hbroll, ?Hend; reflexivity.
Qed.

(** C8: in every run, a call of [getBRoll] comes after a resolved
    [getTranscript], and a call of [generateFinalVideo] comes after the
    B-roll call has settled, resolved or rejected. *)
Theorem C8_pipeline_order (render p : PageState) :
  exists p' t,
    initiateProcessing env filename render p = Some (p', t)
    /\ (forall pre prompt post,
          t = pre ++ Invoke (GetBRoll prompt) :: post ->
          exists f, In (Resolved (GetTranscript f)) pre)
    /\ (forall pre f post,
          t = pre ++ Invoke (GenerateFinalVideo f) :: post ->
          exists prompt,
            In (Resolved (GetBRoll prompt)) pre \/ In (Rejected (GetBRoll prompt)) pre).
Proof.
  assert (Hspec : forall t,
            guarded (resolves isGetTranscript) (invokes isGetBRoll) false t = true ->
            guarded (settles isGetBRoll) (invokes isGenerateFinalVideo) false t = true ->
            (forall pre prompt post,
               t = pre ++ Invoke (GetBRoll prompt) :: post ->
               exists f, In (Resolved (GetTranscript f)) pre)
            /\ (forall pre f post,
                  t = pre ++ Invoke (GenerateFinalVideo f) :: post ->
                  exists prompt,
                    In (Resolved (GetBRoll prompt)) pre \/ In (Rejected (GetBRoll prompt)) pre)).
  { intros t H1 H2. split.
    - intros pre prompt post Ht.
      destruct (guarded_spec _ _ t H1 pre _ post Ht eq_refl) as (e & Hin & He).
      destruct e as [| [] | | | | | | | |]; try discriminate. eauto.
    - intros pre f post Ht.
      destruct (guarded_spec _ _ t H2 pre _ post Ht eq_refl) as (e & Hin & He).
      destruct e as [| [] | [] | | | | | | |]; try discriminate; eauto. }
  destruct (isProcessingStarted render) eqn:Hstart.
  { exists p, []. rewrite initiate_unroll, Hstart. split; [reflexivity|]. now apply Hspec. }
  destruct (run_outcome env filename render p Hstart) as (p' & t & Hrun & Hout).
  exists p', t. split; [exact Hrun|].
  assert (HT : forall E L s pre, forallb transcriptPollEvent pre = true ->
            (forall a, L (Invoke a) = true -> isGetTranscript a = false) ->
            (forall e, L e = true -> exists a, e = Invoke a) ->
            guarded E L s pre = true).
  { intros E L s pre Hpre HL HI. apply transcriptRounds_guarded; [exact Hpre|].
    intros e He. destruct (L e) eqn:HLe; [|reflexivity].
    destruct (HI e HLe) as [a ->]. simpl in He. rewrite (HL a HLe) in He. discriminate. }
  assert (HF : forall E L s pre, forallb finalPollEvent pre = true ->
            (forall a, L (Invoke a) = true -> isGetFinalVideoUrl a = false) ->
            (forall e, L e = true -> exists a, e = Invoke a) ->
            guarded E L s pre = true).
  { intros E L s pre Hpre HL HI. apply finalRounds_guarded; [exact Hpre|].
    intros e He. destruct (L e) eqn:HLe; [|reflexivity].
    destruct (HI e HLe) as [a ->]. simpl in He. rewrite (HL a HLe) in He. discriminate. }
  assert (HI : forall f e, invokes f e = true -> exists a, e = Invoke a).
  { intros f [] He; try discriminate. eauto. }
  assert (HB : forall a, invokes isGetBRoll (Invoke a) = true -> isGetTranscript a = false)
    by (intros []; simpl; congruence).
  assert (HG : forall a, invokes isGenerateFinalVideo (Invoke a) = true ->
                 isGetTranscript a = false)
    by (intros []; simpl; congruence).
  destruct Hout as [ p' Hc Hs | p' pre Hc [Hpre Hr] Hnone Hcount Hsteps Hidx
                   | p' pre Hc Hflag [Hpre Hr] He Hs
                   | p' pre k' tr text' Hc Hflag [Hpre Hr] He Hi Hfirst' Hgen Hs
                   | p' pre k' tr text' pre' path d Hc Hflag [Hpre Hr] He Hi Hfirst' Hgen
                       (Hpre' & Hr' & _) Hs ];
    apply Hspec; unfold brollEvents;
    rewrite ?guarded_app, ?existsb_app, ?(HT _ _ _ pre Hpre HB (HI _)),
      ?(HT _ _ _ pre Hpre HG (HI _)), ?He;
    try destruct (getBRoll env (brollPrompt text'));
    cbn [guarded existsb invokes resolves settles isGetBRoll isGenerateFinalVideo
           isGetTranscript orb andb toastTranscriptWarning toastRenderingError
           toastProcessingError];
    rewrite ?orb_true_r, ?guarded_seen; reflexivity.
Qed.


(** The prompt of a B-roll call comes from a transcript a poll resolved
    with. *)
Lemma run_prompt (render p : PageState) :
  exists p' t,
    initiateProcessing env filename render p = Some (p', t)
    /\ forall prompt, In (Invoke (GetBRoll prompt)) t ->
         exists k transcript text,
           getTranscript env filename k = Some transcript
           /\ transcriptText transcript = Some text
           /\ prompt = brollPrompt text.
Proof.
  destruct (isProcessingStarted render) eqn:Hstart.
  { exists p, []. rewrite initiate_unroll, Hstart. split; [reflexivity | now intros]. }
  destruct (run_outcome env filename render p Hstart) as (p' & t & Hrun & Hout).
  exists p', t. split; [exact Hrun|]. intros prompt Hin.
  assert (HT : forall pre, forallb transcriptPollEvent pre = true ->
                 ~ In (Invoke (GetBRoll prompt)) pre).
  { intros pre Hpre H. now apply (transcriptPoll_events pre _ Hpre) in H. }
  assert (HF : forall pre, forallb finalPollEvent pre = true ->
                 ~ In (Invoke (GetBRoll prompt)) pre).
  { intros pre Hpre H. now apply (finalPoll_events pre _ Hpre) in H. }
  destruct Hout as [ p' Hc Hs | p' pre Hc [Hpre Hr] Hnone Hcount Hsteps Hidx
                   | p' pre Hc Hflag [Hpre Hr] He Hs
                   | p' pre k' tr text' Hc Hflag [Hpre Hr] He Hi Hfirst' Hgen Hs
                   | p' pre k' tr text' pre' path d Hc Hflag [Hpre Hr] He Hi Hfirst' Hgen
                       (Hpre' & Hr' & _) Hs ];
    unfold brollEvents in Hin; rewrite ?List.in_app_iff in Hin;
    try (destruct Hfirst' as (_ & _ & Hsome & Htext); exists k', tr, text');
    try destruct (getBRoll env (brollPrompt text'));
    simpl in Hin;
    repeat match goal with
           | H : _ \/ _ |- _ => destruct H
           | H : In _ pre |- _ => now apply HT in H
           | H : In _ pre' |- _ => now apply HF in H
           | H : Invoke _ = Invoke _ |- _ => injection H as H
           | H : GetBRoll _ = GetBRoll _ |- _ => injection H as <-
           | H : False |- _ => destruct H
           end;
    try discriminate; auto.
Qed.

(** C5, as amended: the prompt is the fixed template followed by the
    excerpt; the excerpt is the transcript text up to its first dot (the
    whole text when it has none), so it has no dot in it and is never
    longer than the text; the text itself is cut to 100 characters only
    when it is the JSON form of a transcript without usable [text]; and
    in every run the prompt of a B-roll call is the one so derived from a
    transcript that a poll resolved with. *)
Theorem C5_broll_prompt (transcript : Transcript) (text : string) :
  transcriptText transcript = Some text ->
  brollPrompt text = ("High quality visual scene representing: " ++ brollExcerpt text)%string
  /\ freeOf "." (brollExcerpt text) = true
  /\ (text = brollExcerpt text \/ exists rest, text = (brollExcerpt text ++ "." ++ rest)%string)
  /\ (String.length (brollExcerpt text) <= String.length text)%nat
  /\ (forall json, transcript = TValue TextFalsy json \/ transcript = TValue (TextString "") json ->
        text = Js.slice0 100 json /\ (String.length (brollExcerpt text) <= 100)%nat)
  /\ (forall render p, exists p' t,
        initiateProcessing env filename render p = Some (p', t)
        /\ forall prompt, In (Invoke (GetBRoll prompt)) t ->
             exists k transcript' text',
               getTranscript env filename k = Some transcript'
               /\ transcriptText transcript' = Some text'
               /\ prompt = brollPrompt text').
Proof.
  intros Ht. split; [reflexivity|]. split; [apply split_first_free|].
  split; [apply brollExcerpt_prefix|]. split; [apply brollExcerpt_length|].
  split; [|apply run_prompt].
  intros json Hj.
  assert (E : Some (Js.slice0 100 json) = Some text) by (destruct Hj as [-> | ->]; exact Ht).
  assert (E' : Js.slice0 100 json = text) by congruence.
  clear E Ht. subst text. split; [reflexivity|].
  pose proof (brollExcerpt_length (Js.slice0 100 json)).
  pose proof (slice0_length 100 json). lia.
Qed.

End Pipeline.

(** ** The theorems at sample runs *)

(** A transcript that never comes. *)
Lemma C1_transcript_exhaustion_witness :
  generateCaptions envTranscriptNever "clip.mp4" = true
  /\ exists p t,
       initiateProcessing envTranscriptNever "clip.mp4" initialPage initialPage = Some (p, t)
       /\ stageOf (steps p) = Compositing
       /\ anyError (steps p) = false
       /\ invocations laterStage t = 0%nat.
Proof.
  split; [reflexivity|].
  destruct (C1_transcript_exhaustion envTranscriptNever "clip.mp4" eq_refl
              (fun _ _ => eq_refl))
    as (p & t & Hrun & _ & Hstage & Herr & _ & _ & _ & Hlater & _).
  exists p, t. split; [exact Hrun|]. split; [exact Hstage|]. split; [exact Herr | exact Hlater].
Defined.

(** The first render and the render after its flag is committed. *)
Lemma guards_once_committed_witness :
  isProcessingStarted (withStarted initialPage true) = true
  /\ initiateProcessing envAllReady "clip.mp4" (withStarted initialPage true) initialPage
     = Some (initialPage, [])
  /\ (initiateProcessing envAllReady "clip.mp4" initialPage ;;
      initiateProcessing envAllReady "clip.mp4" (withStarted initialPage true)) initialPage
     = initiateProcessing envAllReady "clip.mp4" initialPage initialPage.
Proof.
  split; [reflexivity|].
  destruct (guards_once_committed envAllReady "clip.mp4" initialPage (withStarted initialPage true)
              initialPage eq_refl) as (Hskip & Hsame & _).
  split; assumption.
Defined.

(** A transcript object with a text of two sentences. *)
Lemma C5_broll_prompt_witness :
  brollPrompt "A day at the beach. We swim."
  = "High quality visual scene representing: A day at the beach"
  /\ brollExcerpt "A day at the beach. We swim." = "A day at the beach".
Proof.
  destruct (C5_broll_prompt envAllReady "clip.mp4"
              (TValue (TextString "A day at the beach. We swim.") "{}")
              "A day at the beach. We swim." eq_refl) as (Hp & _).
  split; [rewrite Hp|]; reflexivity.
Defined.

(** The first run from the initial page. *)
Lemma C7_progress_range_witness :
  stepsInRange (steps initialPage) = true
  /\ exists p t,
       initiateProcessing envAllReady "clip.mp4" initialPage initialPage = Some (p, t)
       /\ Forall (fun l => stepsInRange l = true /\ 0 <= overallProgress l <= 100)
            (shownSteps t)
       /\ 0 <= overallProgress (steps p) <= 100.
Proof.
  split; [reflexivity|].
  destruct (C7_progress_range envAllReady "clip.mp4" initialPage initialPage eq_refl)
    as (_ & _ & _ & p & t & Hrun & Hshown & _ & Hend).
  exists p, t. split; [exact Hrun|]. split; [exact Hshown | exact Hend].
Defined.


(** * Further properties of the front end *)

(** ** Encoded components and the request URLs *)

Section Urls.

Local Open Scope string_scope.

Lemma all_append p a b : Js.all p (a ++ b) = Js.all p a && Js.all p b.
Proof.
  induction a as [|x a IH]; simpl; [reflexivity|]. now rewrite IH, andb_assoc.
Qed.

Lemma encodeChar_alphabet c : Js.all encodedChar (Js.encodeChar c) = true.
Proof.
  destruct c as [b0 b1 b2 b3 b4 b5 b6 b7].
  destruct b0, b1, b2, b3, b4, b5, b6, b7; reflexivity.
Qed.

Lemma encodeURIComponent_alphabet s :
  Js.all encodedChar (Js.encodeURIComponent s) = true.
Proof.
  induction s as [|c s IH]; simpl; [reflexivity|].
  now rewrite all_append, encodeChar_alphabet, IH.
Qed.

Lemma all_free p c s :
  p c = false -> Js.all p s = true -> freeOf c s = true.
Proof.
  intros Hc. unfold freeOf. induction s as [|a s IH]; simpl; [reflexivity|].
  intros H. apply andb_prop in H as [Ha Hs]. rewrite IH by exact Hs.
  rewrite andb_true_r. apply negb_true_iff, Ascii.eqb_neq. intros ->. congruence.
Qed.

Lemma countChar_append c a b :
  countChar c (a ++ b) = (countChar c a + countChar c b)%nat.
Proof.
  induction a as [|x a IH]; simpl; [reflexivity|]. rewrite IH. lia.
Qed.

Lemma countChar_free c s : freeOf c s = true -> countChar c s = 0%nat.
Proof.
  unfold freeOf. induction s as [|a s IH]; simpl; [reflexivity|].
  intros H. apply andb_prop in H as [Ha Hs]. apply negb_true_iff in Ha.
  rewrite Ha. now apply IH.
Qed.

(** An encoded component has no character that could end its path segment
    or its query value. *)
Lemma encodeURIComponent_free c s :
  encodedChar c = false -> freeOf c (Js.encodeURIComponent s) = true.
Proof.
  intros Hc. apply (all_free encodedChar); [exact Hc | apply encodeURIComponent_alphabet].
Qed.

(** X1: whatever the file name or share id, the URL of a path-style
    request has its three slashes and no query, and the URL of a
    query-style request has its one question mark, its one equals sign and
    no ampersand or fragment: the name cannot add a path segment or a
    parameter. *)
Theorem request_urls_shape (name : string) :
  (countChar "/" (transcriptUrl name) = 3
   /\ countChar "/" (finalVideoUrl name) = 3
   /\ countChar "/" (videoByShareIdUrl name) = 3
   /\ countChar "/" (finalVideoByShareIdUrl name) = 3
   /\ countChar "?" (transcriptUrl name) = 0
   /\ countChar "?" (finalVideoUrl name) = 0
   /\ countChar "?" (videoByShareIdUrl name) = 0
   /\ countChar "?" (finalVideoByShareIdUrl name) = 0
   /\ countChar "#" (transcriptUrl name) = 0
   /\ countChar "#" (finalVideoUrl name) = 0
   /\ countChar "#" (videoByShareIdUrl name) = 0
   /\ countChar "#" (finalVideoByShareIdUrl name) = 0)%nat
  /\ (countChar "?" (generateCaptionsUrl name) = 1
      /\ countChar "=" (generateCaptionsUrl name) = 1
      /\ countChar "&" (generateCaptionsUrl name) = 0
      /\ countChar "#" (generateCaptionsUrl name) = 0
      /\ countChar "/" (generateCaptionsUrl name) = 2
      /\ countChar "?" (generateFinalVideoUrl name) = 1
      /\ countChar "=" (generateFinalVideoUrl name) = 1
      /\ countChar "&" (generateFinalVideoUrl name) = 0
      /\ countChar "#" (generateFinalVideoUrl name) = 0
      /\ countChar "/" (generateFinalVideoUrl name) = 2)%nat.
Proof.
  assert (Z0 : forall c, encodedChar c = false ->
                 countChar c (Js.encodeURIComponent name) = 0%nat).
  { intros c Hc. apply countChar_free, encodeURIComponent_free, Hc. }
  unfold transcriptUrl, finalVideoUrl, videoByShareIdUrl, finalVideoByShareIdUrl,
    generateCaptionsUrl, generateFinalVideoUrl.
  rewrite !countChar_append, !Z0 by reflexivity.
  repeat split; reflexivity.
Qed.

Lemma append_cancel_l (a b c : string) : a ++ b = a ++ c -> b = c.
Proof.
  induction a as [|x a IH]; simpl; intros H; [exact H|].
  injection H as H. now apply IH.
Qed.

(** X2: different names never share a request URL. *)
Theorem request_urls_distinct (name1 name2 : string) :
  name1 <> name2 ->
  transcriptUrl name1 <> transcriptUrl name2
  /\ finalVideoUrl name1 <> finalVideoUrl name2
  /\ generateCaptionsUrl name1 <> generateCaptionsUrl name2
  /\ generateFinalVideoUrl name1 <> generateFinalVideoUrl name2
  /\ videoByShareIdUrl name1 <> videoByShareIdUrl name2
  /\ finalVideoByShareIdUrl name1 <> finalVideoByShareIdUrl name2.
Proof.
  intros Hne.
  repeat split; intros H; apply Hne, encodeURIComponent_inj;
    exact (append_cancel_l _ _ _ H).
Qed.

Lemma request_urls_distinct_witness :
  transcriptUrl "clip_1.mp4" <> transcriptUrl "clip_2.mp4"
  /\ generateCaptionsUrl "clip_1.mp4" <> generateCaptionsUrl "clip_2.mp4".
Proof.
  destruct (request_urls_distinct "clip_1.mp4" "clip_2.mp4") as (H1 & _ & H3 & _);
    [discriminate|].
  split; assumption.
Defined.

(** A name made of unreserved characters is its own encoding. *)
Lemma encodeURIComponent_unreserved s :
  allUnreserved s = true -> Js.encodeURIComponent s = s.
Proof.
  unfold allUnreserved. induction s as [|c s IH]; simpl; [reflexivity|].
  intros H. apply andb_prop in H as [Hc Hs].
  unfold Js.encodeChar. rewrite Hc. simpl. now rewrite IH.
Qed.

Lemma string_of_uint_unreserved d :
  allUnreserved (NilEmpty.string_of_uint d) = true.
Proof.
  unfold allUnreserved. induction d; simpl; try reflexivity; exact IHd.
Qed.

Lemma numberToString_unreserved n : allUnreserved (Js.numberToString n) = true.
Proof.
  unfold Js.numberToString, NilEmpty.string_of_int.
  destruct (Z.to_int n) as [d|d]; [apply string_of_uint_unreserved|].
  unfold allUnreserved. change (Js.all Js.unreserved (String "-" (NilEmpty.string_of_uint d)))
    with (Js.unreserved "-" && Js.all Js.unreserved (NilEmpty.string_of_uint d)).
  pose proof (string_of_uint_unreserved d) as H. unfold allUnreserved in H.
  now rewrite H.
Qed.

Lemma recordingName_default now : recordedFileName None now = recordingName now.
Proof. reflexivity. Qed.

(** X3: a recording named by the page ([recording_<t>.webm], which is also
    the default name of [uploadRecordedVideo]) is stored as
    [recording_<t>_<t'>.webm], [t'] being the clock at the upload, and the
    identifier derived from the stored name is [recording_<t>_<t'>] with
    nothing escaped. *)
Theorem recording_stored_name (t now later : Z) :
  uploadRecordedName (Some (recordingName t)) now later
  = "recording_" ++ Js.numberToString t ++ "_" ++ Js.numberToString later ++ ".webm"
  /\ uploadRecordedName None now later
     = "recording_" ++ Js.numberToString now ++ "_" ++ Js.numberToString later ++ ".webm"
  /\ getShareableId (uploadRecordedName (Some (recordingName t)) now later)
     = "recording_" ++ Js.numberToString t ++ "_" ++ Js.numberToString later
  /\ getShareableId (uploadRecordedName None now later)
     = "recording_" ++ Js.numberToString now ++ "_" ++ Js.numberToString later.
Proof.
  assert (Hname : forall a b,
            newFileName (recordingName a) b
            = "recording_" ++ Js.numberToString a ++ "_" ++ Js.numberToString b ++ ".webm").
  { intros a b. unfold recordingName.
    change ("recording_" ++ Js.numberToString a ++ ".webm")
      with (("recording_" ++ Js.numberToString a) ++ "." ++ "webm").
    rewrite newFileName_with_extension by reflexivity.
    now rewrite append_assoc. }
  assert (Hid : forall a b,
            getShareableId (newFileName (recordingName a) b)
            = "recording_" ++ Js.numberToString a ++ "_" ++ Js.numberToString b).
  { intros a b. rewrite Hname. unfold getShareableId.
    assert (E : "recording_" ++ Js.numberToString a ++ "_" ++ Js.numberToString b ++ ".webm"
                = ("recording_" ++ Js.numberToString a ++ "_" ++ Js.numberToString b)
                    ++ String "." "webm").
    { change ("recording_" ++ Js.numberToString a ++ "_" ++ Js.numberToString b ++ ".webm")
        with ("recording_" ++ (Js.numberToString a ++ ("_" ++ (Js.numberToString b ++ ".webm")))).
      change ("recording_" ++ Js.numberToString a ++ "_" ++ Js.numberToString b)
        with ("recording_" ++ (Js.numberToString a ++ ("_" ++ Js.numberToString b))).
      now rewrite !append_assoc. }
    rewrite E, removeExtension_cut by reflexivity.
    apply encodeURIComponent_unreserved. unfold allUnreserved.
    rewrite !all_append.
    pose proof (numberToString_unreserved a) as Ha.
    pose proof (numberToString_unreserved b) as Hb.
    unfold allUnreserved in Ha, Hb. now rewrite Ha, Hb. }
  unfold uploadRecordedName. change (recordedFileName None now) with (recordingName now).
  assert (Hsome : recordedFileName (Some (recordingName t)) now = recordingName t).
  { unfold recordedFileName, recordingName. reflexivity. }
  rewrite Hsome. repeat split; auto.
Qed.

End Urls.

(** ** Decoding, and the legacy file name of the preview *)

Section Decoding.

Local Open Scope string_scope.

Lemma decode_encodeChar c r :
  Js2.decodeURIComponent (Js.encodeChar c ++ r)
  = Js2.decodedCons c (Js2.decodeURIComponent r).
Proof.
  destruct c as [b0 b1 b2 b3 b4 b5 b6 b7].
  destruct b0, b1, b2, b3, b4, b5, b6, b7; reflexivity.
Qed.

(** X4: decoding an encoded component gives the component back. *)
Theorem decode_encode (s : string) :
  Js2.decodeURIComponent (Js.encodeURIComponent s) = Js2.DecodedTo s.
Proof.
  induction s as [|c s IH]; [reflexivity|].
  simpl Js.encodeURIComponent. now rewrite decode_encodeChar, IH.
Qed.

(** A string without a percent sign decodes to itself. *)
Lemma decode_plain s :
  freeOf "%" s = true -> Js2.decodeURIComponent s = Js2.DecodedTo s.
Proof.
  unfold freeOf. induction s as [|c s IH]; [reflexivity|].
  simpl. intros H. apply andb_prop in H as [Hc Hs]. apply negb_true_iff in Hc.
  rewrite Hc, IH by exact Hs. reflexivity.
Qed.

(** A percent sign that is not followed by two hexadecimal digits is a
    URIError, wherever it stands after plain characters. *)
Lemma decode_stray_percent s rest :
  freeOf "%" s = true ->
  match rest with
  | String h1 (String h2 _) =>
      Js2.hexDigitValue h1 = None \/ Js2.hexDigitValue h2 = None
  | _ => True
  end ->
  Js2.decodeURIComponent (s ++ String "%" rest) = Js2.URIError.
Proof.
  unfold freeOf. induction s as [|c s IH]; intros Hs Hrest.
  - simpl. destruct rest as [|h1 [|h2 rest]]; try reflexivity.
    destruct Hrest as [H | H]; rewrite H; [reflexivity|].
    now destruct (Js2.hexDigitValue h1).
  - simpl in Hs. apply andb_prop in Hs as [Hc Hs]. apply negb_true_iff in Hc.
    simpl. rewrite Hc, IH by assumption. reflexivity.
Qed.

Lemma decode_encodeURIComponent s :
  Js2.decodeURIComponent (Js.encodeURIComponent s) = Js2.DecodedTo s.
Proof.
  induction s as [|c s IH]; [reflexivity|].
  simpl Js.encodeURIComponent. now rewrite decode_encodeChar, IH.
Qed.

(** The page is given the identifier made from a file name with an
    extension as the base name. *)
Lemma routeParam_derived (base ext : string) :
  Js.extensionTail ext = true ->
  routeParam (getShareableId (base ++ "." ++ ext)) = Some base.
Proof.
  intros Hext. unfold routeParam, getShareableId.
  change (base ++ "." ++ ext) with (base ++ String "." ext).
  now rewrite removeExtension_cut, decode_encodeURIComponent.
Qed.

Lemma legacyFilename_plain (base : string) :
  freeOf "%" base = true -> legacyFilename base = Js2.DecodedTo (base ++ ".webm").
Proof. intros H. unfold legacyFilename. now rewrite decode_plain. Qed.

(** X5: the preview page is given the identifier derived from a file name
    with an extension decoded, as the base name.  From a base name without
    a percent sign its legacy fallback builds the base name with [.webm]:
    the file name itself exactly for the [.webm] files, such as the stored
    recordings.  From a base name with a percent sign that is not followed
    by two hexadecimal digits, the decoding of the fallback is a URIError. *)
Theorem legacyFilename_of_derived_id (base ext : string) :
  Js.extensionTail ext = true ->
  routeParam (getShareableId (base ++ "." ++ ext)) = Some base
  /\ (freeOf "%" base = true ->
      legacyFilename base = Js2.DecodedTo (base ++ ".webm")
      /\ (legacyFilename base = Js2.DecodedTo (base ++ "." ++ ext) <-> ext = "webm"))
  /\ (forall s rest,
        base = s ++ String "%" rest ->
        freeOf "%" s = true ->
        match rest with
        | String h1 (String h2 _) =>
            Js2.hexDigitValue h1 = None \/ Js2.hexDigitValue h2 = None
        | _ => True
        end ->
        legacyFilename base = Js2.URIError).
Proof.
  intros Hext. split; [now apply routeParam_derived|]. split.
  - intros Hplain. pose proof (legacyFilename_plain base Hplain) as H.
    split; [exact H|]. rewrite H. split.
    + intros [= E]. apply append_cancel_l in E. now injection E as <-.
    + now intros ->.
  - intros s rest -> Hs Hrest. unfold legacyFilename.
    now rewrite decode_stray_percent.
Qed.

Lemma legacyFilename_of_derived_id_witness :
  routeParam (getShareableId "my clip_17.mp4") = Some "my clip_17"
  /\ legacyFilename "my clip_17" = Js2.DecodedTo "my clip_17.webm"
  /\ routeParam (getShareableId "100%.mp4") = Some "100%"
  /\ legacyFilename "100%" = Js2.URIError.
Proof.
  destruct (legacyFilename_of_derived_id "my clip_17" "mp4" eq_refl) as (Hid & Hplain & _).
  destruct (legacyFilename_of_derived_id "100%" "mp4" eq_refl) as (Hid' & _ & Hstray).
  split; [exact Hid|]. split; [exact (proj1 (Hplain eq_refl))|]. split; [exact Hid'|].
  exact (Hstray "100" "" eq_refl eq_refl I).
Defined.

End Decoding.

(** ** The extension of a file name *)

Section Extensions.

Local Open Scope string_scope.

Lemma fileExtension_of_cut x e :
  freeOf "." e = true -> fileExtension (x ++ String "." e) = e.
Proof.
  intros He. unfold fileExtension.
  destruct (split_pop_suffix "." (x ++ String "." e)) as [F [E | [front E]]].
  - rewrite <- E in F. now rewrite freeOf_inside in F.
  - now apply cut_last_unique in E as [_ <-].
Qed.

(** X6: the regular expression of [getShareableId] and [uploadVideo] cuts
    off at most one extension: either the name is a base, a dot and one or
    more characters other than dot and slash, and the base is what is
    left; or the name has no such ending and is left as it is. *)
Theorem removeExtension_cases (name : string) :
  (exists base ext,
     name = base ++ "." ++ ext /\ Js.extensionTail ext = true
     /\ Js.removeExtension name = base)
  \/ (Js.removeExtension name = name
      /\ forall base ext, name = base ++ "." ++ ext -> Js.extensionTail ext = false).
Proof.
  destruct (split_pop_suffix "." name) as [F [E | [front E]]];
    fold (fileExtension name) in *.
  - right. rewrite <- E in F. split; [now apply removeExtension_nodot|].
    intros base ext ->. change (base ++ "." ++ ext) with (base ++ String "." ext) in F.
    now rewrite freeOf_inside in F.
  - destruct (Js.extensionTail (fileExtension name)) eqn:Hext.
    + left. exists front, (fileExtension name). split; [exact E|]. split; [exact Hext|].
      rewrite E at 1. now apply removeExtension_cut.
    + right. split.
      * rewrite E at 1. rewrite removeExtension_keep by assumption. now rewrite <- E.
      * intros base ext Hname.
        destruct (Js.extensionTail ext) eqn:Hext'; [|reflexivity].
        exfalso. pose proof Hext' as Hdot. rewrite extensionTail_spec in Hdot.
        apply andb_prop in Hdot as [_ Hdot].
        change (base ++ "." ++ ext) with (base ++ String "." ext) in Hname.
        rewrite Hname in E at 1. apply cut_last_unique in E as [_ E]; auto.
        rewrite <- E in Hext. congruence.
Qed.

(** X7: a file name without a dot is stored with itself as the extension:
    [name_<t>.name]. *)
Theorem newFileName_without_dot (name : string) (t : Z) :
  freeOf "." name = true ->
  newFileName name t = name ++ "_" ++ Js.numberToString t ++ "." ++ name.
Proof.
  intros H. unfold newFileName, fileNameWithoutExt, fileExtension.
  rewrite removeExtension_nodot, split_nodot by exact H. reflexivity.
Qed.

Lemma newFileName_without_dot_witness :
  newFileName "holiday" 1700000000123 = "holiday_1700000000123.holiday".
Proof. apply (newFileName_without_dot "holiday" 1700000000123 eq_refl). Defined.

(** X8: the stored name ends in the same last dot-separated segment as the
    name of the file, and for a name with an extension the identifier
    derived from the stored name is the encoded base name, an underscore
    and the timestamp. *)
Theorem newFileName_keeps_extension (name : string) (t : Z) :
  fileExtension (newFileName name t) = fileExtension name
  /\ (forall base ext, Js.extensionTail ext = true -> name = base ++ "." ++ ext ->
        fileExtension (newFileName name t) = ext
        /\ getShareableId (newFileName name t)
           = Js.encodeURIComponent base ++ "_" ++ Js.numberToString t).
Proof.
  split.
  - rewrite newFileName_at_dot. apply fileExtension_of_cut, fileExtension_nodot.
  - intros base ext Hext ->.
    assert (Hdot : freeOf "." ext = true).
    { rewrite extensionTail_spec in Hext. now apply andb_prop in Hext as [_ H]. }
    change (base ++ "." ++ ext) with (base ++ String "." ext).
    assert (He : fileExtension (base ++ String "." ext) = ext)
      by now apply fileExtension_of_cut.
    split.
    + rewrite newFileName_at_dot, He. now apply fileExtension_of_cut.
    + rewrite getShareableId_newFileName, He, Hext.
      unfold fileNameWithoutExt. rewrite removeExtension_cut by exact Hext.
      assert (Henc : forall a b, Js.encodeURIComponent (a ++ b)
                                 = Js.encodeURIComponent a ++ Js.encodeURIComponent b).
      { intros a b. induction a as [|c a IH]; simpl; [reflexivity|].
        now rewrite IH, append_assoc. }
      rewrite Henc. f_equal.
      change (String "_" (Js.numberToString t)) with ("_" ++ Js.numberToString t).
      rewrite Henc. f_equal.
      apply encodeURIComponent_unreserved, numberToString_unreserved.
Qed.

End Extensions.

(** ** What every run does *)

Section EveryRun.

Variable env : Env.
Variable filename : string.

Lemma run_total (render p : PageState) :
  exists p' t, initiateProcessing env filename render p = Some (p', t).
Proof. destruct (run_counts env filename render p) as (p' & t & H & _). eauto. Qed.

(** X9: in every run the adapter calls are made one at a time: each call
    settles, resolved or rejected, in the very next event of the log,
    before any state is written, any timer set or any other call made,
    and nothing settles that was not just called. *)
Theorem run_calls_one_at_a_time (render p : PageState) :
  exists p' t,
    initiateProcessing env filename render p = Some (p', t)
    /\ sequentialCalls None t = true.
Proof.
  destruct (run_total render p) as (p' & t & Hrun). exists p', t.
  split; [exact Hrun|].
  pose proof (initiate_rounds env filename render
                (fun _ _ t => sequentialCalls None t = true)
                (fun _ _ t => sequentialCalls None t = true)
                (fun _ _ t => sequentialCalls None t = true)) as Hind.
  destruct (Hind) with (p := p) (p' := p') (t := t) as [-> | [-> | (t' & -> & Ht')]];
    try exact Hrun; try reflexivity;
    try (intros; cbn [sequentialCalls app Api_eqb toastRenderingWarning toastRenderingError
                        toastTranscriptWarning toastProcessingError];
         rewrite ?String.eqb_refl; cbn [andb];
         try destruct (getBRoll env (brollPrompt _));
         cbn [sequentialCalls app Api_eqb]; rewrite ?String.eqb_refl; cbn [andb];
         solve [reflexivity | assumption]).
Qed.

Lemma waited_app t1 t2 : waited (t1 ++ t2) = waited t1 + waited t2.
Proof.
  unfold waited. rewrite timerDelays_app, fold_right_app.
  induction (timerDelays t1) as [|d l IH]; simpl; [reflexivity|]. rewrite IH. lia.
Qed.

(** Counting in the known front part of a log. *)
Ltac count_front :=
  rewrite ?invocations_app, ?waited_app, ?navigations_app;
  repeat match goal with
         | |- context [invocations ?f (?e :: ?l)] =>
             let v := eval vm_compute in (invocations f (e :: l)) in
             change (invocations f (e :: l)) with v
         | |- context [waited (?e :: ?l)] =>
             let v := eval vm_compute in (waited (e :: l)) in
             change (waited (e :: l)) with v
         end.

(** X10: a run is bounded: at most 20 polls of the transcript, at most
    30 polls of the final video, at most 53 adapter calls in all, and at
    most 150 seconds spent waiting on retry timers. *)
Theorem run_bounded (render p : PageState) :
  exists p' t,
    initiateProcessing env filename render p = Some (p', t)
    /\ (invocations isGetTranscript t <= 20)%nat
    /\ (invocations isGetFinalVideoUrl t <= 30)%nat
    /\ (calls t <= 53)%nat
    /\ 0 <= waited t <= 150000.
Proof.
  destruct (run_total render p) as (p' & t & Hrun). exists p', t.
  split; [exact Hrun|].
  pose proof (initiate_rounds env filename render
    (fun a _ t =>
       (invocations isGetTranscript t = 0
        /\ invocations isGetFinalVideoUrl t <= maxFinalVideoAttempts - a
        /\ calls t <= maxFinalVideoAttempts - a)%nat
       /\ 0 <= waited t <= 3000 * Z.of_nat (maxFinalVideoAttempts - a))
    (fun _ _ t =>
       (invocations isGetTranscript t = 0
        /\ invocations isGetFinalVideoUrl t <= maxFinalVideoAttempts
        /\ calls t <= S maxFinalVideoAttempts)%nat
       /\ 0 <= waited t <= 3000 * Z.of_nat maxFinalVideoAttempts)
    (fun a _ t =>
       (invocations isGetTranscript t <= maxAttempts - a
        /\ invocations isGetFinalVideoUrl t <= maxFinalVideoAttempts
        /\ calls t <= (maxAttempts - a) + 2 + maxFinalVideoAttempts)%nat
       /\ 0 <= waited t
          <= 3000 * Z.of_nat (maxAttempts - a) + 3000 * Z.of_nat maxFinalVideoAttempts))
    as Hind.
  unfold calls in *.
  destruct Hind with (p := p) (p' := p') (t := t) as [-> | [-> | (t' & -> & Ht')]];
    try exact Hrun;
    try (intros;
         repeat match goal with H : _ /\ _ |- _ => destruct H end;
         try destruct (getBRoll env (brollPrompt _));
         count_front; unfold maxAttempts, maxFinalVideoAttempts in *;
         repeat split; lia);
    repeat split; vm_compute; first [lia | discriminate | reflexivity].
Qed.

(** X11: a run navigates exactly when it has called [generateFinalVideo]:
    without that call it never leaves the page, and after it, whether the
    call is rejected, a poll resolves or the polls run out, it navigates
    once, to a preview path. *)
Theorem run_navigates_after_rendering (render p : PageState) :
  exists p' t,
    initiateProcessing env filename render p = Some (p', t)
    /\ ((invocations isGenerateFinalVideo t = 0%nat /\ navigations t = [])
        \/ (invocations isGenerateFinalVideo t = 1%nat
            /\ exists videoId, navigations t = [previewPath videoId])).
Proof.
  destruct (run_total render p) as (p' & t & Hrun). exists p', t.
  split; [exact Hrun|].
  pose proof (initiate_rounds env filename render
    (fun _ _ t => invocations isGenerateFinalVideo t = 0%nat
                  /\ exists videoId, navigations t = [previewPath videoId])
    (fun _ _ t => invocations isGenerateFinalVideo t = 1%nat
                  /\ exists videoId, navigations t = [previewPath videoId])
    (fun _ _ t => (invocations isGenerateFinalVideo t = 0%nat /\ navigations t = [])
                  \/ (invocations isGenerateFinalVideo t = 1%nat
                      /\ exists videoId, navigations t = [previewPath videoId])))
    as Hind.
  destruct Hind with (p := p) (p' := p') (t := t) as [-> | [-> | (t' & -> & Ht')]];
    try exact Hrun;
    intros;
    repeat match goal with
           | H : _ /\ _ |- _ => destruct H
           | H : _ \/ _ |- _ => destruct H
           | H : exists _, _ |- _ => destruct H
           end;
    try destruct (getBRoll env (brollPrompt _));
    count_front;
    cbn [navigations app Nat.add toastNoFilename toastTranscriptWarning toastRenderingWarning toastRenderingError toastProcessingError];
    repeat match goal with
           | H : navigations _ = _ |- _ => rewrite H
           | H : invocations _ _ = _ |- _ => rewrite H
           end;
    first [ left; split; reflexivity
          | right; split; [reflexivity | eexists; reflexivity]
          | split; [reflexivity | eexists; reflexivity] ].
Qed.

Lemma labels_alter f i l :
  (forall s, id (f s) = id s /\ name (f s) = name s) ->
  labels (alter f i l) = labels l.
Proof.
  intros Hf. unfold labels. revert i. induction l as [|s l IH]; intros [|i]; try reflexivity.
  - change (alter f 0%nat (s :: l)) with (f s :: l). simpl.
    destruct (Hf s) as [-> ->]. reflexivity.
  - change (alter f (S i) (s :: l)) with (s :: alter f i l). simpl. now rewrite IH.
Qed.

Lemma labels_setStep i st pr l : labels (setStep i st pr l) = labels l.
Proof. apply labels_alter. now intros s. Qed.

Lemma labels_setProgress i pr l : labels (setProgress i pr l) = labels l.
Proof. apply labels_alter. now intros s. Qed.

Ltac labels_simpl :=
  unfold stepsRetry, stepsReady, stepsSkipped, stepsAfterBRoll in *;
  repeat first [rewrite labels_setStep in * | rewrite labels_setProgress in *].

(** X12: a run never adds, drops, reorders or renames a step: every step
    list it shows has the identifiers and names of the list it started
    from. *)
Theorem run_keeps_the_steps (render p : PageState) :
  exists p' t,
    initiateProcessing env filename render p = Some (p', t)
    /\ List.Forall (fun l => labels l = labels (steps p)) (shownSteps t).
Proof.
  destruct (run_total render p) as (p' & t & Hrun). exists p', t.
  split; [exact Hrun|].
  pose proof (initiate_rounds env filename render
    (fun _ l t => List.Forall (fun l' => labels l' = labels l) (shownSteps t))
    (fun _ l t => List.Forall (fun l' => labels l' = labels l) (shownSteps t))
    (fun _ l t => List.Forall (fun l' => labels l' = labels l) (shownSteps t)))
    as Hind.
  destruct Hind with (p := p) (p' := p') (t := t) as [-> | [-> | (t' & -> & Ht')]];
    try exact Hrun;
    try (intros;
         try destruct (getBRoll env (brollPrompt _));
         rewrite ?shownSteps_app;
         cbn [shownSteps app toastRenderingWarning toastRenderingError
              toastTranscriptWarning toastProcessingError];
         labels_simpl;
         repeat (apply List.Forall_cons; [labels_simpl; reflexivity|]);
         first [assumption | apply List.Forall_nil]).
Qed.

Lemma hasStatus_setStep_eq i st st' pr l :
  hasStatus i st (setStep i st' pr l)
  = match l !! i with Some _ => Status_eqb st' st | None => false end.
Proof.
  unfold hasStatus, setStep. rewrite list_lookup_alter_eq.
  destruct (l !! i); reflexivity.
Qed.

Lemma hasStatus_setStep_ne i j st st' pr l :
  i <> j -> hasStatus i st (setStep j st' pr l) = hasStatus i st l.
Proof.
  intros Hne. unfold hasStatus, setStep. now rewrite list_lookup_alter_ne by auto.
Qed.

Lemma hasStatus_setProgress i j st pr l :
  hasStatus i st (setProgress j pr l) = hasStatus i st l.
Proof.
  unfold hasStatus, setProgress.
  destruct (Nat.eq_dec i j) as [->|Hne].
  - rewrite list_lookup_alter_eq. destruct (l !! j); reflexivity.
  - now rewrite list_lookup_alter_ne by auto.
Qed.

Lemma anyError_hasStatus l i : anyError l = false -> hasStatus i error l = false.
Proof.
  unfold anyError, hasStatus. revert i. induction l as [|s l IH]; intros i H; [reflexivity|].
  simpl in H. apply orb_false_elim in H as [Hs Hl].
  destruct i as [|i]; [exact Hs | now apply IH].
Qed.

(** The status of a step after the writes of a round. *)
Ltac status_simpl :=
  unfold stepsRetry, stepsReady, stepsSkipped, stepsAfterBRoll;
  repeat first [ rewrite hasStatus_setProgress
               | rewrite hasStatus_setStep_eq
               | rewrite hasStatus_setStep_ne by discriminate ];
  repeat match goal with
         | |- context [match ?l !! ?i with _ => _ end] => destruct (l !! i)
         end;
  cbn [Status_eqb].

Ltac status_simpl_in H :=
  unfold stepsRetry, stepsReady, stepsSkipped, stepsAfterBRoll in H;
  repeat first [ rewrite hasStatus_setProgress in H
               | rewrite hasStatus_setStep_eq in H
               | rewrite hasStatus_setStep_ne in H by discriminate ].

Ltac each_step :=
  repeat first [apply List.Forall_nil | apply List.Forall_cons]; repeat split.

(** The steps that no round marks as failed. *)
Local Abbreviation sound l :=
  (hasStatus 0 error l = false /\ hasStatus 1 error l = false
   /\ hasStatus 2 error l = false).

Lemma errorsExplained_later t t' l :
  (forall e, In e t -> In e t') ->
  errorsExplained filename t l -> errorsExplained filename t' l.
Proof.
  intros Hsub (H0 & H1 & H2 & H3 & H4). repeat split; auto.
  intros H. destruct (H3 H) as (prompt & Hin). exists prompt. now apply Hsub.
Qed.

Ltac later_in_log t0 :=
  apply List.Forall_impl with (P := errorsExplained filename t0);
  [ intros ?l'; apply errorsExplained_later; intros ?e ?He; cbn [In app]; tauto | ].

Lemma explained_clean t l :
  sound l -> hasStatus 3 error l = false -> hasStatus 4 error l = false ->
  errorsExplained filename t l.
Proof.
  intros (H0 & H1 & H2) H3 H4. repeat split; auto; intros H; congruence.
Qed.

Lemma explained_broll t l prompt :
  sound l -> hasStatus 4 error l = false -> In (Rejected (GetBRoll prompt)) t ->
  errorsExplained filename t l.
Proof.
  intros (H0 & H1 & H2) H4 Hin. repeat split; auto; intros H; [eauto | congruence].
Qed.

(** After a round has written, the steps other than the one it wrote are
    as they were. *)
Ltac status_goal := status_simpl; auto; try congruence; try discriminate.

Ltac sound_goal := repeat split; status_goal.

(** The errors of the step lists a run writes, from a page without
    errors. *)
Lemma run_errors (render p p' : PageState) (t : list Event) :
  anyError (steps p) = false ->
  initiateProcessing env filename render p = Some (p', t) ->
  List.Forall (errorsExplained filename t) (shownSteps t).
Proof.
  intros Hclean Hrun.
  unshelve epose proof (initiate_rounds env filename render
    (fun _ l t =>
       sound l -> hasStatus 4 error l = false ->
       List.Forall (fun l' => sound l' /\ hasStatus 3 error l' = hasStatus 3 error l
                              /\ hasStatus 4 error l' = false) (shownSteps t))
    (fun _ l t =>
       sound l -> hasStatus 4 error l = false ->
       List.Forall (fun l' => sound l' /\ hasStatus 3 error l' = hasStatus 3 error l
                              /\ (hasStatus 4 error l' = true ->
                                  In (Rejected (GenerateFinalVideo filename)) t))
         (shownSteps t))
    (fun _ l t =>
       sound l -> hasStatus 3 error l = false -> hasStatus 4 error l = false ->
       List.Forall (errorsExplained filename t) (shownSteps t))
    _ _ _ _ _ _ _ _ _ _ _ p p' t Hrun) as Hlog; cbv beta.
  - (* the polls run out *)
    intros a l _ (H0 & H1 & H2) H4. cbn [shownSteps toastRenderingWarning].
    constructor; [|constructor]. sound_goal.
  - (* the final video is ready *)
    intros a l data _ _ (H0 & H1 & H2) H4. cbn [shownSteps].
    constructor; [|constructor]. sound_goal.
  - (* the poll resolves with null *)
    intros a l t0 _ _ IH (H0 & H1 & H2) H4.
    rewrite shownSteps_app. cbn [shownSteps app].
    constructor; [sound_goal|]. constructor; [sound_goal|].
    eapply List.Forall_impl; [|apply IH; sound_goal].
    intros l' (Hs & H3' & H4'). split; [exact Hs|]. split; [|exact H4'].
    rewrite H3'. now status_simpl.
  - (* not ready yet *)
    intros a l t0 _ _ IH (H0 & H1 & H2) H4.
    rewrite shownSteps_app. cbn [shownSteps app].
    constructor; [sound_goal|].
    eapply List.Forall_impl; [|apply IH; sound_goal].
    intros l' (Hs & H3' & H4'). split; [exact Hs|]. split; [|exact H4'].
    rewrite H3'. now status_simpl.
  - (* the rendering does not start *)
    intros b l Hgen (H0 & H1 & H2) H4.
    cbn [shownSteps toastRenderingError].
    constructor; [|constructor]. split; [sound_goal|]. split; [status_goal|].
    intros _. cbn [In]. tauto.
  - (* the rendering starts *)
    intros b l t0 _ IH Hs H4. rewrite shownSteps_app. cbn [shownSteps app].
    eapply List.Forall_impl; [|apply IH; assumption].
    intros l' (Hs' & H3' & H4'). split; [exact Hs'|]. split; [exact H3'|].
    rewrite H4'. discriminate.
  - (* the transcript polls run out *)
    intros a l _ (H0 & H1 & H2) H3 H4. cbn [shownSteps toastTranscriptWarning].
    constructor; [|constructor]. apply explained_clean; sound_goal.
  - (* the transcript is not there yet *)
    intros a l t0 _ _ IH (H0 & H1 & H2) H3 H4.
    rewrite shownSteps_app. cbn [shownSteps app].
    constructor; [apply explained_clean; sound_goal|].
    later_in_log t0. apply IH; sound_goal.
  - (* the B-roll flag of the render is set *)
    intros a l transcript _ _ _ (H0 & H1 & H2) H3 H4. cbn [shownSteps].
    constructor; [|constructor]. apply explained_clean; sound_goal.
  - (* a transcript without text *)
    intros a l transcript t0 _ _ _ _ IH (H0 & H1 & H2) H3 H4.
    rewrite shownSteps_app. cbn [shownSteps app].
    constructor; [apply explained_clean; sound_goal|].
    constructor; [apply explained_clean; sound_goal|].
    later_in_log t0. apply IH; sound_goal.
  - (* a transcript with text *)
    intros a l transcript text t0 _ _ _ _ IH (H0 & H1 & H2) H3 H4.
    rewrite shownSteps_app.
    destruct (getBRoll env (brollPrompt text)) eqn:Hok; cbn [shownSteps app].
    + constructor; [apply explained_clean; sound_goal|].
      constructor; [apply explained_clean; sound_goal|].
      eapply List.Forall_impl; [|apply IH; sound_goal].
      intros l' ((Hs0 & Hs1 & Hs2) & H3' & H4').
      assert (H3'' : hasStatus 3 error l' = false).
      { rewrite H3'. status_simpl; reflexivity. }
      repeat split; auto.
      * intros H. congruence.
      * intros H. specialize (H4' H). cbn [In]. tauto.
    + constructor; [apply explained_clean; sound_goal|].
      constructor.
      { apply explained_broll with (prompt := brollPrompt text);
          [sound_goal | status_goal | cbn [In]; tauto]. }
      eapply List.Forall_impl; [|apply IH; sound_goal].
      intros l' ((Hs0 & Hs1 & Hs2) & H3' & H4').
      repeat split; auto.
      * intros _. exists (brollPrompt text). cbn [In]. tauto.
      * intros H. specialize (H4' H). cbn [In]. tauto.
  - (* the whole run *)
    destruct Hlog as [-> | [-> | (t' & -> & Ht')]]; try (now constructor).
    rewrite shownSteps_app. cbn [shownSteps app].
    later_in_log t'.
    apply Ht'; repeat split; now apply anyError_hasStatus.
Qed.

(** X13: from a page without errors, no run ever marks the upload, the
    transcription or the captions step as failed; the B-roll step shows an
    error only after a rejected B-roll call, and the rendering step only
    after a rejected start of the rendering. *)
Theorem run_errors_explained (render p : PageState) :
  anyError (steps p) = false ->
  exists p' t,
    initiateProcessing env filename render p = Some (p', t)
    /\ List.Forall (errorsExplained filename t) (shownSteps t).
Proof.
  intros Hclean.
  destruct (run_total render p) as (p' & t & Hrun). exists p', t.
  split; [exact Hrun | now apply run_errors with (render := render) (p := p) (p' := p')].
Qed.



(** ** What the page displays *)

Lemma last_cons {A : Type} (x : A) (xs : list A) (d : A) :
  List.last (x :: xs) d = List.last xs x.
Proof.
  revert x d. induction xs as [|y ys IH]; intros x d; [reflexivity|].
  change (List.last (x :: y :: ys) d) with (List.last (y :: ys) d).
  now rewrite (IH y d), (IH y x).
Qed.

Lemma last_Forall {A : Type} (P : A -> Prop) (xs : list A) (d : A) :
  List.Forall P xs -> P d -> P (List.last xs d).
Proof.
  intros H. revert d. induction H as [|x xs Hx _ IH]; intros d Hd; [exact Hd|].
  rewrite last_cons. now apply IH.
Qed.

Lemma length_setStep i st pr l : length (setStep i st pr l) = length l.
Proof. apply length_alter. Qed.

Lemma length_setProgress i pr l : length (setProgress i pr l) = length l.
Proof. apply length_alter. Qed.

Lemma progressAt_setStep_eq i st pr l :
  (i < length l)%nat -> progressAt i (setStep i st pr l) = Some pr.
Proof.
  intros H. unfold progressAt, setStep. rewrite list_lookup_alter_eq.
  destruct (lookup_lt_is_Some_2 l i H) as [s ->]. reflexivity.
Qed.

Lemma progressAt_setStep_ne i j st pr l :
  i <> j -> progressAt i (setStep j st pr l) = progressAt i l.
Proof.
  intros Hne. unfold progressAt, setStep. now rewrite list_lookup_alter_ne by auto.
Qed.

Lemma progressAt_setProgress_eq i pr l :
  (i < length l)%nat -> progressAt i (setProgress i pr l) = Some pr.
Proof.
  intros H. unfold progressAt, setProgress. rewrite list_lookup_alter_eq.
  destruct (lookup_lt_is_Some_2 l i H) as [s ->]. reflexivity.
Qed.

Lemma progressAt_setProgress_ne i j pr l :
  i <> j -> progressAt i (setProgress j pr l) = progressAt i l.
Proof.
  intros Hne. unfold progressAt, setProgress. now rewrite list_lookup_alter_ne by auto.
Qed.

Lemma stageOf_completed l : stageOf l = Completed -> hasStatus 4 completed l = true.
Proof.
  unfold stageOf.
  destruct (hasStatus 1 error l || hasStatus 2 error l || hasStatus 4 error l);
    [discriminate|].
  destruct (hasStatus 4 completed l); [reflexivity|].
  destruct (hasStatus 4 processing l); [discriminate|].
  destruct (hasStatus 3 processing l); [discriminate|].
  destruct (hasStatus 2 processing l); [discriminate|].
  destruct (hasStatus 1 processing l); discriminate.
Qed.

Lemma stageOf_failed l :
  stageOf l = Failed ->
  hasStatus 1 error l = true \/ hasStatus 2 error l = true \/ hasStatus 4 error l = true.
Proof.
  unfold stageOf.
  destruct (hasStatus 1 error l); [now left|].
  destruct (hasStatus 2 error l); [right; now left|].
  destruct (hasStatus 4 error l); [right; now right|].
  cbn [orb].
  destruct (hasStatus 4 completed l); [discriminate|].
  destruct (hasStatus 4 processing l); [discriminate|].
  destruct (hasStatus 3 processing l); [discriminate|].
  destruct (hasStatus 2 processing l); [discriminate|].
  destruct (hasStatus 1 processing l); discriminate.
Qed.

(** The lengths of the step lists after the writes of a round. *)
Ltac length_goal :=
  unfold stepsRetry, stepsReady, stepsSkipped, stepsAfterBRoll;
  repeat first [rewrite length_setStep | rewrite length_setProgress];
  first [assumption | lia].

(** The progress of a step after the writes of a round. *)
Ltac progress_simpl :=
  unfold stepsRetry, stepsReady, stepsSkipped, stepsAfterBRoll;
  repeat first [ rewrite progressAt_setStep_ne by discriminate
               | rewrite progressAt_setProgress_ne by discriminate
               | rewrite progressAt_setStep_eq by length_goal
               | rewrite progressAt_setProgress_eq by length_goal ].

(** What is displayed of a log whose front part is known. *)
Ltac display_front :=
  cbn [displayedFrom app flush Z.eqb toastRenderingWarning toastRenderingError
         toastTranscriptWarning toastProcessingError].

(** Whether the start of the rendering resolved or was rejected can be
    read off the log. *)
Lemma rendering_settled (render p p' : PageState) (t : list Event) :
  initiateProcessing env filename render p = Some (p', t) ->
  (In (Rejected (GenerateFinalVideo filename)) t -> generateFinalVideo env filename = false)
  /\ (In (Resolved (GenerateFinalVideo filename)) t -> generateFinalVideo env filename = true).
Proof.
  intros Hrun.
  unshelve epose proof (initiate_rounds env filename render
    (fun _ _ t => ~ In (Rejected (GenerateFinalVideo filename)) t
                  /\ ~ In (Resolved (GenerateFinalVideo filename)) t)
    (fun _ _ t =>
       (In (Rejected (GenerateFinalVideo filename)) t -> generateFinalVideo env filename = false)
       /\ (In (Resolved (GenerateFinalVideo filename)) t
           -> generateFinalVideo env filename = true))
    (fun _ _ t =>
       (In (Rejected (GenerateFinalVideo filename)) t -> generateFinalVideo env filename = false)
       /\ (In (Resolved (GenerateFinalVideo filename)) t
           -> generateFinalVideo env filename = true))
    _ _ _ _ _ _ _ _ _ _ _ p p' t Hrun) as Hlog; cbv beta.
  1-11: intros;
    repeat match goal with
           | |- context [if ?b then _ else _] => destruct b
           end;
    rewrite ?in_app_iff;
    cbn [In toastRenderingWarning toastRenderingError toastTranscriptWarning
           toastProcessingError];
    intuition (try discriminate; try congruence).
  destruct Hlog as [-> | [-> | (t' & -> & Ht')]];
    rewrite ?in_app_iff; cbn [In toastProcessingError];
    intuition (try discriminate; try congruence).
Qed.

(** A step list whose errors are explained by a log without a rejected
    start of the rendering is not failed. *)
Lemma explained_not_failed t l :
  errorsExplained filename t l ->
  ~ In (Rejected (GenerateFinalVideo filename)) t ->
  stageOf l <> Failed.
Proof.
  intros (_ & H1 & H2 & _ & H4) Hno Hstage.
  apply stageOf_failed in Hstage as [H | [H | H]]; try congruence.
  now apply Hno, H4.
Qed.

Lemma run_not_failed (render p p' : PageState) (t : list Event) :
  anyError (steps p) = false ->
  initiateProcessing env filename render p = Some (p', t) ->
  generateFinalVideo env filename = true ->
  forall l, In l (shownSteps t) -> stageOf l <> Failed.
Proof.
  intros Hclean Hrun Hgen l Hin.
  pose proof (run_errors render p p' t Hclean Hrun) as Hall.
  rewrite List.Forall_forall in Hall.
  apply explained_not_failed with (t := t); [now apply Hall|].
  intros Hrej. apply (rendering_settled render p p' t Hrun) in Hrej. congruence.
Qed.

(** *** When the final video never comes *)

(** C3, as stated, fails: with the rendering started and a final video
    that never comes, no step list the page is given is failed. *)
Lemma C3_counterexample : ~ renderExhaustionFails envFinalNever "clip.mp4".
Proof.
  intros H.
  destruct (initiateProcessing envFinalNever "clip.mp4" initialPage initialPage)
    as [[p t]|] eqn:Hrun; [|vm_compute in Hrun; discriminate].
  pose proof Hrun as Hlog. vm_compute in Hlog. injection Hlog as _ <-.
  destruct (H (fun _ _ => I) _ _ Hrun) as (l & Hin & Hstage); [vm_compute; tauto|].
  vm_compute in Hin.
  repeat (destruct Hin as [<- | Hin]; [vm_compute in Hstage; discriminate Hstage|]).
  destruct Hin.
Qed.

(** The rendering step of a displayed list is not at 100, and not marked
    completed when every poll is rejected. *)
Local Abbreviation renderingOpen l :=
  (progressAt 4 l <> Some 100
   /\ ((forall k, (1 <= k <= maxFinalVideoAttempts)%nat ->
          getFinalVideoUrl env filename k = None) ->
       hasStatus 4 completed l = false)).

(** The rendering step as the page shows it last: at 95, and in progress
    when every poll is rejected. *)
Local Abbreviation renderingLeft l :=
  (progressAt 4 l = Some 95
   /\ ((forall k, (1 <= k <= maxFinalVideoAttempts)%nat ->
          getFinalVideoUrl env filename k = None) ->
       hasStatus 4 processing l = true)).

Lemma hasStatus_setStep_here i st pr l :
  (i < length l)%nat -> hasStatus i st (setStep i st pr l) = true.
Proof.
  intros H. rewrite hasStatus_setStep_eq.
  destruct (lookup_lt_is_Some_2 l i H) as [s ->]. now destruct st.
Qed.

Lemma renderingProgress_last : renderingProgress maxFinalVideoAttempts = 95.
Proof. reflexivity. Qed.

(** What the page displays when the rendering has started and no poll of
    the final video is answered with a value. *)
Lemma exhaustion_display (render p p' : PageState) (t : list Event) :
  (forall k, (1 <= k <= maxFinalVideoAttempts)%nat ->
     notReady (getFinalVideoUrl env filename k)) ->
  initiateProcessing env filename render p = Some (p', t) ->
  length (steps p) = 5%nat ->
  renderingOpen (steps p) ->
  In (Resolved (GenerateFinalVideo filename)) t ->
  List.Forall (fun l => renderingOpen l) (displayed t)
  /\ forall d, renderingLeft (List.last (displayed t) d).
Proof.
  intros Hnever Hrun Hlen Hopen Hin.
  unshelve epose proof (initiate_rounds env filename render
    (fun a l t =>
       length l = 5%nat -> (a <= maxFinalVideoAttempts)%nat ->
       (a = maxFinalVideoAttempts -> progressAt 4 l = Some 95) ->
       ((forall k, (1 <= k <= maxFinalVideoAttempts)%nat ->
           getFinalVideoUrl env filename k = None) ->
        hasStatus 4 processing l = true) ->
       renderingOpen l ->
       List.Forall (fun l' => renderingOpen l') (displayedFrom None t)
       /\ renderingLeft (List.last (displayedFrom None t) l))
    (fun _ l t =>
       length l = 5%nat -> hasStatus 4 processing l = true -> renderingOpen l ->
       In (Resolved (GenerateFinalVideo filename)) t ->
       List.Forall (fun l' => renderingOpen l') (displayedFrom (Some l) t)
       /\ forall d, renderingLeft (List.last (displayedFrom (Some l) t) d))
    (fun _ l t =>
       length l = 5%nat -> renderingOpen l ->
       In (Resolved (GenerateFinalVideo filename)) t ->
       List.Forall (fun l' => renderingOpen l') (displayedFrom None t)
       /\ forall d, renderingLeft (List.last (displayedFrom None t) d))
    _ _ _ _ _ _ _ _ _ _ _ p p' t Hrun) as Hlog; cbv beta.
  - (* the polls run out: the page leaves before it renders *)
    intros a l Hge Hl Hle Hlast Hproc HQ. display_front.
    split; [constructor|]. cbn [List.last]. split; [apply Hlast; lia | exact Hproc].
  - (* the final video is ready *)
    intros a l data Hlt Hpoll. exfalso.
    assert (Hn := Hnever (S a) ltac:(lia)). rewrite Hpoll in Hn. exact Hn.
  - (* the poll resolves with null *)
    intros a l t0 Hlt Hpoll IH Hl Hle Hlast Hproc (Hp & Hc). display_front.
    rewrite last_cons.
    assert (Hnone : ~ (forall k, (1 <= k <= maxFinalVideoAttempts)%nat ->
                         getFinalVideoUrl env filename k = None)).
    { intros Hr. rewrite Hr in Hpoll by lia. discriminate. }
    assert (HQ : renderingOpen
                   (setProgress 4 (renderingProgress (S a)) (setStep 4 completed 100 l))).
    { split; [|intros Hr; now destruct Hnone].
      progress_simpl. pose proof (renderingProgress_range (S a)).
      intros [= E]. lia. }
    destruct IH as [IHall IHlast]; [length_goal | lia | | | exact HQ |].
    { intros E. progress_simpl. now rewrite E, renderingProgress_last. }
    { intros Hr. now destruct Hnone. }
    split; [constructor; assumption | exact IHlast].
  - (* the poll is rejected *)
    intros a l t0 Hlt Hpoll IH Hl Hle Hlast Hproc (Hp & Hc). display_front.
    rewrite last_cons.
    assert (HQ : renderingOpen (setProgress 4 (renderingProgress (S a)) l)).
    { split.
      - progress_simpl. pose proof (renderingProgress_range (S a)).
        intros [= E]. lia.
      - intros Hr. rewrite hasStatus_setProgress. now apply Hc. }
    destruct IH as [IHall IHlast]; [length_goal | lia | | | exact HQ |].
    { intros E. progress_simpl. now rewrite E, renderingProgress_last. }
    { intros Hr. rewrite hasStatus_setProgress. now apply Hproc. }
    split; [constructor; assumption | exact IHlast].
  - (* the rendering does not start *)
    intros b l Hgen Hl Hproc HQ Hr. exfalso.
    cbn [In toastRenderingError] in Hr. intuition discriminate.
  - (* the rendering starts *)
    intros b l t0 Hgen IH Hl Hproc HQ _. display_front.
    destruct IH as [IHall IHlast];
      [exact Hl | lia | intros [=] | now intros _ | exact HQ |].
    split; [constructor; assumption | intros d; rewrite last_cons; exact IHlast].
  - (* the transcript polls run out *)
    intros a l Hge Hl HQ Hr. exfalso.
    cbn [In toastTranscriptWarning] in Hr. intuition discriminate.
  - (* the transcript is not there yet *)
    intros a l t0 Hlt Hpoll IH Hl (Hp & Hc) Hr.
    apply in_app_or in Hr as [Hr | Hr]; [exfalso; cbn [In] in Hr; intuition discriminate|].
    display_front.
    assert (HQ : renderingOpen (stepsRetry a l)).
    { split; [progress_simpl; exact Hp|]. intros Hall. status_simpl. now apply Hc. }
    destruct IH as [IHall IHlast]; [length_goal | exact HQ | exact Hr |].
    split; [constructor; assumption | intros d; rewrite last_cons; apply IHlast].
  - (* the B-roll flag of the render is set *)
    intros a l transcript Hlt Hpoll Hflag Hl HQ Hr. exfalso.
    cbn [In] in Hr. intuition discriminate.
  - (* a transcript without text *)
    intros a l transcript t0 Hlt Hpoll Hflag Htext IH Hl (Hp & Hc) Hr.
    apply in_app_or in Hr as [Hr | Hr]; [exfalso; cbn [In] in Hr; intuition discriminate|].
    display_front.
    assert (HQ : renderingOpen (stepsRetry a (stepsReady l))).
    { split; [progress_simpl; exact Hp|]. intros Hall. status_simpl. now apply Hc. }
    destruct IH as [IHall IHlast]; [length_goal | exact HQ | exact Hr |].
    split; [constructor; assumption | intros d; rewrite last_cons; apply IHlast].
  - (* a transcript with text *)
    intros a l transcript text t0 Hlt Hpoll Hflag Htext IH Hl (Hp & Hc) Hr.
    apply in_app_or in Hr as [Hr | Hr].
    { exfalso. destruct (getBRoll env (brollPrompt text));
        cbn [In] in Hr; intuition discriminate. }
    assert (HQ : renderingOpen (stepsReady l)).
    { split; [progress_simpl; exact Hp|]. intros Hall. status_simpl. now apply Hc. }
    assert (HQ' : renderingOpen
                    (stepsAfterBRoll (getBRoll env (brollPrompt text)) (stepsReady l))).
    { split; [progress_simpl; discriminate|]. intros Hall. now status_simpl. }
    destruct IH as [IHall IHlast]; [length_goal | | exact HQ' | exact Hr |].
    { unfold stepsAfterBRoll. apply hasStatus_setStep_here. length_goal. }
    destruct (getBRoll env (brollPrompt text)); display_front.
    all: split; [constructor; assumption | intros d; rewrite last_cons; apply IHlast].
  - (* the whole run *)
    destruct Hlog as [-> | [-> | (t' & -> & Ht')]].
    + destruct Hin.
    + exfalso. cbn [In toastProcessingError] in Hin. intuition discriminate.
    + apply in_app_or in Hin as [Hin | Hin];
        [exfalso; cbn [In] in Hin; intuition discriminate|].
      unfold displayed. display_front. now apply Ht'.
Qed.

(** What the page displays is among what its updaters returned. *)
Lemma displayed_written (t : list Event) : forall pending l,
  In l (displayedFrom pending t) -> pending = Some l \/ In l (shownSteps t).
Proof.
  induction t as [|e t IH]; intros pending l Hin.
  - destruct pending as [l'|]; cbn [displayedFrom flush In] in Hin; [|destruct Hin].
    destruct Hin as [-> | []]. now left.
  - destruct e; cbn [displayedFrom shownSteps] in *;
      try (destruct (delay =? 0); [destruct Hin|]);
      try (apply in_app_or in Hin as [Hin | Hin];
           [destruct pending as [l'|]; cbn [flush In] in Hin;
            [destruct Hin as [-> | []]; now left | destruct Hin]|]);
      try (apply IH in Hin as [[= <-] | Hin]; cbn [In]; auto; fail);
      try (apply IH in Hin as [[=] | Hin]; cbn [In]; auto; fail).
Qed.

Lemma displayed_shown (t : list Event) (l : list ProcessingStep) :
  In l (displayed t) -> In l (shownSteps t).
Proof. intros H. now apply displayed_written in H as [[=] | H]. Qed.

(** C3, as amended: when the rendering has started and none of the 30
    polls of the final video is answered with a value, the run ends after
    the thirtieth poll with a warning toast and an immediate navigation to
    the preview under the identifier derived from the file name.  No step
    list the page is given is failed; the page never displays the rendering
    step at 100, and leaves with it displayed at 95, and in progress when
    every poll was rejected: the job is neither failed nor shown as
    completed then. *)
Theorem C3_render_exhaustion :
  (forall k, (1 <= k <= maxFinalVideoAttempts)%nat ->
     notReady (getFinalVideoUrl env filename k)) ->
  exists p t,
    initiateProcessing env filename initialPage initialPage = Some (p, t)
    /\ (In (Resolved (GenerateFinalVideo filename)) t ->
        In toastRenderingWarning t
        /\ invocations isGetFinalVideoUrl t = maxFinalVideoAttempts
        /\ navigations t = [previewPath (getShareableId filename)]
        /\ In (Navigate (previewPath (getShareableId filename)) 0) t
        /\ (forall l, In l (shownSteps t) -> stageOf l <> Failed)
        /\ (forall l, In l (displayed t) -> progressAt 4 l <> Some 100)
        /\ progressAt 4 (List.last (displayed t) initialSteps) = Some 95
        /\ stageOf (List.last (displayed t) initialSteps) <> Failed
        /\ ((forall k, (1 <= k <= maxFinalVideoAttempts)%nat ->
               getFinalVideoUrl env filename k = None) ->
            (forall l, In l (displayed t) -> stageOf l <> Completed)
            /\ stageOf (List.last (displayed t) initialSteps) = Compositing)).
Proof.
  intros Hnever.
  destruct (run_outcome env filename initialPage initialPage eq_refl)
    as (p & t & Hrun & Hout).
  exists p, t. split; [exact Hrun|]. intros Hin.
  pose proof (rendering_settled _ _ _ _ Hrun) as [_ Hgen]. specialize (Hgen Hin).
  pose proof (run_not_failed initialPage initialPage p t eq_refl Hrun Hgen) as Hwritten.
  destruct (exhaustion_display initialPage initialPage p t Hnever Hrun eq_refl)
    as [Hall Hlast];
    [split; [discriminate | reflexivity] | exact Hin |].
  rewrite List.Forall_forall in Hall.
  assert (Hlog : In toastRenderingWarning t
                 /\ invocations isGetFinalVideoUrl t = maxFinalVideoAttempts
                 /\ navigations t = [previewPath (getShareableId filename)]
                 /\ In (Navigate (previewPath (getShareableId filename)) 0) t).
  { assert (Hq : forall pre, forallb transcriptPollEvent pre = true ->
                   ~ In (Resolved (GenerateFinalVideo filename)) pre).
    { intros pre Hpre H. now apply (transcriptPoll_events pre _ Hpre) in H. }
    clear Hwritten Hall Hlast.
    destruct Hout as [ p Hc Hs | p pre Hc [Hpre _] Hnone Hcount Hsteps Hidx
                     | p pre Hc Hflag [Hpre _] He Hs
                     | p pre k' tr text' Hc Hflag [Hpre _] He Hi Hfirst' Hgen' Hs
                     | p pre k' tr text' pre' path d Hc Hflag [Hpre _] He Hi Hfirst' Hgen'
                         (Hpre' & _ & Hcase) Hs ].
    - exfalso. simpl in Hin. intuition discriminate.
    - exfalso. apply in_app_or in Hin as [Hin | Hin]; [simpl in Hin; intuition discriminate|].
      apply in_app_or in Hin as [Hin | Hin]; [now apply (Hq pre)|].
      simpl in Hin. intuition discriminate.
    - exfalso. apply in_app_or in Hin as [Hin | Hin]; [simpl in Hin; intuition discriminate|].
      now apply (Hq pre).
    - congruence.
    - destruct Hcase as [(m & data & Hm & _ & Hsome & _) | (_ & -> & -> & Hcount & Htoast)].
      { assert (Hn := Hnever m Hm). rewrite Hsome in Hn. destruct Hn. }
      split; [|split; [|split]].
      + do 4 (apply in_or_app; right). apply in_or_app. now left.
      + rewrite !invocations_app, Hcount,
          (transcriptRounds_invocations isGetFinalVideoUrl pre Hpre) by now intros [].
        unfold brollEvents. now destruct (getBRoll env (brollPrompt text')).
      + rewrite !navigations_app, (transcriptRounds_navigations pre Hpre),
          (finalRounds_navigations pre' Hpre').
        unfold brollEvents. now destruct (getBRoll env (brollPrompt text')).
      + do 5 (apply in_or_app; right). cbn [In]. tauto. }
  destruct Hlog as (Htoast & Hcount & Hnav & Hleave).
  split; [exact Htoast|]. split; [exact Hcount|]. split; [exact Hnav|].
  split; [exact Hleave|]. split; [exact Hwritten|].
  split; [intros l Hl; now apply Hall|].
  split; [apply Hlast|].
  split.
  { apply last_Forall with (P := fun l => stageOf l <> Failed); [|discriminate].
    apply List.Forall_forall. intros l Hl. now apply Hwritten, displayed_shown. }
  intros Hrejected.
  assert (Hopen : forall l, In l (displayed t) -> stageOf l <> Completed).
  { intros l Hl Hstage. apply stageOf_completed in Hstage.
    destruct (Hall l Hl) as [_ Hc]. rewrite Hc in Hstage by exact Hrejected. discriminate. }
  split; [exact Hopen|].
  destruct (Hlast initialSteps) as [_ Hproc]. specialize (Hproc Hrejected).
  assert (Hnf : stageOf (List.last (displayed t) initialSteps) <> Failed).
  { apply last_Forall with (P := fun l => stageOf l <> Failed); [|discriminate].
    apply List.Forall_forall. intros l Hl. now apply Hwritten, displayed_shown. }
  assert (Hnc : hasStatus 4 completed (List.last (displayed t) initialSteps) = false).
  { apply last_Forall
      with (P := fun l => hasStatus 4 completed l = false); [|reflexivity].
    apply List.Forall_forall. intros l Hl. destruct (Hall l Hl) as [_ Hc]. now apply Hc. }
  revert Hnf Hproc Hnc. generalize (List.last (displayed t) initialSteps). intros l.
  unfold stageOf.
  destruct (hasStatus 1 error l || hasStatus 2 error l || hasStatus 4 error l);
    [congruence|].
  now intros _ -> ->.
Qed.

(** *** When the B-roll call is rejected *)

(** C2, as stated, fails: with the B-roll call and the start of the
    rendering both rejected, no step list the page is given is completed,
    and the last one is failed. *)
Lemma C2_counterexample : ~ brollFailureCompletes envBRollAndRenderRejected "clip.mp4".
Proof.
  intros H.
  assert (Hfirst : firstUsable envBRollAndRenderRejected "clip.mp4" 1
                     (TString "A day at the beach. We swim.")
                     "A day at the beach. We swim.").
  { split; [unfold maxAttempts; lia|]. split; [intros j Hj; lia|]. split; reflexivity. }
  destruct (H eq_refl 1%nat _ _ Hfirst eq_refl) as (p & t & Hrun & _ & (l & Hin & Hstage) & _).
  vm_compute in Hrun. injection Hrun as _ <-.
  vm_compute in Hin.
  repeat (destruct Hin as [<- | Hin]; [vm_compute in Hstage; discriminate Hstage|]).
  destruct Hin.
Qed.

(** What the page displays around the B-roll step and at the end of the
    run, when a transcript with a usable text arrives within the budget. *)
Lemma broll_display (render p p' : PageState) (t : list Event)
    (k : nat) (transcript : Transcript) (text : string) :
  initiateProcessing env filename render p = Some (p', t) ->
  isProcessingStarted render = false ->
  isBrollProcessing render = false ->
  generateCaptions env filename = true ->
  firstUsable env filename k transcript text ->
  In (stepsAfterBRoll (getBRoll env (brollPrompt text)) (stepsReady (steps p)))
    (displayed t)
  /\ (generateFinalVideo env filename = false ->
      forall d, List.last (displayed t) d
                = setStep 4 error 100
                    (stepsAfterBRoll (getBRoll env (brollPrompt text))
                       (stepsReady (steps p))))
  /\ (generateFinalVideo env filename = true ->
      forall m data, firstReady env filename m data ->
      forall d, List.last (displayed t) d
                = setStep 4 completed 100
                    (stepsAfterBRoll (getBRoll env (brollPrompt text))
                       (stepsReady (steps p)))).
Proof.
  intros Hrun Hstarted Hflag Hcaptions (Hk & Hbefore & Hpollk & Htextk).
  rewrite initiate_unroll, Hstarted, Hcaptions in Hrun.
  apply prefixed_Some in Hrun as (t1 & Hrun & ->).
  unfold displayed. display_front.
  change (steps p) with (steps (withStarted p true)).
  set (l0 := steps (withStarted p true)).
  set (L := stepsAfterBRoll (getBRoll env (brollPrompt text)) (stepsReady l0)).
  unshelve epose proof (checkTranscript_rounds env filename render
    (fun a l t =>
       forall m data, firstReady env filename m data -> (a < m)%nat ->
       List.last (displayedFrom None t) l = setStep 4 completed 100 l)
    (fun _ l t =>
       In l (displayedFrom (Some l) t)
       /\ (generateFinalVideo env filename = false ->
           forall d, List.last (displayedFrom (Some l) t) d = setStep 4 error 100 l)
       /\ (generateFinalVideo env filename = true ->
           forall m data, firstReady env filename m data ->
           forall d, List.last (displayedFrom (Some l) t) d = setStep 4 completed 100 l))
    (fun a l t =>
       (a < k)%nat -> stepsReady l = stepsReady l0 ->
       In L (displayedFrom None t)
       /\ (generateFinalVideo env filename = false ->
           forall d, List.last (displayedFrom None t) d = setStep 4 error 100 L)
       /\ (generateFinalVideo env filename = true ->
           forall m data, firstReady env filename m data ->
           forall d, List.last (displayedFrom None t) d = setStep 4 completed 100 L))
    _ _ _ _ _ _ _ _ _ _ _ (S maxAttempts) 0%nat (withStarted p true) p' t1 Hrun) as Hlog;
    cbv beta.
  - (* the polls run out *)
    intros a l Hge m data (Hm & _) Hlt. lia.
  - (* the final video is ready *)
    intros a l data Hlt Hpoll m data' _ _. reflexivity.
  - (* the poll resolves with null *)
    intros a l t0 Hlt Hpoll IH m data Hfirst Ham. display_front. rewrite last_cons.
    assert (S a <> m).
    { intros <-. destruct Hfirst as (_ & _ & Hsome). congruence. }
    rewrite (IH m data Hfirst) by lia.
    now rewrite setStep_setProgress, setStep_setStep.
  - (* the poll is rejected *)
    intros a l t0 Hlt Hpoll IH m data Hfirst Ham. display_front. rewrite last_cons.
    assert (S a <> m).
    { intros <-. destruct Hfirst as (_ & _ & Hsome). congruence. }
    rewrite (IH m data Hfirst) by lia.
    now rewrite setStep_setProgress.
  - (* the rendering does not start *)
    intros b l Hgen. display_front. cbn [In]. split; [now left|].
    split; [reflexivity | congruence].
  - (* the rendering starts *)
    intros b l t0 Hgen IH. display_front. cbn [In]. split; [now left|].
    split; [congruence|]. intros _ m data Hfirst d. rewrite last_cons.
    apply (IH m data Hfirst). destruct Hfirst as (Hm & _). lia.
  - (* the transcript polls run out *)
    intros a l Hge Hlt. lia.
  - (* the transcript is not there yet *)
    intros a l t0 Hlt Hpoll IH Hak Hl. display_front.
    assert (S a <> k) by (intros <-; congruence).
    destruct IH as (Hin & Hrej & Hdone); [lia | now rewrite stepsReady_retry |].
    split; [now right|].
    split; [intros Hgen d; rewrite last_cons; now apply Hrej|].
    intros Hgen m data Hfirst d. rewrite last_cons. now apply (Hdone Hgen m data).
  - (* the B-roll flag of the render is set *)
    intros a l tr _ _ Hset. congruence.
  - (* a transcript without text *)
    intros a l tr t0 Hlt Hpoll _ Htext IH Hak Hl. display_front.
    assert (S a <> k) by (intros <-; congruence).
    destruct IH as (Hin & Hrej & Hdone);
      [lia | now rewrite stepsReady_retry, stepsReady_ready |].
    split; [now right|].
    split; [intros Hgen d; rewrite last_cons; now apply Hrej|].
    intros Hgen m data Hfirst d. rewrite last_cons. now apply (Hdone Hgen m data).
  - (* a transcript with text *)
    intros a l tr text' t0 Hlt Hpoll _ Htext (Hin & Hrej & Hdone) Hak Hl.
    assert (S a = k) as Ek.
    { destruct (Nat.eq_dec (S a) k) as [E | Hne]; [exact E|]. exfalso.
      assert (Hun := Hbefore (S a) ltac:(lia)). rewrite Hpoll in Hun.
      cbn [unusable] in Hun. congruence. }
    rewrite Ek in Hpoll. assert (tr = transcript) as -> by congruence.
    assert (text' = text) as -> by congruence.
    rewrite Hl in *. fold L in Hin, Hrej, Hdone |- *.
    assert (Hfront : forall rest,
              displayedFrom None
                ([Invoke (GetTranscript filename); Resolved (GetTranscript filename);
                  SetSteps (stepsReady l0); SetCurrentStepIndex 3;
                  SetIsBrollProcessing true; Invoke (GetBRoll (brollPrompt text));
                  (if getBRoll env (brollPrompt text)
                   then Resolved (GetBRoll (brollPrompt text))
                   else Rejected (GetBRoll (brollPrompt text)));
                  SetSteps L; SetCurrentStepIndex 4] ++ rest)
              = stepsReady l0 :: displayedFrom (Some L) rest).
    { intros rest. now destruct (getBRoll env (brollPrompt text)). }
    rewrite Hfront.
    split; [now right|].
    split; [intros Hgen d; rewrite last_cons; now apply Hrej|].
    intros Hgen m data Hfirst d. rewrite last_cons. now apply (Hdone Hgen m data).
  - (* the whole run *)
    apply Hlog; [lia | reflexivity].
Qed.

(** C2, as amended: when captions start, a transcript with a usable text
    arrives within the budget and the one B-roll call made for it is
    rejected, the B-roll step is written, and displayed, as an error with
    the rendering step in progress, and the next adapter call is
    [generateFinalVideo]: the rejected B-roll call does not fail the job.
    What the job ends as is decided by the rendering.  When
    [generateFinalVideo] is rejected, the last step list the page displays
    is failed.  When it resolves, no step list the page is given is failed,
    and when a poll of the final video is answered with a value within the
    budget, the last step list the page displays is completed, with the
    B-roll step still an error.  Either way the run navigates to the
    preview once. *)
Theorem C2_broll_failure (k : nat) (transcript : Transcript) (text : string) :
  generateCaptions env filename = true ->
  firstUsable env filename k transcript text ->
  getBRoll env (brollPrompt text) = false ->
  exists p t,
    initiateProcessing env filename initialPage initialPage = Some (p, t)
    /\ (exists pre l tl,
          t = pre ++ [Invoke (GetBRoll (brollPrompt text));
                      Rejected (GetBRoll (brollPrompt text));
                      SetSteps l; SetCurrentStepIndex 4;
                      Invoke (GenerateFinalVideo filename)] ++ tl
          /\ stageOf l = Compositing /\ degraded l = true
          /\ In l (displayed t))
    /\ invocations isGetBRoll t = 1%nat
    /\ existsb (resolves isGetBRoll) t = false
    /\ length (navigations t) = 1%nat
    /\ (generateFinalVideo env filename = false ->
        stageOf (List.last (displayed t) initialSteps) = Failed
        /\ degraded (List.last (displayed t) initialSteps) = true)
    /\ (generateFinalVideo env filename = true ->
        (forall l, In l (shownSteps t) -> stageOf l <> Failed)
        /\ stageOf (List.last (displayed t) initialSteps) <> Failed
        /\ forall m data, firstReady env filename m data ->
             stageOf (List.last (displayed t) initialSteps) = Completed
             /\ degraded (List.last (displayed t) initialSteps) = true).
Proof.
  intros Hcap Hfirst Hbroll.
  destruct (run_outcome env filename initialPage initialPage eq_refl)
    as (p & t & Hrun & Hout).
  exists p, t. split; [exact Hrun|].
  destruct (broll_display initialPage initialPage p t k transcript text
              Hrun eq_refl eq_refl Hcap Hfirst) as (Hshown & Hrej & Hdone).
  rewrite Hbroll in Hshown, Hrej, Hdone. cbn [steps initialPage] in Hshown, Hrej, Hdone.
  assert (Hwritten : generateFinalVideo env filename = true ->
                     forall l, In l (shownSteps t) -> stageOf l <> Failed).
  { intros Hgen. exact (run_not_failed initialPage initialPage p t eq_refl Hrun Hgen). }
  assert (Hends : (generateFinalVideo env filename = false ->
                   stageOf (List.last (displayed t) initialSteps) = Failed
                   /\ degraded (List.last (displayed t) initialSteps) = true)
                  /\ (generateFinalVideo env filename = true ->
                      (forall l, In l (shownSteps t) -> stageOf l <> Failed)
                      /\ stageOf (List.last (displayed t) initialSteps) <> Failed
                      /\ forall m data, firstReady env filename m data ->
                           stageOf (List.last (displayed t) initialSteps) = Completed
                           /\ degraded (List.last (displayed t) initialSteps) = true)).
  { split.
    - intros Hgen. rewrite (Hrej Hgen). split; reflexivity.
    - intros Hgen. split; [exact (Hwritten Hgen)|]. split.
      + apply last_Forall with (P := fun l => stageOf l <> Failed); [|discriminate].
        apply List.Forall_forall. intros l Hl. now apply (Hwritten Hgen), displayed_shown.
      + intros m data Hready. rewrite (Hdone Hgen m data Hready). split; reflexivity. }
  clear Hrej Hdone Hwritten.
  assert (Hquiet : forall e, transcriptPollEvent e = true -> resolves isGetBRoll e = false)
    by (intros [[]| []| | | | | | | |]; simpl; congruence).
  assert (Hquiet' : forall e, finalPollEvent e = true -> resolves isGetBRoll e = false)
    by (intros [[]| []| | | | | | | |]; simpl; congruence).
  destruct Hout as [ p Hc Hs | p pre Hc [Hpre _] Hnone Hcount Hsteps Hidx
                   | p pre Hc Hflag Hr He Hs
                   | p pre k' tr text' Hc Hflag [Hpre _] He Hi Hfirst' Hgen Hs
                   | p pre k' tr text' pre' path d Hc Hflag [Hpre _] He Hi Hfirst' Hgen
                       (Hpre' & _ & _) Hs ].
  - congruence.
  - exfalso. destruct Hfirst as (Hk & _ & Hsome & Htext).
    specialize (Hnone k Hk). simpl in Hnone. rewrite Hsome in Hnone. simpl in Hnone. congruence.
  - discriminate.
  - destruct (firstUsable_unique _ _ _ _ _ _ _ _ Hfirst Hfirst') as (<- & <- & <-).
    unfold brollEvents in *. rewrite Hbroll in *. cbn [steps initialPage] in *.
    split; [|split; [|split; [|split]]].
    + eexists (_ ++ pre), _, _. split; [rewrite <- app_assoc; reflexivity|].
      split; [reflexivity|]. split; [reflexivity | exact Hshown].
    + rewrite !invocations_app, (transcriptRounds_invocations isGetBRoll pre Hpre)
        by now intros []. reflexivity.
    + rewrite !existsb_app, (existsb_quiet _ _ pre Hpre Hquiet). reflexivity.
    + rewrite !navigations_app, (transcriptRounds_navigations pre Hpre). reflexivity.
    + exact Hends.
  - destruct (firstUsable_unique _ _ _ _ _ _ _ _ Hfirst Hfirst') as (<- & <- & <-).
    unfold brollEvents in *. rewrite Hbroll in *. cbn [steps initialPage] in *.
    split; [|split; [|split; [|split]]].
    + eexists (_ ++ pre), _, _. split; [rewrite <- app_assoc; reflexivity|].
      split; [reflexivity|]. split; [reflexivity | exact Hshown].
    + rewrite !invocations_app, (transcriptRounds_invocations isGetBRoll pre Hpre),
        (finalRounds_invocations isGetBRoll pre' Hpre') by now intros []. reflexivity.
    + rewrite !existsb_app, (existsb_quiet _ _ pre Hpre Hquiet),
        (existsb_quiet _ _ pre' Hpre' Hquiet'). reflexivity.
    + rewrite !navigations_app, (transcriptRounds_navigations pre Hpre),
        (finalRounds_navigations pre' Hpre'). reflexivity.
    + exact Hends.
Qed.
Lemma transcriptProgress_mono a : transcriptProgress a <= transcriptProgress (S a).
Proof. unfold transcriptProgress. lia. Qed.

Lemma renderingProgress_mono a : renderingProgress a <= renderingProgress (S a).
Proof.
  unfold renderingProgress, maxFinalVideoAttempts.
  assert (Z.of_nat a * 85 / 30 <= Z.of_nat (S a) * 85 / 30)
    by (apply Z.div_le_mono; lia).
  change (Z.of_nat 30) with 30. lia.
Qed.

Ltac five_steps H :=
  destruct H as (s0 & s1 & s2 & s3 & s4 & -> & Hb1 & Hb2 & Hb3 & Hb4).

Ltac steps_simpl :=
  unfold stepsRetry, stepsReady, stepsSkipped, stepsAfterBRoll, setStep, setProgress;
  cbn [alter list_alter assign assignProgress progress noStepBack].

Ltac steps_goal :=
  steps_simpl;
  repeat match goal with
         | |- fiveSteps _ _ _ _ _ =>
             do 5 eexists; split; [reflexivity|]; cbn [progress assign assignProgress]
         | |- _ /\ _ => split
         | |- _ && _ = true => apply andb_true_intro; split
         | |- (_ <=? _) = true => apply Z.leb_le
         end;
  try lia.

(** *** The progress on display *)

(** X14: no step the page displays in a run from the initial step list
    ever shows less progress than it displayed before, whatever the
    adapter calls answer. *)
Theorem run_never_steps_back (render p : PageState) :
  steps p = initialSteps ->
  exists p' t,
    initiateProcessing env filename render p = Some (p', t)
    /\ advancing initialSteps (displayed t) = true.
Proof.
  intros Hsteps.
  destruct (run_total render p) as (p' & t & Hrun). exists p', t.
  split; [exact Hrun|].
  unshelve epose proof (initiate_rounds env filename render
    (fun a l t => fiveSteps 100 100 100 (renderingProgress (S a)) l ->
                  advancing l (displayedFrom None t) = true)
    (fun _ l t => fiveSteps 100 100 100 10 l ->
                  forall d, noStepBack d l = true ->
                  advancing d (displayedFrom (Some l) t) = true)
    (fun a l t => fiveSteps (transcriptProgress (S a)) 100 0 0 l ->
                  advancing l (displayedFrom None t) = true)
    _ _ _ _ _ _ _ _ _ _ _ p p' t Hrun) as Hlog; cbv beta.
  - (* the polls run out: nothing more is displayed *)
    intros a l _ H. reflexivity.
  - (* the final video is ready *)
    intros a l data _ _ H. five_steps H. display_front. cbn [advancing].
    pose proof (renderingProgress_range (S a)). steps_goal.
  - (* the poll resolves with null *)
    intros a l t0 _ _ IH H. five_steps H. display_front. cbn [advancing].
    apply andb_true_intro. split; [steps_goal|].
    apply IH. pose proof (renderingProgress_mono (S a)). steps_goal.
  - (* the poll is rejected *)
    intros a l t0 _ _ IH H. five_steps H. display_front. cbn [advancing].
    apply andb_true_intro. split; [steps_goal|].
    apply IH. pose proof (renderingProgress_mono (S a)). steps_goal.
  - (* the rendering does not start *)
    intros b l _ H d Hd. five_steps H. display_front. cbn [advancing].
    rewrite Hd. steps_goal.
  - (* the rendering starts *)
    intros b l t0 _ IH H d Hd. display_front. cbn [advancing]. rewrite Hd.
    apply IH. five_steps H. change (renderingProgress 1) with 12. steps_goal.
  - (* the transcript polls run out *)
    intros a l _ H. five_steps H. display_front. cbn [advancing].
    pose proof (transcriptProgress_range (S a)). steps_goal.
  - (* the transcript is not there yet *)
    intros a l t0 _ _ IH H. five_steps H. display_front. cbn [advancing].
    apply andb_true_intro. split; [steps_goal|].
    apply IH. pose proof (transcriptProgress_mono (S a)). steps_goal.
  - (* the B-roll flag of the render is set *)
    intros a l transcript _ _ _ H. five_steps H. display_front. cbn [advancing].
    pose proof (transcriptProgress_range (S a)). steps_goal.
  - (* a transcript without text: the two writes are displayed as one *)
    intros a l transcript t0 _ _ _ _ IH H. five_steps H. display_front. cbn [advancing].
    pose proof (transcriptProgress_range (S a)).
    apply andb_true_intro. split; [steps_goal|].
    apply IH. pose proof (transcriptProgress_mono (S a)). steps_goal.
  - (* a transcript with text *)
    intros a l transcript text t0 _ _ _ _ IH H. five_steps H.
    pose proof (transcriptProgress_range (S a)).
    destruct (getBRoll env (brollPrompt text)); display_front; cbn [advancing].
    all: apply andb_true_intro; split; [steps_goal|].
    all: apply IH; steps_goal.
  - (* the whole run *)
    destruct Hlog as [-> | [-> | (t' & -> & Ht')]]; try reflexivity.
    unfold displayed. display_front.
    rewrite <- Hsteps at 1. apply Ht'. rewrite Hsteps.
    unfold initialSteps. change (transcriptProgress 1) with 15. steps_goal.
Qed.

(** X15: when the first transcript resolves without a usable text, the
    two step lists written in that tick are displayed as one: the page
    goes from the initial display, 20% overall, to the transcription step
    marked completed at 15%, 43% overall; the list with the transcription
    at 100%, 60% overall, is written first and replaced before the page
    renders. *)
Theorem unusable_transcript_display (render p : PageState) (transcript : Transcript) :
  isProcessingStarted render = false ->
  isBrollProcessing render = false ->
  generateCaptions env filename = true ->
  getTranscript env filename 1 = Some transcript ->
  transcriptText transcript = None ->
  steps p = initialSteps ->
  exists p' t written rest,
    initiateProcessing env filename render p = Some (p', t)
    /\ shownSteps t
       = stepsReady initialSteps :: stepsRetry 0 (stepsReady initialSteps) :: written
    /\ displayed t = stepsRetry 0 (stepsReady initialSteps) :: rest
    /\ overallProgress initialSteps = 20
    /\ overallProgress (stepsReady initialSteps) = 60
    /\ overallProgress (stepsRetry 0 (stepsReady initialSteps)) = 43
    /\ hasStatus 1 completed (stepsRetry 0 (stepsReady initialSteps)) = true
    /\ progressAt 1 (stepsRetry 0 (stepsReady initialSteps)) = Some 15.
Proof.
  intros Hstarted Hflag Hcaptions Hpoll Htext Hsteps.
  destruct (run_total render p) as (p' & t & Hrun). exists p', t.
  pose proof Hrun as Hlog. rewrite initiate_unroll, Hstarted, Hcaptions in Hlog.
  apply prefixed_Some in Hlog as (t1 & Hlog & ->).
  change (S maxAttempts) with (S (S (pred maxAttempts))) in Hlog.
  rewrite checkTranscript_unroll in Hlog.
  change (maxAttempts <=? 0)%nat with false in Hlog.
  rewrite Hpoll, Hflag, Htext in Hlog.
  apply prefixed_Some in Hlog as (t2 & _ & ->).
  exists (shownSteps t2), (displayedFrom None t2). split; [exact Hrun|].
  cbn [steps withStarted] in *. rewrite Hsteps.
  rewrite !shownSteps_app. unfold displayed. display_front. cbn [shownSteps app].
  repeat split; reflexivity.
Qed.

(** *** The identifier a job is shared under *)


End EveryRun.

(** *** The theorems on display at sample runs *)

Lemma run_errors_explained_witness :
  exists p' t,
    initiateProcessing envBRollRejected "clip_17.mp4" initialPage initialPage = Some (p', t)
    /\ List.Forall (errorsExplained "clip_17.mp4" t) (shownSteps t).
Proof. apply (run_errors_explained envBRollRejected "clip_17.mp4" initialPage initialPage).
  reflexivity. Defined.

(** A final video that never comes: every poll is rejected. *)
Lemma C3_render_exhaustion_witness :
  exists p t,
    initiateProcessing envFinalNever "clip.mp4" initialPage initialPage = Some (p, t)
    /\ In (Resolved (GenerateFinalVideo "clip.mp4")) t
    /\ navigations t = [previewPath (getShareableId "clip.mp4")]
    /\ (forall l, In l (shownSteps t) -> stageOf l <> Failed)
    /\ progressAt 4 (List.last (displayed t) initialSteps) = Some 95
    /\ stageOf (List.last (displayed t) initialSteps) = Compositing.
Proof.
  destruct (C3_render_exhaustion envFinalNever "clip.mp4" (fun _ _ => I))
    as (p & t & Hrun & Hdone).
  exists p, t. split; [exact Hrun|].
  assert (Hin : In (Resolved (GenerateFinalVideo "clip.mp4")) t).
  { vm_compute in Hrun. injection Hrun as _ <-. vm_compute. tauto. }
  split; [exact Hin|].
  destruct (Hdone Hin) as (_ & _ & Hnav & _ & Hwritten & _ & Hlast & _ & Hrejected).
  split; [exact Hnav|]. split; [exact Hwritten|]. split; [exact Hlast|].
  exact (proj2 (Hrejected (fun _ _ => eq_refl))).
Defined.

(** A B-roll call that is rejected: with everything else succeeding at
    once, and with the start of the rendering rejected as well. *)
Lemma C2_broll_failure_witness :
  getBRoll envBRollRejected (brollPrompt "A day at the beach. We swim.") = false
  /\ (exists p t,
        initiateProcessing envBRollRejected "clip.mp4" initialPage initialPage = Some (p, t)
        /\ invocations isGetBRoll t = 1%nat
        /\ stageOf (List.last (displayed t) initialSteps) = Completed
        /\ degraded (List.last (displayed t) initialSteps) = true)
  /\ (exists p t,
        initiateProcessing envBRollAndRenderRejected "clip.mp4" initialPage initialPage
        = Some (p, t)
        /\ stageOf (List.last (displayed t) initialSteps) = Failed).
Proof.
  split; [reflexivity|].
  assert (Hfirst : forall env,
            getTranscript env "clip.mp4" 1 = Some (TString "A day at the beach. We swim.") ->
            firstUsable env "clip.mp4" 1
              (TString "A day at the beach. We swim.") "A day at the beach. We swim.").
  { intros env Hpoll. split; [unfold maxAttempts; lia|]. split; [intros j Hj; lia|].
    split; [exact Hpoll | reflexivity]. }
  split.
  - destruct (C2_broll_failure envBRollRejected "clip.mp4" 1 _ _ eq_refl
                (Hfirst envBRollRejected eq_refl) eq_refl)
      as (p & t & Hrun & _ & Hcount & _ & _ & _ & Hdone).
    exists p, t. split; [exact Hrun|]. split; [exact Hcount|].
    destruct (Hdone eq_refl) as (_ & _ & Hready).
    apply (Hready 1%nat (mkFinal None (Some "/api/final/clip_final.mp4"))).
    split; [unfold maxFinalVideoAttempts; lia|]. split; [intros j Hj; lia | reflexivity].
  - destruct (C2_broll_failure envBRollAndRenderRejected "clip.mp4" 1 _ _ eq_refl
                (Hfirst envBRollAndRenderRejected eq_refl) eq_refl)
      as (p & t & Hrun & _ & _ & _ & _ & Hfailed & _).
    exists p, t. split; [exact Hrun|]. exact (proj1 (Hfailed eq_refl)).
Defined.

(** Every poll of the final video resolves with [null]. *)
Lemma run_never_steps_back_witness :
  exists p' t,
    initiateProcessing envFinalNull "clip_17.mp4" initialPage initialPage = Some (p', t)
    /\ advancing initialSteps (displayed t) = true.
Proof.
  apply (run_never_steps_back envFinalNull "clip_17.mp4" initialPage initialPage).
  reflexivity.
Defined.

Lemma unusable_transcript_display_witness :
  exists p' t written rest,
    initiateProcessing
      (mkEnv (fun _ => true) (fun _ _ => Some TNull) (fun _ => true) (fun _ => true)
         (fun _ _ => None))
      "clip_17.mp4" initialPage initialPage = Some (p', t)
    /\ shownSteps t
       = stepsReady initialSteps :: stepsRetry 0 (stepsReady initialSteps) :: written
    /\ displayed t = stepsRetry 0 (stepsReady initialSteps) :: rest
    /\ overallProgress initialSteps = 20
    /\ overallProgress (stepsReady initialSteps) = 60
    /\ overallProgress (stepsRetry 0 (stepsReady initialSteps)) = 43
    /\ hasStatus 1 completed (stepsRetry 0 (stepsReady initialSteps)) = true
    /\ progressAt 1 (stepsRetry 0 (stepsReady initialSteps)) = Some 15.
Proof.
  apply (unusable_transcript_display
           (mkEnv (fun _ => true) (fun _ _ => Some TNull) (fun _ => true) (fun _ => true)
              (fun _ _ => None))
           "clip_17.mp4" initialPage initialPage TNull); reflexivity.
Defined.


(** ** The upload pages *)

Section UploadPages.

Variable accepts : UploadResponse -> bool.

Lemma acceptedFile_video files f : acceptedFile files = Some f -> videoFile f = true.
Proof.
  destruct files as [|g files]; [discriminate|]. simpl.
  destruct (videoFile g) eqn:Hg; [|discriminate]. now intros [= <-].
Qed.

(** One action, case by case: the log it writes and the state it leaves. *)
Ltac upload_simpl :=
  cbn [uploadSession uploadStep uploadActionEvents
       app fold_left applyUploadEvent withInFlight existsb isNavigateProcessing
       toastInvalidFileType toastUploadSuccessful toastUploadFailed orb
       selectedFile isUploading inFlight isDragging].

Ltac upload_cases s a :=
  destruct s as [dragging [selected|] [|] flying];
  destruct a as [| | files | [files|] | | | outcome];
  upload_simpl;
  unfold handleDragOver, handleDragLeave, handleDrop, handleFileChange,
         startUpload, settleUpload;
  try destruct (acceptedFile files) as [accepted|] eqn:Haccepted;
  try (destruct flying as [flying|]; [destruct outcome as [| |response];
                                      [| |destruct (accepts response) eqn:Haccepts]|]);
  upload_simpl.

Lemma uploadSession_inTurn actions : forall s,
  (forall f, selectedFile s = Some f -> videoFile f = true) ->
  videoUploadsInTurn (isUploading s) (uploadSession accepts s actions) = true.
Proof.
  induction actions as [|a actions IH]; intros s Hsel; [reflexivity|].
  upload_cases s a;
    cbn [videoUploadsInTurn negb andb toastInvalidFileType toastUploadSuccessful
         toastUploadFailed];
    try reflexivity;
    try (rewrite (Hsel selected eq_refl); cbn [andb]);
    match goal with
    | |- videoUploadsInTurn ?b (uploadSession _ ?s' _) = true =>
        apply (IH s'); cbn [selectedFile]; intros f Hf;
        first [ discriminate Hf
              | injection Hf as <-; first [ now apply (acceptedFile_video files)
                                          | now apply Hsel ] ]
    end.
Qed.

Lemma uploadSession_navigates_once actions : forall s,
  (length (navigationsToProcessing (uploadSession accepts s actions)) <= 1)%nat.
Proof.
  induction actions as [|a actions IH]; intros s; [simpl; lia|].
  upload_cases s a;
    cbn [navigationsToProcessing flat_map app length toastInvalidFileType
         toastUploadSuccessful toastUploadFailed];
    try lia; apply IH.
Qed.

Lemma uploadSession_video_name actions : forall s st,
  In st (navigationsToProcessing (uploadSession accepts s actions)) ->
  (exists f, In (UploadVideo f) (uploadSession accepts s actions)
             /\ videoName st = fileName f)
  \/ (exists f, inFlight s = Some f /\ videoName st = fileName f).
Proof.
  unfold navigationsToProcessing.
  induction actions as [|a actions IH]; intros s st Hst; [destruct Hst|].
  revert Hst.
  upload_cases s a;
    cbn [navigationsToProcessing flat_map app In toastInvalidFileType
         toastUploadSuccessful toastUploadFailed];
    intros Hst;
    repeat match goal with
           | H : _ \/ _ |- _ => destruct H
           | H : False |- _ => destruct H
           end;
    try (subst st; right; eexists; split; reflexivity);
    match goal with
    | H : In st (flat_map _ (uploadSession _ ?s' _)) |- _ =>
        destruct (IH s' st H) as [(f & Hin & Hname) | (f & Hfly & Hname)];
        [ left; exists f; split; [cbn [In]; auto | exact Hname]
        | cbn [inFlight] in Hfly;
          first [ discriminate Hfly
                | right; exists f; split; [exact Hfly | exact Hname]
                | injection Hfly as <-; left; eexists; split;
                  [cbn [In]; right; left; reflexivity | exact Hname] ] ]
    end.
Qed.

(** X16: whatever the user does on the upload page, and whichever test
    the page makes of the response: only files of a video type are
    uploaded, never a second one before the first has settled; the page
    navigates at most once, and then under the name of the file that was
    uploaded, not of one selected since. *)
Theorem upload_session_uploads (actions : list UploadAction) :
  videoUploadsInTurn false (uploadSession accepts initialUploadPage actions) = true
  /\ (length (navigationsToProcessing
                (uploadSession accepts initialUploadPage actions)) <= 1)%nat
  /\ forall st,
       In st (navigationsToProcessing
                (uploadSession accepts initialUploadPage actions)) ->
       exists f, In (UploadVideo f) (uploadSession accepts initialUploadPage actions)
                 /\ videoName st = fileName f.
Proof.
  split; [|split].
  - apply (uploadSession_inTurn actions initialUploadPage). intros f [=].
  - apply uploadSession_navigates_once.
  - intros st Hst.
    destruct (uploadSession_video_name actions initialUploadPage st Hst)
      as [H | (f & [=] & _)]; exact H.
Qed.

End UploadPages.

Section Handover.

(** X17: when [Upload.tsx] or the recorder navigates to the processing
    page, the upload has resolved with a file name that is not empty, the
    route state carries it, and the effect of the processing page starts
    the pipeline for that name instead of turning back. *)
Theorem upload_hands_over_filename (file : File) (blobType ratio : string) (timestamp : Z)
    (outcome : UploadOutcome) (st : RouteState) :
  In (NavigateProcessing st) (UploadPage.handleUpload (Some file) outcome)
  \/ In (NavigateProcessing st)
        (RecordPage.handleUpload (Some blobType) timestamp ratio outcome) ->
  exists response f,
    outcome = UploadResolved response
    /\ response_filename response = Some f
    /\ stateFilename st = Some f
    /\ f <> ""%string
    /\ forall env render,
         runEffect env (stateFilename st) render
         = initiateProcessing env f render render.
Proof.
  unfold UploadPage.handleUpload, UploadPage.accepts, handleUploadWith, startUpload,
    settleUpload, RecordPage.handleUpload, runEffect.
  intros H.
  destruct outcome as [| |response];
    try (cbn in H; intuition discriminate).
  destruct (response_filename response) as [[|c f]|] eqn:Hname;
    try (cbn in H; intuition discriminate).
  exists response, (String c f).
  assert (Hst : stateFilename st = Some (String c f)).
  { cbn in H. destruct H as [H | H];
      repeat (destruct H as [H | H]; try discriminate H; try (injection H as <-; reflexivity));
      destruct H. }
  repeat split; auto; try discriminate.
  intros env render. now rewrite Hst.
Qed.

Lemma upload_hands_over_filename_witness :
  exists response f,
    UploadResolved (mkUploadResponse false (Some "clip_17.mp4"%string))
    = UploadResolved response
    /\ response_filename response = Some f
    /\ (Some "clip_17.mp4"%string) = Some f
    /\ f <> ""%string
    /\ forall env render,
         runEffect env (Some "clip_17.mp4"%string) render
         = initiateProcessing env f render render.
Proof.
  apply (upload_hands_over_filename (mkFile "clip.mp4" "video/mp4") "video/webm" "" 0
           (UploadResolved (mkUploadResponse false (Some "clip_17.mp4"%string)))
           (mkRouteState "clip.mp4" (Some "clip_17.mp4"%string) None)).
  left. cbn. right. right. right. left. reflexivity.
Defined.

(** X18: [CreateVideo] trusts the [success] flag alone: for a response
    with the flag and without a file name it announces success and
    navigates, and the processing page then shows its error and turns
    back to [/create] without calling the backend. *)
Theorem createVideo_missing_filename (file : File) (response : UploadResponse) :
  response_success response = true ->
  truthy (response_filename response) = false ->
  CreateVideo.handleUpload (Some file) (UploadResolved response)
  = [SetIsUploading true; UploadVideo file; toastUploadSuccessful;
     NavigateProcessing (mkRouteState (fileName file) (response_filename response) None);
     SetIsUploading false]
  /\ forall env render,
       runEffect env (response_filename response) render
       = Some (render, [toastNoFilename; Navigate "/create" 0]).
Proof.
  intros Hok Hname. split.
  - unfold CreateVideo.handleUpload, CreateVideo.accepts, handleUploadWith, startUpload,
      settleUpload. now rewrite Hok.
  - intros env render. unfold runEffect.
    destruct (response_filename response) as [[|c f]|]; [reflexivity | discriminate | reflexivity].
Qed.

Lemma createVideo_missing_filename_witness :
  CreateVideo.handleUpload (Some (mkFile "clip.mp4" "video/mp4"))
    (UploadResolved (mkUploadResponse true None))
  = [SetIsUploading true; UploadVideo (mkFile "clip.mp4" "video/mp4");
     toastUploadSuccessful;
     NavigateProcessing (mkRouteState "clip.mp4" None None);
     SetIsUploading false]
  /\ forall env render,
       runEffect env None render = Some (render, [toastNoFilename; Navigate "/create" 0]).
Proof.
  exact (createVideo_missing_filename (mkFile "clip.mp4" "video/mp4")
           (mkUploadResponse true None) eq_refl eq_refl).
Defined.

(** X19: [Upload.tsx] and [CreateVideo] treat an upload alike exactly when
    the response carries the [success] flag together with a file name, or
    neither of them. *)
Theorem upload_pages_agree (selected : option File) (outcome : UploadOutcome) :
  UploadPage.handleUpload selected outcome = CreateVideo.handleUpload selected outcome
  <-> match selected, outcome with
      | Some _, UploadResolved response =>
          response_success response = truthy (response_filename response)
      | _, _ => True
      end.
Proof.
  unfold UploadPage.handleUpload, CreateVideo.handleUpload, UploadPage.accepts,
    CreateVideo.accepts, handleUploadWith, startUpload, settleUpload.
  destruct selected as [file|]; [|now split].
  destruct outcome as [| |response]; [now split | now split |].
  destruct (response_success response), (truthy (response_filename response));
    split; intros H; try reflexivity; try discriminate H.
Qed.

End Handover.

(** ** The preview page *)

Section Preview.

(** The URL of [getFinalVideoUrl] in [api.ts], under a name that the
    state variable [finalVideoUrl] of the page does not hide. *)
Local Abbreviation getFinalVideoUrl_url := finalVideoUrl (only parsing).

Import PreviewPage.

Local Open Scope string_scope.

Lemma includes_char c s : Js2.includes (String c "") s = negb (freeOf c s).
Proof.
  unfold freeOf. induction s as [|a s IH]; [reflexivity|].
  cbn [Js2.includes Js2.startsWith Js.all]. rewrite IH, andb_true_r, negb_andb, negb_involutive.
  now rewrite Ascii.eqb_sym.
Qed.

Lemma encodeChar_nonempty c : Js.encodeChar c <> "".
Proof.
  unfold Js.encodeChar, Js.percent.
  destruct (Js.unreserved c); [discriminate|].
  destruct (N_of_ascii c <? 128)%N; discriminate.
Qed.

Lemma encodeURIComponent_empty s : Js.encodeURIComponent s = "" -> s = "".
Proof.
  destruct s as [|c s]; [reflexivity|]. simpl. intros H.
  destruct (Js.encodeChar c) eqn:E; [now apply encodeChar_nonempty in E | discriminate].
Qed.

Lemma removeExtension_empty f :
  Js.removeExtension f = "" ->
  f = "" \/ exists ext, f = String "." ext /\ Js.extensionTail ext = true.
Proof.
  destruct f as [|c f]; [now left|]. simpl.
  destruct (Ascii.eqb c ".") eqn:Hc; [|discriminate].
  destruct (Js.extensionTail f) eqn:Hf; [|discriminate].
  intros _. right. exists f. apply Ascii.eqb_eq in Hc. now subst.
Qed.

Lemma uploadsUrl_plain f : Js2.includes "?" (uploadsUrl f) = false.
Proof.
  rewrite includes_char. unfold uploadsUrl.
  rewrite freeOf_append, encodeURIComponent_free by reflexivity. reflexivity.
Qed.

Lemma uploadsUrl_cons f : exists a u, uploadsUrl f = String a u.
Proof. now eexists; eexists. Qed.

Lemma downloadUrl_uploads st f info :
  isProcessedVideo st = false ->
  downloadUrl st (uploadsUrl f) info = ([], uploadsUrl f ++ "?download=true").
Proof.
  intros Hraw. unfold downloadUrl. rewrite Hraw, uploadsUrl_plain. cbn [andb].
  assert (Hapi : Js2.startsWith "/api/" (uploadsUrl f) = true) by reflexivity.
  now rewrite Hapi.
Qed.

Lemma handleDownload_url st a u info :
  videoUrl st = Some (String a u) ->
  handleDownload st info
  = (fst (downloadUrl st (String a u) info)
     ++ [Download (snd (downloadUrl st (String a u) info)) (downloadName st);
         toastDownloadStarted])%list.
Proof.
  intros H. unfold handleDownload. rewrite H.
  now destruct (downloadUrl st (String a u) info).
Qed.

(** X20: when only the original video is there, the page plays it from
    [/api/uploads/] and the download button asks the same URL with
    [?download=true] (never with [&], whatever the file name), saving it
    under the file name. *)
Theorem original_video_download (videoIdFromURL info : option string)
    (st : State) (f : string) :
  f <> "" ->
  filename st = JsStr f ->
  truthy (finalVideoUrl st) = false ->
  isProcessedVideo st = false ->
  secondEffect videoIdFromURL st = [SetVideoUrl (uploadsUrl f); toastUsingOriginal]
  /\ handleDownload (applyEvents st (secondEffect videoIdFromURL st)) info
     = [Download (uploadsUrl f ++ "?download=true") f; toastDownloadStarted].
Proof.
  intros Hf Hname Hfinal Hraw.
  assert (E : secondEffect videoIdFromURL st = [SetVideoUrl (uploadsUrl f); toastUsingOriginal]).
  { unfold secondEffect. rewrite Hname.
    destruct (finalVideoUrl st) as [[|c u]|]; try discriminate Hfinal;
      destruct f; congruence. }
  split; [exact E|]. rewrite E.
  destruct (uploadsUrl_cons f) as (a & u & Hurl).
  rewrite (handleDownload_url _ a u)
    by (unfold applyEvents;
        cbn [fold_left applyEvent toastUsingOriginal videoUrl]; now rewrite Hurl).
  rewrite <- Hurl, downloadUrl_uploads by exact Hraw.
  unfold downloadName, applyEvents.
  cbn [fold_left applyEvent toastUsingOriginal isProcessedVideo filename fst snd app].
  rewrite Hraw, Hname. destruct f; [congruence | reflexivity].
Qed.

Lemma original_video_download_witness :
  handleDownload
    (applyEvents (initialState None (JsStr "my clip?_17.mp4") None)
       (secondEffect None (initialState None (JsStr "my clip?_17.mp4") None))) None
  = [Download "/api/uploads/my%20clip%3F_17.mp4?download=true" "my clip?_17.mp4";
     toastDownloadStarted].
Proof.
  refine (proj2 (original_video_download None None
                   (initialState None (JsStr "my clip?_17.mp4") None)
                   "my clip?_17.mp4" _ eq_refl eq_refl eq_refl)).
  discriminate.
Defined.

(** X21: the download of an enhanced video stored at the Cloudflare host
    goes through [/api/stream_by_share/] with an identifier that is not
    empty.  The legacy endpoint [/api/stream_final_video/] is left for a
    page without a share id whose file name is missing, or is nothing but
    an extension while the backend knows no share id for it. *)
Theorem processed_download_endpoint (st : State) (url : string) (info : option string) :
  isProcessedVideo st = true ->
  Js2.includes cloudflareHost url = true ->
  (exists id, id <> ""
     /\ snd (downloadUrl st url info)
        = "/api/stream_by_share/" ++ Js.encodeURIComponent id ++ "?download=true")
  \/ (truthy (shareId st) = false
      /\ snd (downloadUrl st url info)
         = "/api/stream_final_video/" ++ Js.encodeURIComponent (toStringJs (filename st))
           ++ "?download=true"
      /\ (truthyJs (filename st) = false
          \/ truthy info = false
             /\ exists ext, filename st = JsStr ("." ++ ext)
                            /\ Js.extensionTail ext = true)).
Proof.
  intros Hdone Hhost. unfold downloadUrl. rewrite Hdone, Hhost. cbn [andb].
  destruct (shareId st) as [[|c id]|] eqn:Hid.
  2: { left. exists (String c id). split; [discriminate | reflexivity]. }
  all: destruct (filename st) as [| |[|a f]] eqn:Hname;
    try (right; cbn [snd truthy truthyJs]; repeat split; auto; fail).
  all: unfold getShareIdFromFilename;
    destruct info as [[|b share]|];
    try (left; exists (String b share); split; [discriminate | reflexivity]).
  all: cbn [snd];
    destruct (Js.encodeURIComponent (Js.removeExtension (String a f))) as [|e enc] eqn:Henc;
    try (left; exists (String e enc); split; [discriminate | reflexivity]).
  all: right; cbn [truthy]; split; [reflexivity|]; split; [reflexivity|]; right;
    split; [reflexivity|];
    apply encodeURIComponent_empty, removeExtension_empty in Henc
      as [Henc | (ext & Henc & Hext)]; [discriminate|];
    exists ext; split; [now rewrite Henc | exact Hext].
Qed.

Lemma processed_download_endpoint_witness :
  exists id, id <> ""
    /\ snd (downloadUrl (mkState (JsStr "clip_17.mp4") None None true false None)
              "https://pub-f7fdd9a323df414ba0d52f4474f6f12f.r2.dev/clip_17_final.mp4"
              (Some "ab12"))
       = "/api/stream_by_share/" ++ Js.encodeURIComponent id ++ "?download=true".
Proof.
  destruct (processed_download_endpoint
              (mkState (JsStr "clip_17.mp4") None None true false None)
              "https://pub-f7fdd9a323df414ba0d52f4474f6f12f.r2.dev/clip_17_final.mp4"
              (Some "ab12") eq_refl eq_refl) as [H | (_ & H & _)].
  - exact H.
  - discriminate H.
Defined.

(** X22: the three ways of sharing give out one and the same link after
    the same requests, and the address opened for Twitter has its two
    parameters and no more, whatever the link holds. *)
Theorem share_buttons_same_link (origin f : string) (st : State) (info : option string) :
  f <> "" ->
  filename st = JsStr f ->
  exists t link,
    handleCopyLink origin st info = (t ++ [WriteClipboard link; toastLinkCopied])%list
    /\ shareOnWhatsApp origin st info = (t ++ [WindowOpen (whatsappUrl link)])%list
    /\ shareOnTwitter origin st info = (t ++ [WindowOpen (twitterUrl link)])%list
    /\ countChar "&" (twitterUrl link) = 1%nat
    /\ countChar "?" (twitterUrl link) = 1%nat
    /\ countChar "?" (whatsappUrl link) = 1%nat
    /\ countChar "&" (whatsappUrl link) = 0%nat.
Proof.
  intros Hf Hname.
  exists (fst (idForSharing st f info)),
         (shareableLink origin (snd (idForSharing st f info))).
  unfold handleCopyLink, shareOnWhatsApp, shareOnTwitter, shareWith. rewrite Hname.
  destruct f as [|c f]; [congruence|].
  destruct (idForSharing st (String c f) info) as [t id]. cbn [fst snd].
  repeat split; unfold twitterUrl, whatsappUrl;
    rewrite ?countChar_append, ?(countChar_free _ (Js.encodeURIComponent _))
      by (now apply encodeURIComponent_free);
    reflexivity.
Qed.

Lemma share_buttons_same_link_witness :
  exists t link,
    handleCopyLink "https://clipso.example" (initialState None (JsStr "a&b.mp4") None) None
    = (t ++ [WriteClipboard link; toastLinkCopied])%list
    /\ shareOnWhatsApp "https://clipso.example" (initialState None (JsStr "a&b.mp4") None) None
       = (t ++ [WindowOpen (whatsappUrl link)])%list
    /\ shareOnTwitter "https://clipso.example" (initialState None (JsStr "a&b.mp4") None) None
       = (t ++ [WindowOpen (twitterUrl link)])%list
    /\ countChar "&" (twitterUrl link) = 1%nat
    /\ countChar "?" (twitterUrl link) = 1%nat
    /\ countChar "?" (whatsappUrl link) = 1%nat
    /\ countChar "&" (whatsappUrl link) = 0%nat.
Proof.
  refine (share_buttons_same_link "https://clipso.example" "a&b.mp4"
            (initialState None (JsStr "a&b.mp4") None) None _ eq_refl).
  discriminate.
Defined.

(** X23: a direct visit with an identifier in which a percent sign is
    not followed by two hexadecimal digits, when the video is not found by
    its share id: the legacy fallback throws while decoding, so no file
    name is set and no second request is made; the page is left without
    a video and without any message, and its buttons only report that
    there is nothing to download or share. *)
Theorem preview_malformed_id (s rest origin : string) (legacy : LegacyOutcome)
    (info : option string) :
  freeOf "%" s = true ->
  match rest with
  | String h1 (String h2 _) =>
      Js2.hexDigitValue h1 = None \/ Js2.hexDigitValue h2 = None
  | _ => True
  end ->
  let id := s ++ String "%" rest in
  let st := initialState (Some id) JsNull None in
  exists st',
    option_map (applyEvents st) (firstEffect (Some id) st None legacy) = Some st'
    /\ firstEffect (Some id) st None legacy
       = Some [SetIsLoading true; Fetch (videoByShareIdUrl id); SetIsLoading false]
    /\ secondEffect (Some id) st' = []
    /\ handleDownload st' info = [toastNoVideoToDownload]
    /\ handleCopyLink origin st' info = [toastNoVideoToShare].
Proof.
  intros Hs Hrest id st.
  assert (Hid : exists c r, id = String c r).
  { unfold id. destruct s; simpl; eauto. }
  destruct Hid as (c & r & Hid).
  assert (Hlegacy : legacyFilename id = Js2.URIError).
  { unfold legacyFilename, id. now rewrite decode_stray_percent. }
  subst st. clearbody id. subst id.
  assert (E : firstEffect (Some (String c r)) (initialState (Some (String c r)) JsNull None)
                None legacy
              = Some [SetIsLoading true; Fetch (videoByShareIdUrl (String c r));
                      SetIsLoading false]).
  { unfold firstEffect. now rewrite Hlegacy. }
  rewrite E. eexists. split; [reflexivity|]. split; [reflexivity|].
  repeat split; reflexivity.
Qed.

Lemma preview_malformed_id_witness :
  firstEffect (Some "100%") (initialState (Some "100%") JsNull None) None LegacyRejected
  = Some [SetIsLoading true; Fetch (videoByShareIdUrl "100%"); SetIsLoading false].
Proof.
  destruct (preview_malformed_id "100" "" "" LegacyRejected None eq_refl I)
    as (st' & _ & H & _).
  exact H.
Defined.

(** X24: a direct visit under the identifier the processing page makes
    from a file name whose base name has no percent sign, when the video
    is not found by its share id.  The page is given the identifier
    decoded, as the base name; it asks for the video under the identifier
    encoded again, and then, as the legacy fallback, for the final video of
    the base name with [.webm], which is the uploaded file only if that
    was a [.webm] file; and when that request answers with a completed
    video, the page plays it as the enhanced video. *)
Theorem preview_legacy_fallback (base ext url : string) (status : option string) :
  base <> "" ->
  freeOf "%" base = true ->
  Js.extensionTail ext = true ->
  url <> "" ->
  statusIs "completed" status = true ->
  let name := base ++ "." ++ ext in
  let id := routeParam (getShareableId name) in
  let st := initialState id JsNull None in
  id = Some base
  /\ firstEffect id st None (LegacyResolved status (Some url))
     = Some [SetIsLoading true; Fetch ("/api/video/" ++ getShareableId name);
             SetFilename (JsStr (base ++ ".webm")); Fetch (legacyUrl (base ++ ".webm"));
             SetIsLoading false; SetFinalVideoUrl url]
  /\ legacyUrl (base ++ ".webm") = getFinalVideoUrl_url (base ++ ".webm")
  /\ (legacyUrl (base ++ ".webm") = getFinalVideoUrl_url name <-> ext = "webm")
  /\ forall st',
       option_map (applyEvents st)
         (firstEffect id st None (LegacyResolved status (Some url))) = Some st' ->
       secondEffect id st' = [SetVideoUrl url; SetIsProcessedVideo true].
Proof.
  intros Hbase Hplain Hext Hurl Hstatus name id st.
  assert (Hid : id = Some base) by (now apply routeParam_derived).
  assert (Henc : getShareableId name = Js.encodeURIComponent base).
  { unfold getShareableId, name.
    change (base ++ "." ++ ext) with (base ++ String "." ext).
    now rewrite removeExtension_cut. }
  subst st. clearbody id. subst id. rewrite Henc. clear Henc.
  destruct base as [|c r]; [congruence|].
  assert (E : firstEffect (Some (String c r)) (initialState (Some (String c r)) JsNull None)
                None (LegacyResolved status (Some url))
              = Some [SetIsLoading true;
                      Fetch ("/api/video/" ++ Js.encodeURIComponent (String c r));
                      SetFilename (JsStr (String c r ++ ".webm"));
                      Fetch (legacyUrl (String c r ++ ".webm"));
                      SetIsLoading false; SetFinalVideoUrl url]).
  { unfold firstEffect. rewrite (legacyFilename_plain _ Hplain).
    destruct url as [|a u]; [congruence|]. now rewrite Hstatus. }
  split; [reflexivity|]. split; [exact E|]. split; [reflexivity|]. split.
  - unfold legacyUrl, getFinalVideoUrl_url, name. split.
    + intros H. apply append_cancel_l, encodeURIComponent_inj, append_cancel_l in H.
      now injection H as <-.
    + now intros ->.
  - intros st'. rewrite E. intros [= <-].
    destruct url as [|a u]; [congruence | reflexivity].
Qed.

Lemma preview_legacy_fallback_witness :
  routeParam (getShareableId "my clip_17.webm") = Some "my clip_17"
  /\ firstEffect (Some "my clip_17") (initialState (Some "my clip_17") JsNull None) None
       (LegacyResolved (Some "completed") (Some "https://cdn.example/final.mp4"))
     = Some [SetIsLoading true; Fetch "/api/video/my%20clip_17";
             SetFilename (JsStr "my clip_17.webm");
             Fetch (legacyUrl "my clip_17.webm");
             SetIsLoading false; SetFinalVideoUrl "https://cdn.example/final.mp4"].
Proof.
  destruct (preview_legacy_fallback "my clip_17" "webm"
              "https://cdn.example/final.mp4" (Some "completed"))
    as (Hid & Heffect & _); try discriminate; try reflexivity.
  split; [exact Hid | exact Heffect].
Defined.

End Preview.

(** ** The timer of the recorder *)

Section Recorder.

Import RecordPage.

Local Open Scope string_scope.

Lemma split_cut c m r :
  freeOf c m = true -> Js.split c (m ++ String c r) = m :: Js.split c r.
Proof.
  unfold freeOf. induction m as [|a m IH]; simpl; intros H.
  - now rewrite Ascii.eqb_refl.
  - apply andb_prop in H as [Ha Hm]. apply negb_true_iff in Ha.
    now rewrite Ha, IH.
Qed.

Lemma uint_of_string_zeros k d :
  NilEmpty.uint_of_string (repeatChar "0" k ++ NilEmpty.string_of_uint d)
  = Some (Nat.iter k Decimal.D0 d).
Proof.
  induction k as [|k IH]; simpl; [apply NilEmpty.usu|]. now rewrite IH.
Qed.

Lemma of_uint_zeros k d : Z.of_uint (Nat.iter k Decimal.D0 d) = Z.of_uint d.
Proof. induction k as [|k IH]; [reflexivity | exact IH]. Qed.

(** A padded numeral of a number that is not negative reads as the
    number. *)
Lemma readNumber_padStart k n :
  0 <= n -> readNumber (Js2.padStart k "0" (Js.numberToString n)) = Some n.
Proof.
  intros Hn. unfold Js2.padStart, Js.numberToString, readNumber.
  set (pad := (k - _)%nat). clearbody pad.
  pose proof (DecimalZ.of_to n) as Hback.
  destruct (Z.to_int n) as [d|d] eqn:Hd.
  2: { destruct n; try discriminate Hd. lia. }
  cbn [NilEmpty.string_of_int Z.of_int] in *.
  assert (Hread : NilEmpty.int_of_string (repeatChar "0" pad ++ NilEmpty.string_of_uint d)
                  = option_map Decimal.Pos
                      (NilEmpty.uint_of_string
                         (repeatChar "0" pad ++ NilEmpty.string_of_uint d))).
  { assert (Hfree : freeOf "-" (repeatChar "0" pad ++ NilEmpty.string_of_uint d) = true).
    { rewrite freeOf_append, repeatChar_free by discriminate.
      now rewrite string_of_uint_free. }
    destruct (repeatChar "0" pad ++ NilEmpty.string_of_uint d) as [|a s]; [reflexivity|].
    unfold freeOf in Hfree. simpl in Hfree. apply andb_prop in Hfree as [Ha _].
    apply negb_true_iff in Ha. unfold NilEmpty.int_of_string. now rewrite Ha. }
  rewrite Hread, uint_of_string_zeros. cbn [option_map Z.of_int].
  now rewrite of_uint_zeros, Hback.
Qed.

Lemma padStart_colon_free k n :
  freeOf ":" (Js2.padStart k "0" (Js.numberToString n)) = true.
Proof.
  unfold Js2.padStart. rewrite freeOf_append, repeatChar_free by discriminate.
  apply (all_free Js.unreserved); [reflexivity | apply numberToString_unreserved].
Qed.

(** X25: the text of the recording timer reads back as the seconds
    counted: no two times are shown alike. *)
Theorem formatTime_reads_back (seconds : Z) :
  0 <= seconds -> readTime (formatTime seconds) = Some seconds.
Proof.
  intros Hs. unfold readTime, formatTime. cbv zeta.
  change (?m ++ ":" ++ ?r) with (m ++ String ":" r).
  rewrite split_cut by apply padStart_colon_free.
  rewrite split_nodot by apply padStart_colon_free.
  rewrite !readNumber_padStart.
  - f_equal. rewrite Z.rem_mod_nonneg by lia. pose proof (Z.div_mod seconds 60). lia.
  - apply Z.rem_nonneg; lia.
  - apply Z.div_pos; lia.
Qed.

Lemma formatTime_reads_back_witness : readTime (formatTime 754) = Some 754.
Proof. apply (formatTime_reads_back 754). lia. Defined.

Lemma short_numeral d :
  (String.length (NilEmpty.string_of_uint d) <= 2)%nat -> Z.of_uint d < 100.
Proof.
  intros H.
  destruct d as [|d|d|d|d|d|d|d|d|d|d]; [reflexivity|..];
    (destruct d as [|d|d|d|d|d|d|d|d|d|d]; [reflexivity|..]);
    (destruct d as [|d|d|d|d|d|d|d|d|d|d]; [reflexivity|..]);
    simpl in H; lia.
Qed.

Lemma numeral_width n :
  0 <= n ->
  (n < 100 -> String.length (Js2.padStart 2 "0" (Js.numberToString n)) = 2%nat)
  /\ (100 <= n -> (3 <= String.length (Js2.padStart 2 "0" (Js.numberToString n)))%nat).
Proof.
  intros Hn. split.
  - intros Hlt. assert (Hk : exists k, (k < 100)%nat /\ n = Z.of_nat k).
    { exists (Z.to_nat n). lia. }
    destruct Hk as (k & Hk & ->).
    do 100 (destruct k as [|k]; [reflexivity|]). lia.
  - intros Hge. unfold Js2.padStart. rewrite length_append, repeatChar_length.
    enough (3 <= String.length (Js.numberToString n))%nat by lia.
    unfold Js.numberToString.
    pose proof (DecimalZ.of_to n) as Hback.
    destruct (Z.to_int n) as [d|d] eqn:Hd.
    2: { destruct n; try discriminate Hd. lia. }
    cbn [NilEmpty.string_of_int Z.of_int] in *.
    destruct (Nat.le_gt_cases (String.length (NilEmpty.string_of_uint d)) 2) as [Hshort|]; [|lia].
    apply short_numeral in Hshort. lia.
Qed.

(** X26: the timer text is five characters, [MM:SS], exactly during the
    first hundred minutes; from then on it is longer. *)
Theorem formatTime_width (seconds : Z) :
  0 <= seconds ->
  (String.length (formatTime seconds) = 5%nat <-> seconds < 6000).
Proof.
  intros Hs. unfold formatTime. cbv zeta.
  rewrite !length_append.
  assert (Hsecs : 0 <= Z.rem seconds 60 < 60).
  { rewrite Z.rem_mod_nonneg by lia. apply Z.mod_pos_bound. lia. }
  destruct (numeral_width (Z.rem seconds 60)) as [Hr _]; [lia|].
  rewrite Hr by lia.
  destruct (numeral_width (seconds / 60)) as [Hm Hm']; [apply Z.div_pos; lia|].
  change (String.length ":") with 1%nat.
  split.
  - intros H. destruct (Z.lt_ge_cases seconds 6000) as [|Hge]; [assumption|].
    assert (100 <= seconds / 60) by (apply Z.div_le_lower_bound; lia).
    specialize (Hm' ltac:(assumption)). lia.
  - intros H. rewrite Hm; [reflexivity|]. apply Z.div_lt_upper_bound; lia.
Qed.

Lemma formatTime_width_witness :
  String.length (formatTime 5999) = 5%nat <-> 5999 < 6000.
Proof. apply (formatTime_width 5999). lia. Defined.

End Recorder.

(** ** The countdown of the recorder *)

Section Countdown.

Import RecordCountdown.

Lemma countdownEffect_tick n isRecording :
  countdownEffect (Z.of_nat (S n)) isRecording = Tick (Z.of_nat n).
Proof.
  unfold countdownEffect.
  destruct (Z.ltb_spec 0 (Z.of_nat (S n))) as [_|]; [|lia].
  f_equal. lia.
Qed.

(** X27: from a countdown of [n] the recorder sets [n] timers of one
    second, one after the other, and then, if the page is recording,
    calls [startRecording], once and as the last thing; if it is not, it
    never does.  [prepareRecording] starts this with [n = 3]. *)
Theorem countdown_starts_recording (n : nat) (isRecording : bool) :
  exists t,
    (forall fuel, (n < fuel)%nat ->
       countdownRun fuel (Z.of_nat n) isRecording = Some t)
    /\ countdownDelays t = List.repeat 1000 n
    /\ recordingsStarted t = (if isRecording then 1%nat else 0%nat)
    /\ exists front,
         recordingsStarted front = 0%nat
         /\ t = front ++ (if isRecording then [StartRecording] else []).
Proof.
  induction n as [|n (t & Hrun & Hdelays & Hstarted & front & Hfront & Ht)].
  - exists (if isRecording then [StartRecording] else []).
    split; [|split; [|split]].
    + intros [|fuel] Hfuel; [lia|]. now destruct isRecording.
    + now destruct isRecording.
    + now destruct isRecording.
    + now exists [].
  - exists (CountdownTimeout 1000 :: SetCountdown (Z.of_nat n) :: t).
    split; [|split; [|split]].
    + intros [|fuel] Hfuel; [lia|].
      cbn [countdownRun]. rewrite countdownEffect_tick, Hrun by lia. reflexivity.
    + unfold countdownDelays in *. cbn [flat_map app List.repeat]. now rewrite Hdelays.
    + exact Hstarted.
    + exists (CountdownTimeout 1000 :: SetCountdown (Z.of_nat n) :: front).
      split; [exact Hfront|]. now rewrite Ht.
Qed.

End Countdown.
